(** * YTTranskripto: timestamp extraction, timestamp formatting and transcript export

    A shallow embedding of [yttranskripto.py]: the utility functions
    [extract_video_id], [safe_time], [format_timestamp] and
    [format_srt_timestamp], and the state and the handlers of [MainWindow]
    ([fetch_transcript], [update_transcript_display], [export_transcript],
    [save_preferences], [closeEvent] and the start from the stored
    preferences), together with the fragment of the Python runtime and of the
    [datetime], [csv], [json] and [docx] libraries that these functions call.
    The transcript service is a parameter of [fetch_transcript].

    Conventions of the embedding.
    - The interpreter is CPython 3.11 on Linux; the messages of the
      exceptions are the ones it gives.
    - A Python [float] is an IEEE 754 binary64 value, written as a
      [spec_float] of the standard library at precision 53 and maximal
      exponent 1024; every operation rounds to nearest, ties to even.
    - A Python [int] is a [Z]; a Python [str] is a [string] whose characters
      are the code points below 256.
    - A Python [dict] with string keys is an association list in insertion
      order.
    - A function that can raise returns a [result]; [try]/[except] is a
      match on it.
    - Files hold text (the characters handed to a text-mode file object on a
      POSIX system, before encoding) or a word-processor document.
    - The interpreter's limits are modelled where a statement is about
      them: [safe_time_in] is [safe_time] with the recursion limit, and
      [within_limits] holds of the values that stay clear of the recursion
      limit and of the limit on the digits of an int. The other definitions
      are those of an interpreter without these two limits. *)

From Stdlib Require Import ZArith String Ascii List Bool Lia.
From Stdlib Require Import SpecFloat DecimalString DecimalZ.
From stdpp Require Import base option list strings gmap.

Local Open Scope string_scope.
Local Open Scope Z_scope.
Local Open Scope list_scope.

(** ** The Python runtime *)

Module Py.

(** *** Exceptions and results *)

Inductive exn : Type :=
| KeyError (key : string)
| TypeError (msg : string)
| ValueError (msg : string)
| OverflowError (msg : string)
| ZeroDivisionError (msg : string)
| OSError (msg : string)
| RecursionError (msg : string).

Inductive result (A : Type) : Type :=
| Ok (a : A)
| Raise (e : exn).
Arguments Ok {A} a.
Arguments Raise {A} e.

Definition bind {A B} (m : result A) (k : A -> result B) : result B :=
  match m with
  | Ok a => k a
  | Raise e => Raise e
  end.

Notation "'let*' x ':=' m 'in' k" := (bind m (fun x => k))
  (at level 10, x pattern, m at level 100, k at level 200).

(** [except (ValueError, TypeError)]: the two classes that [safe_time] catches. *)
Definition is_value_or_type_error (e : exn) : bool :=
  match e with
  | ValueError _ | TypeError _ => true
  | _ => false
  end.

(** *** Characters and strings *)

Definition chars (s : string) : list ascii := list_ascii_of_string s.
Definition text (l : list ascii) : string := string_of_list_ascii l.

Definition code (c : ascii) : N := N_of_ascii c.

(** The double quote character. *)
Definition dquote : ascii := "034"%char.

Definition is_digit (c : ascii) : bool := ((48 <=? code c) && (code c <=? 57))%N.

Definition digit_value (c : ascii) : Z := Z.of_N (code c) - 48.

(** The code points below 256 that [float] strips as white space. *)
Definition is_space (c : ascii) : bool :=
  (((9 <=? code c) && (code c <=? 13)) || (code c =? 32)
   || (code c =? 133) || (code c =? 160))%N.

Definition to_lower (c : ascii) : ascii :=
  if ((65 <=? code c) && (code c <=? 90))%N then ascii_of_N (code c + 32) else c.

Fixpoint span (p : ascii -> bool) (l : list ascii) : list ascii * list ascii :=
  match l with
  | [] => ([], [])
  | c :: t => if p c then let '(a, b) := span p t in (c :: a, b) else ([], l)
  end.

Fixpoint drop_spaces (l : list ascii) : list ascii :=
  match l with
  | c :: t => if is_space c then drop_spaces t else l
  | [] => []
  end.

Definition strip (l : list ascii) : list ascii :=
  rev (drop_spaces (rev (drop_spaces l))).

Definition digits_value (l : list ascii) : Z :=
  fold_left (fun acc c => 10 * acc + digit_value c) l 0.

Definition list_ascii_eqb (a b : list ascii) : bool :=
  String.eqb (text a) (text b).

(** The decimal numeral of an int, which is what [str] and [repr] give for
    an int of at most 4300 digits; the interpreter refuses to convert a
    longer one. *)
Definition str_of_Z (z : Z) : string := NilZero.string_of_int (Z.to_int z).

(** *** Floats *)

Definition float : Type := spec_float.

Definition prec : Z := 53.
Definition emax : Z := 1024.

Definition fzero : float := S754_zero false.

Definition is_nan (x : float) : bool :=
  match x with S754_nan => true | _ => false end.

Definition is_inf (x : float) : bool :=
  match x with S754_infinity _ => true | _ => false end.

Definition is_finite (x : float) : bool :=
  match x with S754_zero _ | S754_finite _ _ _ => true | _ => false end.

Definition sign_bit (x : float) : bool :=
  match x with
  | S754_zero s | S754_infinity s | S754_finite s _ _ => s
  | S754_nan => false
  end.

Definition float_eqb (x y : float) : bool :=
  match x, y with
  | S754_zero a, S754_zero b => Bool.eqb a b
  | S754_infinity a, S754_infinity b => Bool.eqb a b
  | S754_nan, S754_nan => true
  | S754_finite a m e, S754_finite b n f => Bool.eqb a b && Pos.eqb m n && Z.eqb e f
  | _, _ => false
  end.

(** The binary64 value nearest to [n / d], ties to even. *)
Definition float_of_ratio (s : bool) (n d : positive) : float :=
  let '(q, e, l) := SFdiv_core_binary prec emax (Zpos n) 0 (Zpos d) 0 in
  binary_round_aux prec emax s q e l.

(** The binary64 value nearest to [(-1)^s * m * 10^k]. *)
Definition float_of_decimal (s : bool) (m k : Z) : float :=
  match m with
  | Zpos p =>
      match k with
      | Zneg k' => float_of_ratio s p (Pos.pow 10 k')
      | _ => float_of_ratio s (Z.to_pos (Zpos p * 10 ^ k)) 1
      end
  | _ => S754_zero s
  end.

(** [float(z)] for an [int]: [PyLong_AsDouble]. *)
Definition float_of_int (z : Z) : result float :=
  let f := binary_normalize prec emax z 0 false in
  if is_inf f then Raise (OverflowError "int too large to convert to float")
  else Ok f.

(** The exact integer part of a finite float, rounded toward zero. *)
Definition trunc_finite (s : bool) (m : positive) (e : Z) : Z :=
  let a := match e with
           | Zneg k => Z.shiftr (Zpos m) (Zpos k)
           | _ => Z.shiftl (Zpos m) e
           end in
  if s then - a else a.

(** [int(x)] for a [float]: [PyLong_FromDouble]. *)
Definition int_of_float (x : float) : result Z :=
  match x with
  | S754_zero _ => Ok 0
  | S754_finite s m e => Ok (trunc_finite s m e)
  | S754_infinity _ => Raise (OverflowError "cannot convert float infinity to integer")
  | S754_nan => Raise (ValueError "cannot convert float NaN to integer")
  end.

Definition fadd : float -> float -> float := SFadd prec emax.
Definition fsub : float -> float -> float := SFsub prec emax.
Definition fmul : float -> float -> float := SFmul prec emax.
Definition fdiv : float -> float -> float := SFdiv prec emax.
Definition flt : float -> float -> bool := SFltb.

(** C's [x != 0.0], the truth value of a double. *)
Definition f_nonzero (x : float) : bool :=
  match x with S754_zero _ => false | _ => true end.

(** C's [copysign(0.0, y)]. *)
Definition zero_with_sign_of (y : float) : float := S754_zero (sign_bit y).

(** A finite non-zero float as an integer multiple of [2^e]. *)
Definition scaled (m : positive) (e e0 : Z) : Z := Z.shiftl (Zpos m) (e - e0).

(** C's [fmod]: the result has the sign of [x] and is exact. *)
Definition c_fmod (x y : float) : float :=
  match x, y with
  | S754_nan, _ | _, S754_nan => S754_nan
  | S754_infinity _, _ => S754_nan
  | _, S754_zero _ => S754_nan
  | S754_zero _, _ => x
  | S754_finite _ _ _, S754_infinity _ => x
  | S754_finite sx mx ex, S754_finite _ my ey =>
      let e0 := Z.min ex ey in
      let r := Z.modulo (scaled mx ex e0) (scaled my ey e0) in
      binary_normalize prec emax (if sx then - r else r) e0 sx
  end.

(** C's [floor]. *)
Definition c_floor (x : float) : float :=
  match x with
  | S754_finite s m e =>
      let t := trunc_finite s m e in
      let exact := match e with
                   | Zneg k => Z.eqb (Z.land (Zpos m) (Z.ones (Zpos k))) 0
                   | _ => true
                   end in
      binary_normalize prec emax (if s && negb exact then t - 1 else t) 0 s
  | _ => x
  end.

Definition f_one : float := S754_finite false 4503599627370496 (-52).
Definition f_half : float := S754_finite false 4503599627370496 (-53).

(** [x % y] on floats: [float_rem] of floatobject.c. *)
Definition float_rem (vx wx : float) : result float :=
  if negb (f_nonzero wx) then Raise (ZeroDivisionError "float modulo")
  else
    let mod_ := c_fmod vx wx in
    if f_nonzero mod_ then
      if negb (Bool.eqb (flt wx fzero) (flt mod_ fzero)) then Ok (fadd mod_ wx)
      else Ok mod_
    else Ok (zero_with_sign_of wx).

(** [x // y] on floats: [float_floor_div] of floatobject.c. *)
Definition float_floor_div (vx wx : float) : result float :=
  if negb (f_nonzero wx) then Raise (ZeroDivisionError "float floor division by zero")
  else
    let mod_ := c_fmod vx wx in
    let div := fdiv (fsub vx mod_) wx in
    let div :=
      if f_nonzero mod_ && negb (Bool.eqb (flt wx fzero) (flt mod_ fzero))
      then fsub div f_one else div in
    if f_nonzero div then
      let floordiv := c_floor div in
      if flt f_half (fsub div floordiv) then Ok (fadd floordiv f_one)
      else Ok floordiv
    else Ok (zero_with_sign_of (fdiv vx wx)).

(** [round(x)] with one argument, for a float: the nearest integer, ties to even. *)
Definition round_float (x : float) : result Z :=
  match x with
  | S754_zero _ => Ok 0
  | S754_infinity _ => Raise (OverflowError "cannot convert float infinity to integer")
  | S754_nan => Raise (ValueError "cannot convert float NaN to integer")
  | S754_finite s m e =>
      let a :=
        match e with
        | Zneg k =>
            let q := Z.shiftr (Zpos m) (Zpos k) in
            let r := Z.land (Zpos m) (Z.ones (Zpos k)) in
            let h := Z.shiftl 1 (Zpos k - 1) in
            match Z.compare r h with
            | Lt => q
            | Gt => q + 1
            | Eq => if Z.even q then q else q + 1
            end
        | _ => Z.shiftl (Zpos m) e
        end in
      Ok (if s then - a else a)
  end.

(** *** [float(str)] *)

(** [_Py_string_to_number_with_underscores]: an underscore is dropped when
    it stands between two digits, and is an error anywhere else. *)
Fixpoint drop_underscores (prev : ascii) (l : list ascii) : option (list ascii) :=
  match l with
  | [] => if Ascii.eqb prev "_" then None else Some []
  | c :: t =>
      if Ascii.eqb c "_" then
        if is_digit prev then drop_underscores c t else None
      else if Ascii.eqb prev "_" && negb (is_digit c) then None
      else option_map (cons c) (drop_underscores c t)
  end.

Definition split_sign (l : list ascii) : bool * list ascii :=
  match l with
  | c :: t => if Ascii.eqb c "-" then (true, t)
              else if Ascii.eqb c "+" then (false, t) else (false, l)
  | [] => (false, [])
  end.

Definition is_exp_mark (c : ascii) : bool := Ascii.eqb c "e" || Ascii.eqb c "E".

(** The grammar of [PyOS_string_to_double]: a decimal number with optional
    fraction and exponent, or [inf], [infinity], [nan] in any case. *)
Definition parse_float_body (l : list ascii) : option float :=
  let '(neg, l1) := split_sign l in
  let low := map to_lower l1 in
  if list_ascii_eqb low (chars "inf") || list_ascii_eqb low (chars "infinity")
  then Some (S754_infinity neg)
  else if list_ascii_eqb low (chars "nan") then Some S754_nan
  else
    let '(ip, l2) := span is_digit l1 in
    let '(fp, l3) :=
      match l2 with
      | c :: t => if Ascii.eqb c "." then span is_digit t else ([], l2)
      | [] => ([], [])
      end in
    match ip ++ fp with
    | [] => None
    | ds =>
        let m := digits_value ds in
        let k := - Z.of_nat (length fp) in
        match l3 with
        | [] => Some (float_of_decimal neg m k)
        | c :: t =>
            if is_exp_mark c then
              let '(eneg, t1) := split_sign t in
              let '(ep, t2) := span is_digit t1 in
              match ep, t2 with
              | _ :: _, [] =>
                  let x := digits_value ep in
                  Some (float_of_decimal neg m (k + (if eneg then - x else x)))
              | _, _ => None
              end
            else None
        end
    end.

Definition float_of_str (s : string) : option float :=
  match drop_underscores "000" (chars s) with
  | Some l => parse_float_body (strip l)
  | None => None
  end.

(** *** [repr(float)] *)

Fixpoint exp_up (fuel : nat) (n d k : Z) : Z :=
  match fuel with
  | O => k
  | S f => if n >=? d * 10 then exp_up f n (d * 10) (k + 1) else k
  end.

Fixpoint exp_down (fuel : nat) (n d k : Z) : Z :=
  match fuel with
  | O => k
  | S f => if n <? d then exp_down f (n * 10) d (k - 1) else k
  end.

(** The [e] with [10^e <= n/d < 10^(e+1)], for positive [n] and [d]. *)
Definition decimal_exponent (n d : Z) : Z :=
  if n >=? d then exp_up 400 n d 0 else exp_down 400 n d 0.

Definition reads_back (x : float) (c k : Z) : bool :=
  float_eqb (float_of_decimal false c k) x.

(** The shortest decimal [c * 10^k] that reads back as the positive float
    [n / d]; of the two candidates with as many digits, the nearer one. *)
Fixpoint shortest_digits (fuel : nat) (x : float) (n d e : Z) (digits : Z) : Z * Z :=
  let k := e - digits + 1 in
  let num := if k <? 0 then n * 10 ^ (- k) else n in
  let den := if k <? 0 then d else d * 10 ^ k in
  let q := num / den in
  let r := num mod den in
  match fuel with
  | O => (q, k)
  | S f =>
      let lo := reads_back x q k in
      let hi := reads_back x (q + 1) k in
      if lo && hi then
        match Z.compare (2 * r) den with
        | Lt => (q, k)
        | Gt => (q + 1, k)
        | Eq => if Z.even q then (q, k) else (q + 1, k)
        end
      else if lo then (q, k)
      else if hi then (q + 1, k)
      else shortest_digits f x n d e (digits + 1)
  end.

Fixpoint drop_zeros (l : list ascii) : list ascii :=
  match l with
  | c :: t => if Ascii.eqb c "0" then drop_zeros t else l
  | [] => []
  end.

Definition zeros (n : Z) : list ascii := repeat "0"%char (Z.to_nat n).

(** The digits of a positive float without trailing zeros, and the position
    [decpt] of the decimal point: the value is [0.d1d2...dn * 10^decpt]. *)
Definition float_digits (m : positive) (e : Z) : list ascii * Z :=
  let n := match e with Zneg _ => Zpos m | _ => Z.shiftl (Zpos m) e end in
  let d := match e with Zneg k => Z.shiftl 1 (Zpos k) | _ => 1 end in
  let '(c, k) := shortest_digits 17 (S754_finite false m e) n d (decimal_exponent n d) 1 in
  let all := chars (str_of_Z c) in
  (rev (drop_zeros (rev all)), Z.of_nat (length all) + k).

Definition exponent_suffix (x : Z) : list ascii :=
  let a := chars (str_of_Z (Z.abs x)) in
  (if x <? 0 then "-"%char else "+"%char) :: (if Z.abs x <? 10 then "0"%char :: a else a).

(** [format_float_short] with format code [r] and the flag that adds [.0]. *)
Definition float_repr (x : float) : string :=
  match x with
  | S754_nan => "nan"
  | S754_infinity s => if s then "-inf" else "inf"
  | S754_zero s => if s then "-0.0" else "0.0"
  | S754_finite s m e =>
      let '(ds, decpt) := float_digits m e in
      let n := Z.of_nat (length ds) in
      let body :=
        if (decpt <=? -4) || (16 <? decpt) then
          match ds with
          | [] => []
          | d1 :: [] => d1 :: "e"%char :: exponent_suffix (decpt - 1)
          | d1 :: rest => d1 :: "."%char :: rest ++ "e"%char :: exponent_suffix (decpt - 1)
          end
        else if decpt <=? 0 then "0"%char :: "."%char :: zeros (- decpt) ++ ds
        else if n <=? decpt then ds ++ zeros (decpt - n) ++ chars ".0"
        else firstn (Z.to_nat decpt) ds ++ "."%char :: skipn (Z.to_nat decpt) ds in
      text (if s then "-"%char :: body else body)
  end.

(** *** Objects *)

Unset Elimination Schemes.
Inductive obj : Type :=
| VNone
| VBool (b : bool)
| VInt (z : Z)
| VFloat (x : float)
| VStr (s : string)
| VList (l : list obj)
| VDict (d : list (string * obj)).
Set Elimination Schemes.

(** Induction over objects, with the hypothesis for every element of a list
    and every value of a dict. *)
Definition obj_ind (P : obj -> Prop)
    (fnone : P VNone)
    (fbool : forall b, P (VBool b))
    (fint : forall z, P (VInt z))
    (ffloat : forall x, P (VFloat x))
    (fstr : forall s, P (VStr s))
    (flist : forall l, Forall P l -> P (VList l))
    (fdict : forall d, Forall (fun kv => P (snd kv)) d -> P (VDict d)) :
  forall v, P v :=
  fix go (v : obj) : P v :=
    match v with
    | VNone => fnone
    | VBool b => fbool b
    | VInt z => fint z
    | VFloat x => ffloat x
    | VStr s => fstr s
    | VList l =>
        flist l ((fix all (l : list obj) : Forall P l :=
                    match l with
                    | [] => @List.Forall_nil obj P
                    | a :: t => @List.Forall_cons obj P a t (go a) (all t)
                    end) l)
    | VDict d =>
        fdict d ((fix all (d : list (string * obj)) : Forall (fun kv => P (snd kv)) d :=
                    match d with
                    | [] => @List.Forall_nil _ (fun kv => P (snd kv))
                    | kv :: t => @List.Forall_cons _ (fun kv => P (snd kv)) kv t (go (snd kv)) (all t)
                    end) d)
    end.

(** [key in d] and [d[key]] for a dict. *)
Fixpoint dict_get (d : list (string * obj)) (key : string) : option obj :=
  match d with
  | [] => None
  | (k, v) :: t => if String.eqb k key then Some v else dict_get t key
  end.

Definition dict_contains (d : list (string * obj)) (key : string) : bool :=
  match dict_get d key with Some _ => true | None => false end.

(** [d.values()], in insertion order. *)
Definition dict_values (d : list (string * obj)) : list obj := map snd d.

Definition type_name (v : obj) : string :=
  match v with
  | VNone => "NoneType"
  | VBool _ => "bool"
  | VInt _ => "int"
  | VFloat _ => "float"
  | VStr _ => "str"
  | VList _ => "list"
  | VDict _ => "dict"
  end.

Definition hex_digit (n : N) : ascii :=
  ascii_of_N (if (n <? 10)%N then 48 + n else 87 + n).

(** The characters [repr] writes as they are: the printable code points below 256. *)
Definition is_printable (c : ascii) : bool :=
  (((32 <=? code c) && (code c <=? 126)) || ((161 <=? code c) && negb (code c =? 173)))%N.

Definition repr_char (quote : ascii) (c : ascii) : list ascii :=
  if Ascii.eqb c quote || Ascii.eqb c "\" then ["\"%char; c]
  else if (code c =? 9)%N then chars "\t"
  else if (code c =? 10)%N then chars "\n"
  else if (code c =? 13)%N then chars "\r"
  else if is_printable c then [c]
  else ["\"%char; "x"%char; hex_digit (code c / 16); hex_digit (code c mod 16)].

(** [repr(s)] for a str: single quotes, unless the string has a single quote
    and no double quote. *)
Definition str_repr (s : string) : string :=
  let l := chars s in
  let quote : ascii :=
    if existsb (Ascii.eqb "'") l && negb (existsb (Ascii.eqb dquote) l)
    then dquote else "'"%char in
  text (quote :: flat_map (repr_char quote) l ++ [quote]).

Fixpoint join (sep : string) (l : list string) : string :=
  match l with
  | [] => ""
  | [a] => a
  | a :: t => a +:+ sep +:+ join sep t
  end.

Fixpoint repr (v : obj) : string :=
  match v with
  | VNone => "None"
  | VBool b => if b then "True" else "False"
  | VInt z => str_of_Z z
  | VFloat x => float_repr x
  | VStr s => str_repr s
  | VList l => "[" +:+ join ", " (map repr l) +:+ "]"
  | VDict d =>
      "{" +:+ join ", " (map (fun kv => str_repr (fst kv) +:+ ": " +:+ repr (snd kv)) d) +:+ "}"
  end.

(** [str(v)], which is also what an f-string field without a format
    specification inserts. *)
Definition str (v : obj) : string :=
  match v with
  | VStr s => s
  | _ => repr v
  end.

(** [float(v)]. *)
Definition float_of (v : obj) : result float :=
  match v with
  | VFloat x => Ok x
  | VInt z => float_of_int z
  | VBool b => float_of_int (if b then 1 else 0)
  | VStr s =>
      match float_of_str s with
      | Some x => Ok x
      | None => Raise (ValueError ("could not convert string to float: " +:+ str_repr s))
      end
  | _ => Raise (TypeError ("float() argument must be a string or a real number, not '"
                           +:+ type_name v +:+ "'"))
  end.

(** [isinstance(v, (int, float))]; [bool] is a subclass of [int]. *)
Definition isinstance_int_or_float (v : obj) : bool :=
  match v with
  | VInt _ | VFloat _ | VBool _ => true
  | _ => false
  end.

(** [v[key]] with a str key. *)
Definition getitem (v : obj) (key : string) : result obj :=
  match v with
  | VDict d =>
      match dict_get d key with
      | Some x => Ok x
      | None => Raise (KeyError key)
      end
  | VList _ => Raise (TypeError "list indices must be integers or slices, not str")
  | VStr _ => Raise (TypeError "string indices must be integers, not 'str'")
  | _ => Raise (TypeError ("'" +:+ type_name v +:+ "' object is not subscriptable"))
  end.

(** [str(e)] for a caught exception. *)
Definition exn_str (e : exn) : string :=
  match e with
  | KeyError key => str_repr key
  | TypeError m | ValueError m | OverflowError m | ZeroDivisionError m | OSError m
  | RecursionError m => m
  end.

Definition pad_left (width : nat) (s : string) : string :=
  text (repeat "0"%char (width - String.length s)) +:+ s.

(** [f"{z:0w}"] for an int: zero padding to [width] characters, the sign first. *)
Definition format_zero_padded (width : nat) (z : Z) : string :=
  if z <? 0 then "-" +:+ pad_left (width - 1) (str_of_Z (- z))
  else pad_left width (str_of_Z z).

(** The line feed and carriage return characters, and the strings made of them. *)
Definition lf : ascii := "010"%char.
Definition cr : ascii := "013"%char.
Definition nl : string := String lf EmptyString.
Definition crlf : string := String cr (String lf EmptyString).

(** [bool(v)]. *)
Definition truthy (v : obj) : bool :=
  match v with
  | VNone => false
  | VBool b => b
  | VInt z => negb (z =? 0)
  | VFloat x => f_nonzero x
  | VStr s => negb (String.eqb s EmptyString)
  | VList l => match l with [] => false | _ => true end
  | VDict d => match d with [] => false | _ => true end
  end.

(** Arithmetic of a float with an int: the int is converted first. *)
Definition float_floor_div_int (x : float) (z : Z) : result float :=
  let* y := float_of_int z in float_floor_div x y.

Definition float_rem_int (x : float) (z : Z) : result float :=
  let* y := float_of_int z in float_rem x y.

Definition float_sub_int (x : float) (z : Z) : result float :=
  let* y := float_of_int z in Ok (fsub x y).

Definition float_mul_int (x : float) (z : Z) : result float :=
  let* y := float_of_int z in Ok (fmul x y).

(** *** Writing to an open file

    A computation that writes to an open text file yields the text written
    so far and either a value or the exception that stopped it. *)

Definition writer (A : Type) : Type := (string * result A)%type.

Definition wret {A} (a : A) : writer A := (EmptyString, Ok a).

Definition wbind {A B} (m : writer A) (k : A -> writer B) : writer B :=
  match m with
  | (s, Ok a) => let '(s', r) := k a in (s +:+ s', r)
  | (s, Raise e) => (s, Raise e)
  end.

(** [f.write(s)]. *)
Definition write (s : string) : writer unit := (s, Ok tt).

(** A computation that writes nothing. *)
Definition eval {A} (r : result A) : writer A := (EmptyString, r).

Notation "'do*' x ':=' m 'in' k" := (wbind m (fun x => k))
  (at level 10, x pattern, m at level 100, k at level 200).

(** [for i, a in enumerate(l, start): body]. *)
Fixpoint for_enumerate {A} (start : Z) (l : list A) (body : Z -> A -> writer unit)
  : writer unit :=
  match l with
  | [] => wret tt
  | a :: t => do* _ := body start a in for_enumerate (start + 1) t body
  end.

(** [for a in l: body]. *)
Definition for_each {A} (l : list A) (body : A -> writer unit) : writer unit :=
  for_enumerate 0 l (fun _ a => body a).

End Py.

(** ** [datetime] *)

Module Datetime.
Import Py.

(** A naive UTC datetime: the day, counted from 1970-01-01, and the time of day. *)
Record datetime : Type := {
  day_number : Z;
  hour : Z;
  minute : Z;
  second : Z }.

(** The first and the last second of the years 1 to 9999. *)
Definition min_timestamp : Z := -62135596800.
Definition max_timestamp : Z := 253402300799.

(** The year of the proleptic Gregorian calendar in which a day lies. *)
Definition year_of_day (days : Z) : Z :=
  let z := days + 719468 in
  let era := z / 146097 in
  let doe := z mod 146097 in
  let yoe := (doe - doe / 1460 + doe / 36524 - doe / 146096) / 365 in
  let doy := doe - (365 * yoe + yoe / 4 - yoe / 100) in
  let mp := (5 * doy + 2) / 153 in
  yoe + era * 400 + (if mp <? 10 then 0 else 1).

(** A C [int] of 32 bits. *)
Definition fits_int (z : Z) : bool := (- 2 ^ 31 <=? z) && (z <? 2 ^ 31).
Definition wrap_int (z : Z) : Z := (z + 2 ^ 31) mod 2 ^ 32 - 2 ^ 31.

(** [datetime.utcfromtimestamp(t)] for an int [t], on Linux with a 64-bit
    [time_t]. Outside of the years 1 to 9999 it raises: [OverflowError] when
    [t] is no [time_t], [OSError] when [gmtime] cannot hold the year in
    [tm_year], and [ValueError] otherwise. *)
Definition utcfromtimestamp (t : Z) : result datetime :=
  if (min_timestamp <=? t) && (t <=? max_timestamp) then
    let sod := t mod 86400 in
    Ok {| day_number := t / 86400;
          hour := sod / 3600;
          minute := (sod mod 3600) / 60;
          second := sod mod 60 |}
  else if negb ((- 2 ^ 63 <=? t) && (t <? 2 ^ 63)) then
    Raise (OverflowError "timestamp out of range for platform time_t")
  else
    let tm_year := year_of_day (t / 86400) - 1900 in
    if fits_int tm_year then
      Raise (ValueError ("year " +:+ str_of_Z (wrap_int (tm_year + 1900))
                         +:+ " is out of range"))
    else Raise (OSError "[Errno 75] Value too large for defined data type").

(** [d.strftime("%H:%M:%S")]. *)
Definition strftime_HMS (d : datetime) : string :=
  format_zero_padded 2 (hour d) +:+ ":" +:+ format_zero_padded 2 (minute d)
  +:+ ":" +:+ format_zero_padded 2 (second d).

End Datetime.

(** ** [csv] *)

Module Csv.
Import Py.

(** The excel dialect: fields separated by a comma, quoted with the double
    quote when they need it, records ended by CR LF. *)
Definition needs_quotes (c : ascii) : bool :=
  Ascii.eqb c "," || Ascii.eqb c dquote || Ascii.eqb c cr || Ascii.eqb c lf.

(** The text of a field: [None] is written as the empty string, a str as it
    is, anything else through [str]. *)
Definition field_text (v : obj) : string :=
  match v with
  | VNone => EmptyString
  | _ => str v
  end.

Definition double_quotes (c : ascii) : list ascii :=
  if Ascii.eqb c dquote then [dquote; dquote] else [c].

Definition quote_field (s : string) : string :=
  if existsb needs_quotes (chars s)
  then text (dquote :: flat_map double_quotes (chars s) ++ [dquote])
  else s.

(** [writer.writerow(fields)]: the text written to the file. A record that
    has fields and no character, that is a single empty field, is written
    as an empty quoted field. *)
Definition writerow (fields : list obj) : string :=
  let record := join "," (map quote_field (map field_text fields)) in
  (if negb (Nat.eqb (length fields) 0) && String.eqb record EmptyString
   then text [dquote; dquote] else record) +:+ crlf.

End Csv.

(** ** [json] *)

Module Json.
Import Py.

Definition hex4 (c : ascii) : list ascii :=
  ["0"%char; "0"%char; hex_digit (code c / 16); hex_digit (code c mod 16)].

(** [py_encode_basestring_ascii]: one character of a string. *)
Definition escape_char (c : ascii) : list ascii :=
  if Ascii.eqb c dquote then ["\"%char; dquote]
  else if Ascii.eqb c "\" then ["\"%char; "\"%char]
  else if (code c =? 10)%N then chars "\n"
  else if (code c =? 13)%N then chars "\r"
  else if (code c =? 9)%N then chars "\t"
  else if (code c =? 8)%N then chars "\b"
  else if (code c =? 12)%N then chars "\f"
  else if ((32 <=? code c) && (code c <=? 126))%N then [c]
  else "\"%char :: "u"%char :: hex4 c.

Definition encode_str (s : string) : string :=
  text (dquote :: flat_map escape_char (chars s) ++ [dquote]).

(** [float.__repr__], except for the three special values. *)
Definition encode_float (x : float) : string :=
  match x with
  | S754_nan => "NaN"
  | S754_infinity s => if s then "-Infinity" else "Infinity"
  | _ => float_repr x
  end.

(** A line feed and the indentation of nesting depth [level]. *)
Definition newline_indent (indent level : nat) : string :=
  nl +:+ text (repeat " "%char (indent * level)).

(** [json.dumps(v, indent=indent)] at nesting depth [level]. *)
Fixpoint encode (indent level : nat) (v : obj) : string :=
  match v with
  | VNone => "null"
  | VBool b => if b then "true" else "false"
  | VInt z => str_of_Z z
  | VFloat x => encode_float x
  | VStr s => encode_str s
  | VList [] => "[]"
  | VList l =>
      "[" +:+ newline_indent indent (S level)
      +:+ join ("," +:+ newline_indent indent (S level)) (map (encode indent (S level)) l)
      +:+ newline_indent indent level +:+ "]"
  | VDict [] => "{}"
  | VDict d =>
      "{" +:+ newline_indent indent (S level)
      +:+ join ("," +:+ newline_indent indent (S level))
            (map (fun kv => encode_str (fst kv) +:+ ": " +:+ encode indent (S level) (snd kv)) d)
      +:+ newline_indent indent level +:+ "}"
  end.

(** [json.dump(v, f, indent=indent)]: the text written to [f]. *)
Definition dump (v : obj) (indent : nat) : writer unit := write (encode indent 0 v).

End Json.

(** ** Decoding JSON

    [json.loads], as the scanner and the decoder of the [json] module do it.
    A [\u] escape of a code point from 256 on has no counterpart among the
    strings of this embedding, and the decoder gives no result for it. *)

Module JsonDecoder.
Import Py.

(** The white space of JSON. *)
Definition is_ws (c : ascii) : bool :=
  ((code c =? 32) || (code c =? 9) || (code c =? 10) || (code c =? 13))%N.

Fixpoint skip_ws (l : list ascii) : list ascii :=
  match l with
  | c :: t => if is_ws c then skip_ws t else l
  | [] => []
  end.

Definition hex_value (c : ascii) : option N :=
  let n := code c in
  (if (48 <=? n) && (n <=? 57) then Some (n - 48)
   else if (97 <=? n) && (n <=? 102) then Some (n - 87)
   else if (65 <=? n) && (n <=? 70) then Some (n - 55)
   else None)%N.

Definition hex4_value (a b c d : ascii) : option N :=
  match hex_value a, hex_value b, hex_value c, hex_value d with
  | Some x, Some y, Some z, Some w => Some (((x * 16 + y) * 16 + z) * 16 + w)%N
  | _, _, _, _ => None
  end.

(** The character that follows a backslash, but for [u]. *)
Definition unescape (c : ascii) : option ascii :=
  if Ascii.eqb c dquote then Some dquote
  else if Ascii.eqb c "\" then Some "\"%char
  else if Ascii.eqb c "/" then Some "/"%char
  else if Ascii.eqb c "b" then Some "008"%char
  else if Ascii.eqb c "f" then Some "012"%char
  else if Ascii.eqb c "n" then Some lf
  else if Ascii.eqb c "r" then Some cr
  else if Ascii.eqb c "t" then Some "009"%char
  else None.

Definition prepend {A} (a : A) (r : option (list A * list ascii)) : option (list A * list ascii) :=
  match r with
  | Some (s, rest) => Some (a :: s, rest)
  | None => None
  end.

(** [scanstring] in strict mode, after the opening quote: the string and
    the input after the closing quote. *)
Fixpoint scan_string (l : list ascii) : option (list ascii * list ascii) :=
  match l with
  | [] => None
  | c :: t =>
      if Ascii.eqb c dquote then Some ([], t)
      else if Ascii.eqb c "\" then
        match t with
        | [] => None
        | esc :: t1 =>
            if Ascii.eqb esc "u" then
              match t1 with
              | h1 :: h2 :: h3 :: h4 :: t2 =>
                  match hex4_value h1 h2 h3 h4 with
                  | Some n => if (n <? 256)%N then prepend (ascii_of_N n) (scan_string t2)
                              else None
                  | None => None
                  end
              | _ => None
              end
            else
              match unescape esc with
              | Some d => prepend d (scan_string t1)
              | None => None
              end
        end
      else if (code c <? 32)%N then None
      else prepend c (scan_string t)
  end.

Definition is_sign (c : ascii) : bool := Ascii.eqb c "+" || Ascii.eqb c "-".

(** The number at the head of the input: an optional minus sign, then a
    zero or a non-zero digit followed by digits, then optionally a point and
    one digit or more, then optionally an exponent mark, an optional sign
    and one digit or more. It is an int when it has neither fraction nor
    exponent, else what [float] makes of it. *)
Definition scan_number (l : list ascii) : option (obj * list ascii) :=
  let '(sign, l1) :=
    match l with
    | c :: t => if Ascii.eqb c "-" then ([c], t) else ([], l)
    | [] => ([], [])
    end in
  match l1 with
  | c :: t =>
      if is_digit c then
        let '(ip, l2) :=
          if Ascii.eqb c "0" then ([c], t)
          else let '(ds, r) := span is_digit t in (c :: ds, r) in
        let '(fp, l3) :=
          match l2 with
          | d :: t2 =>
              if Ascii.eqb d "." then
                match span is_digit t2 with
                | ([], _) => ([], l2)
                | (ds, r) => (d :: ds, r)
                end
              else ([], l2)
          | [] => ([], [])
          end in
        let '(ep, l4) :=
          match l3 with
          | e :: t3 =>
              if is_exp_mark e then
                let '(sg, t4) :=
                  match t3 with
                  | s :: t' => if is_sign s then ([s], t') else ([], t3)
                  | [] => ([], [])
                  end in
                match span is_digit t4 with
                | ([], _) => ([], l3)
                | (ds, r) => (e :: sg ++ ds, r)
                end
              else ([], l3)
          | [] => ([], [])
          end in
        match fp, ep with
        | [], [] =>
            Some (VInt (match sign with [] => digits_value ip | _ => - digits_value ip end), l4)
        | _, _ =>
            match float_of_str (text (sign ++ ip ++ fp ++ ep)) with
            | Some x => Some (VFloat x, l4)
            | None => None
            end
        end
      else None
  | [] => None
  end.

(** [l] starts with the characters of [word]: the rest of [l]. *)
Fixpoint after (word : list ascii) (l : list ascii) : option (list ascii) :=
  match word, l with
  | [], _ => Some l
  | w :: word', c :: t => if Ascii.eqb w c then after word' t else None
  | _ :: _, [] => None
  end.

(** [d[key] = v] on a dict: the value of an existing key is replaced in place. *)
Fixpoint dict_set (d : list (string * obj)) (key : string) (v : obj) : list (string * obj) :=
  match d with
  | [] => [(key, v)]
  | (k, w) :: t => if String.eqb k key then (k, v) :: t else (k, w) :: dict_set t key v
  end.

(** [dict(pairs)]. *)
Definition dict_of_pairs (pairs : list (string * obj)) : list (string * obj) :=
  fold_left (fun d kv => dict_set d (fst kv) (snd kv)) pairs [].

(** [scan_once], and the loops over the items of an array and of an object;
    [fuel] bounds the number of nested calls. *)
Fixpoint decode_value (fuel : nat) (l : list ascii) {struct fuel} : option (obj * list ascii) :=
  match fuel with
  | O => None
  | S f =>
      match l with
      | [] => None
      | c :: t =>
          if Ascii.eqb c dquote then
            match scan_string t with
            | Some (s, rest) => Some (VStr (text s), rest)
            | None => None
            end
          else if Ascii.eqb c "{" then
            match skip_ws t with
            | c1 :: t1 =>
                if Ascii.eqb c1 "}" then Some (VDict [], t1)
                else match decode_members f (c1 :: t1) with
                     | Some (pairs, rest) => Some (VDict (dict_of_pairs pairs), rest)
                     | None => None
                     end
            | [] => None
            end
          else if Ascii.eqb c "[" then
            match skip_ws t with
            | c1 :: t1 =>
                if Ascii.eqb c1 "]" then Some (VList [], t1)
                else match decode_items f (c1 :: t1) with
                     | Some (items, rest) => Some (VList items, rest)
                     | None => None
                     end
            | [] => None
            end
          else
            match after (chars "null") l, after (chars "true") l, after (chars "false") l with
            | Some rest, _, _ => Some (VNone, rest)
            | _, Some rest, _ => Some (VBool true, rest)
            | _, _, Some rest => Some (VBool false, rest)
            | None, None, None =>
                match scan_number l with
                | Some r => Some r
                | None =>
                    match after (chars "NaN") l, after (chars "Infinity") l,
                          after (chars "-Infinity") l with
                    | Some rest, _, _ => Some (VFloat S754_nan, rest)
                    | _, Some rest, _ => Some (VFloat (S754_infinity false), rest)
                    | _, _, Some rest => Some (VFloat (S754_infinity true), rest)
                    | None, None, None => None
                    end
                end
            end
      end
  end

with decode_items (fuel : nat) (l : list ascii) {struct fuel}
  : option (list obj * list ascii) :=
  match fuel with
  | O => None
  | S f =>
      match decode_value f l with
      | Some (v, rest) =>
          match skip_ws rest with
          | c :: t =>
              if Ascii.eqb c "]" then Some ([v], t)
              else if Ascii.eqb c "," then prepend v (decode_items f (skip_ws t))
              else None
          | [] => None
          end
      | None => None
      end
  end

with decode_members (fuel : nat) (l : list ascii) {struct fuel}
  : option (list (string * obj) * list ascii) :=
  match fuel with
  | O => None
  | S f =>
      match l with
      | c :: t =>
          if Ascii.eqb c dquote then
            match scan_string t with
            | Some (key, rest) =>
                match skip_ws rest with
                | c1 :: t1 =>
                    if Ascii.eqb c1 ":" then
                      match decode_value f (skip_ws t1) with
                      | Some (v, rest1) =>
                          match skip_ws rest1 with
                          | c2 :: t2 =>
                              if Ascii.eqb c2 "}" then Some ([(text key, v)], t2)
                              else if Ascii.eqb c2 ","
                              then prepend (text key, v) (decode_members f (skip_ws t2))
                              else None
                          | [] => None
                          end
                      | None => None
                      end
                    else None
                | [] => None
                end
            | None => None
            end
          else None
      | [] => None
      end
  end.

(** [json.loads(s)]: one value, with white space around it and nothing else. *)
Definition loads (s : string) : option obj :=
  match decode_value (S (String.length s)) (skip_ws (chars s)) with
  | Some (v, rest) => match skip_ws rest with [] => Some v | _ => None end
  | None => None
  end.

End JsonDecoder.

(** ** [docx] *)

Module Docx.
Import Py.

(** The content of a run: text, tabs and line breaks. *)
Inductive inline : Type :=
| Text (s : string)
| Tab
| Break.

Inductive block : Type :=
| Heading (text : string) (level : Z)
| Paragraph (content : list inline).

Definition document : Type := list block.

(** [Document()]. *)
Definition new_document : document := [].

(** [document.add_heading(text, level)]. *)
Definition add_heading (doc : document) (text : string) (level : Z) : document :=
  doc ++ [Heading text level].

Definition tab : string := String "009"%char EmptyString.

(** [piece in "\r\n"] for a str [piece]. *)
Definition in_cr_lf (piece : string) : bool :=
  String.eqb piece EmptyString || String.eqb piece (String cr EmptyString)
  || String.eqb piece nl || String.eqb piece crlf.

(** What [for char in text] goes through: the characters of a str, the
    elements of a list, the keys of a dict. *)
Definition run_pieces (v : obj) : result (list obj) :=
  match v with
  | VStr s => Ok (map (fun c => VStr (String c EmptyString)) (chars s))
  | VList l => Ok l
  | VDict d => Ok (map (fun kv => VStr (fst kv)) d)
  | _ => Raise (TypeError ("'" +:+ type_name v +:+ "' object is not iterable"))
  end.

(** Text stored in the document has no control character besides tab, line
    feed and carriage return. *)
Definition xml_compatible (s : string) : bool :=
  forallb (fun c => (32 <=? code c) || (code c =? 9) || (code c =? 10) || (code c =? 13))%N
          (chars s).

Definition flush (buf : string) : result (list inline) :=
  if String.eqb buf EmptyString then Ok []
  else if xml_compatible buf then Ok [Text buf]
  else Raise (ValueError ("All strings must be XML compatible: Unicode or ASCII, "
                          +:+ "no NULL bytes or control characters")).

(** The run content appender, one piece after the other: a tab and a line
    break end the pending text, and a piece that is no str fails the test
    [char in "\r\n"]. *)
Fixpoint run_content (pieces : list obj) (buf : string) : result (list inline) :=
  match pieces with
  | [] => flush buf
  | VStr p :: t =>
      if String.eqb p tab then
        let* a := flush buf in
        let* b := run_content t EmptyString in Ok (a ++ Tab :: b)
      else if in_cr_lf p then
        let* a := flush buf in
        let* b := run_content t EmptyString in Ok (a ++ Break :: b)
      else run_content t (buf +:+ p)
  | x :: _ =>
      Raise (TypeError ("'in <string>' requires string as left operand, not " +:+ type_name x))
  end.

(** The paragraph that [add_paragraph] makes of its argument: a falsy text
    gives an empty paragraph. *)
Definition new_paragraph (v : obj) : result block :=
  if truthy v then
    let* pieces := run_pieces v in
    let* content := run_content pieces EmptyString in
    Ok (Paragraph content)
  else Ok (Paragraph []).

(** [document.add_paragraph(text)]. *)
Definition add_paragraph (doc : document) (v : obj) : result document :=
  let* p := new_paragraph v in Ok (doc ++ [p]).

End Docx.

(** ** The application *)

Import Py.

(** *** Utility functions *)

(** [safe_time(value)]. The loop over [value.values()] walks the items of
    the dict in insertion order and looks at their values. The recursion is
    that of an interpreter without a recursion limit; [safe_time_in] below
    has the limit. *)
Fixpoint safe_time (value : obj) : result float :=
  match value with
  | VDict d =>
      let from_key : option (result float) :=
        if dict_contains d "value" then
          match (let* v := getitem value "value" in float_of v) with
          | Ok x => Some (Ok x)
          | Raise e => if is_value_or_type_error e then None else Some (Raise e)
          end
        else None in
      match from_key with
      | Some r => r
      | None =>
          (fix loop (items : list (string * obj)) : result float :=
             match items with
             | [] => Ok fzero
             | (_, v) :: rest =>
                 let* num := safe_time v in
                 if isinstance_int_or_float (VFloat num) then Ok num else loop rest
             end) d
      end
  | _ =>
      match float_of value with
      | Ok x => Ok x
      | Raise e => if is_value_or_type_error e then Ok fzero else Raise e
      end
  end.

(** [format_timestamp(seconds, fmt)]. *)
Definition format_timestamp (seconds : obj) (fmt : string) : result string :=
  let* x := safe_time seconds in
  let* seconds := int_of_float x in
  if String.eqb fmt "HH:MM:SS" then
    let* d := Datetime.utcfromtimestamp seconds in Ok (Datetime.strftime_HMS d)
  else if String.eqb fmt "mm:ss" then
    let minutes := seconds / 60 in
    let secs := seconds mod 60 in
    Ok (format_zero_padded 2 minutes +:+ ":" +:+ format_zero_padded 2 secs)
  else
    let* d := Datetime.utcfromtimestamp seconds in Ok (Datetime.strftime_HMS d).

(** [format_srt_timestamp(seconds)]. *)
Definition format_srt_timestamp (seconds : obj) : result string :=
  let* seconds := safe_time seconds in
  let* h := float_floor_div_int seconds 3600 in
  let* hours := int_of_float h in
  let* m1 := float_rem_int seconds 3600 in
  let* m2 := float_floor_div_int m1 60 in
  let* minutes := int_of_float m2 in
  let* s1 := float_rem_int seconds 60 in
  let* secs := int_of_float s1 in
  let* whole := int_of_float seconds in
  let* frac := float_sub_int seconds whole in
  let* scaled := float_mul_int frac 1000 in
  let* msecs := round_float scaled in
  Ok (format_zero_padded 2 hours +:+ ":" +:+ format_zero_padded 2 minutes +:+ ":"
      +:+ format_zero_padded 2 secs +:+ "," +:+ format_zero_padded 3 msecs).

(** *** The main window *)

(** The items of the export format combo box. *)
Inductive export_item : Type := TXT | CSV | JSON | DOCX | SRT.

(** The items of the timestamp format combo box. *)
Inductive timestamp_item : Type := HH_MM_SS | mm_ss.

(** [combo.currentText()]. *)
Definition export_item_text (i : export_item) : string :=
  match i with
  | TXT => "TXT" | CSV => "CSV" | JSON => "JSON" | DOCX => "DOCX" | SRT => "SRT"
  end.

Definition timestamp_item_text (i : timestamp_item) : string :=
  match i with
  | HH_MM_SS => "HH:MM:SS"
  | mm_ss => "mm:ss"
  end.

(** [s.lower()], on the letters A to Z. *)
Definition lower (s : string) : string := text (map to_lower (chars s)).

(** The state of the window that the export reads and writes: the fetched
    transcript ([None] before the first fetch), the three controls, and the
    stored preferences. *)
Record MainWindow : Type := {
  transcript_data : option (list obj);
  export_format_combo : export_item;
  timestamp_checkbox : bool;
  timestamp_format_combo : timestamp_item;
  settings : gmap string string }.

(** A message box shown to the user. *)
Inductive dialog : Type :=
| Warning (title message : string)
| Information (title message : string)
| Critical (title message : string).

(** The content of a file: text, or a saved document. *)
Inductive file : Type :=
| TextFile (content : string)
| DocxFile (doc : Docx.document).

(** The world outside the window: the files by path, the paths that cannot
    be opened for writing, and the message boxes shown so far. *)
Record world : Type := {
  files : gmap string file;
  unwritable : gset string;
  dialogs : list dialog }.

Definition show (d : dialog) (w : world) : world :=
  {| files := files w; unwritable := unwritable w; dialogs := dialogs w ++ [d] |}.

Definition set_files (fs : gmap string file) (w : world) : world :=
  {| files := fs; unwritable := unwritable w; dialogs := dialogs w |}.

(** [with open(path, "w", ...) as f: body]. Opening fails on an unwritable
    path and leaves the files as they are; otherwise the file is created or
    emptied, and on leaving the block, by its end or by an exception, it
    holds what the body wrote. *)
Definition with_open (w : world) (path : string) (body : writer unit)
  : world * result unit :=
  if decide (path ∈ unwritable w) then
    (w, Raise (OSError ("[Errno 13] Permission denied: " +:+ str_repr path)))
  else
    let '(written, r) := body in
    (set_files (<[path := TextFile written]> (files w)) w, r).

(** [document.save(path)]. *)
Definition save_document (w : world) (path : string) (doc : Docx.document)
  : world * result unit :=
  if decide (path ∈ unwritable w) then
    (w, Raise (OSError ("[Errno 13] Permission denied: " +:+ str_repr path)))
  else (set_files (<[path := DocxFile doc]> (files w)) w, Ok tt).

(** [self.save_preferences()]. *)
Definition save_preferences (self : MainWindow) : MainWindow :=
  {| transcript_data := transcript_data self;
     export_format_combo := export_format_combo self;
     timestamp_checkbox := timestamp_checkbox self;
     timestamp_format_combo := timestamp_format_combo self;
     settings :=
       <["timestamp_format" := timestamp_item_text (timestamp_format_combo self)]>
         (<["include_timestamps" := if timestamp_checkbox self then "true" else "false"]>
            (<["default_export_format" := export_item_text (export_format_combo self)]>
               (settings self))) |}.

(** The body of the loop of the text export. *)
Definition txt_entry (include_ts : bool) (ts_format : string) (entry : obj) : writer unit :=
  if include_ts then
    do* ts := eval (let* start := getitem entry "start" in format_timestamp start ts_format) in
    do* t := eval (getitem entry "text") in
    write ("[" +:+ ts +:+ "] " +:+ str t +:+ nl)
  else
    do* t := eval (getitem entry "text") in
    write (str t +:+ nl).

(** The body of the loop of the CSV export. *)
Definition csv_entry (include_ts : bool) (ts_format : string) (entry : obj) : writer unit :=
  do* ts := eval (if include_ts
                  then let* start := getitem entry "start" in format_timestamp start ts_format
                  else Ok EmptyString) in
  do* t := eval (getitem entry "text") in
  do* d := eval (getitem entry "duration") in
  write (Csv.writerow [VStr ts; t; d]).

(** The body of the loop of the document export. *)
Definition docx_entry (include_ts : bool) (ts_format : string)
    (document : Docx.document) (entry : obj) : result Docx.document :=
  let* paragraph_text :=
    if include_ts then
      let* start := getitem entry "start" in
      let* ts := format_timestamp start ts_format in
      let* t := getitem entry "text" in
      Ok (VStr ("[" +:+ ts +:+ "] " +:+ str t))
    else getitem entry "text" in
  Docx.add_paragraph document paragraph_text.

(** The loop of the document export. *)
Definition docx_loop (include_ts : bool) (ts_format : string) (data : list obj)
    (document : Docx.document) : result Docx.document :=
  fold_left (fun acc entry =>
               let* document := acc in docx_entry include_ts ts_format document entry)
            data (Ok document).

(** The body of the loop of the subtitle export. *)
Definition srt_entry (i : Z) (entry : obj) : writer unit :=
  do* start_val := eval (let* start := getitem entry "start" in safe_time start) in
  do* duration_val := eval (let* duration := getitem entry "duration" in safe_time duration) in
  do* start_srt := eval (format_srt_timestamp (VFloat start_val)) in
  let end_time := fadd start_val duration_val in
  do* end_srt := eval (format_srt_timestamp (VFloat end_time)) in
  do* _ := write (str_of_Z i +:+ nl) in
  do* _ := write (start_srt +:+ " --> " +:+ end_srt +:+ nl) in
  do* t := eval (getitem entry "text") in
  write (str t +:+ nl +:+ nl).

(** The [try] block of [export_transcript], up to the message box. *)
Definition export_body (export_format file_path : string) (include_ts : bool)
    (ts_format : string) (data : list obj) (w : world) : world * result unit :=
  if String.eqb export_format "txt" then
    with_open w file_path (for_each data (txt_entry include_ts ts_format))
  else if String.eqb export_format "csv" then
    with_open w file_path
      (do* _ := write (Csv.writerow [VStr "Start Time"; VStr "Text"; VStr "Duration"]) in
       for_each data (csv_entry include_ts ts_format))
  else if String.eqb export_format "json" then
    with_open w file_path (Json.dump (VList data) 4)
  else if String.eqb export_format "docx" then
    let document := Docx.add_heading Docx.new_document "Transcript" 1 in
    match docx_loop include_ts ts_format data document with
    | Ok document => save_document w file_path document
    | Raise e => (w, Raise e)
    end
  else if String.eqb export_format "srt" then
    with_open w file_path (for_enumerate 1 data srt_entry)
  else (w, Ok tt).

(** [MainWindow.export_transcript], with the path that the save dialog
    returned (empty when the user cancelled it). *)
Definition export_transcript (self : MainWindow) (file_path : string) (w : world)
  : MainWindow * world :=
  match transcript_data self with
  | None | Some [] =>
      (self, show (Warning "No Transcript"
                     "No transcript to export. Please fetch a transcript first.") w)
  | Some data =>
      let export_format := lower (export_item_text (export_format_combo self)) in
      if String.eqb file_path EmptyString then (self, w)
      else
        let include_ts := timestamp_checkbox self in
        let ts_format := timestamp_item_text (timestamp_format_combo self) in
        let '(w1, r) := export_body export_format file_path include_ts ts_format data w in
        let w2 :=
          match r with
          | Ok _ =>
              show (Information "Export Successful"
                      ("Transcript exported successfully to " +:+ file_path)) w1
          | Raise e =>
              show (Critical "Export Error"
                      ("Error exporting transcript:" +:+ nl +:+ exn_str e)) w1
          end in
        (save_preferences self, w2)
  end.

(** ** Vocabulary of the statements *)

(** The values on which [safe_time] meets no number it cannot hold: every
    int converts to a float, every float is finite, and every string that
    reads as a number reads as a finite one. Lists are not searched by
    [safe_time], so their elements do not matter. *)
Fixpoint finite_leaves (v : obj) : bool :=
  match v with
  | VInt z => match float_of_int z with Ok _ => true | Raise _ => false end
  | VFloat x => is_finite x
  | VStr s => match float_of_str s with Some x => is_finite x | None => true end
  | VDict d => forallb (fun kv => finite_leaves (snd kv)) d
  | _ => true
  end.

(** The decimal digit [d], for [0 <= d <= 9]. *)
Definition digit_char (d : Z) : ascii := ascii_of_N (48 + Z.to_N d).

(** The two decimal digits of [k], for [0 <= k < 100]. *)
Definition two_digits (k : Z) : string :=
  String (digit_char (k / 10)) (String (digit_char (k mod 10)) EmptyString).

(** The concatenation of a list of strings. *)
Definition concat_all (l : list string) : string := fold_right String.append EmptyString l.

(** The renderings of the segments of a transcript, each with the index
    that [enumerate] gives it, when every one of them renders. *)
Fixpoint render_all {A} (render : Z -> obj -> result A) (start : Z) (l : list obj)
  : result (list A) :=
  match l with
  | [] => Ok []
  | e :: t =>
      let* p := render start e in
      let* ps := render_all render (start + 1) t in
      Ok (p :: ps)
  end.

(** The display policy applied to the start of a segment: [None] when
    timestamps are not included. *)
Definition displayed_start (include_ts : bool) (ts_format : string) (entry : obj)
  : result (option string) :=
  if include_ts then
    let* start := getitem entry "start" in
    let* ts := format_timestamp start ts_format in Ok (Some ts)
  else Ok None.

(** A line of the text format, and the text of a paragraph of the document
    format with timestamps. *)
Definition text_line (include_ts : bool) (ts_format : string) (entry : obj) : result string :=
  let* ts := displayed_start include_ts ts_format entry in
  let* t := getitem entry "text" in
  match ts with
  | Some ts => Ok ("[" +:+ ts +:+ "] " +:+ str t +:+ nl)
  | None => Ok (str t +:+ nl)
  end.

(** A row of the CSV format: the displayed start or nothing, the text, and
    the duration as the record has it. *)
Definition csv_row (include_ts : bool) (ts_format : string) (entry : obj) : result string :=
  let* ts := displayed_start include_ts ts_format entry in
  let* t := getitem entry "text" in
  let* d := getitem entry "duration" in
  Ok (Csv.quote_field (default EmptyString ts) +:+ ","
      +:+ Csv.quote_field (Csv.field_text t) +:+ ","
      +:+ Csv.quote_field (Csv.field_text d) +:+ crlf).

(** A paragraph of the document format. *)
Definition document_paragraph (include_ts : bool) (ts_format : string) (entry : obj)
  : result Docx.block :=
  let* ts := displayed_start include_ts ts_format entry in
  let* t := getitem entry "text" in
  Docx.new_paragraph (match ts with
                      | Some ts => VStr ("[" +:+ ts +:+ "] " +:+ str t)
                      | None => t
                      end).

(** A block of the subtitle format: the index, the time range from the
    extracted start to the extracted start plus the extracted duration, both
    in subtitle style, the text and a blank line. *)
Definition subtitle_block (i : Z) (entry : obj) : result string :=
  let* start := getitem entry "start" in
  let* duration := getitem entry "duration" in
  let* t := getitem entry "text" in
  let* start_val := safe_time start in
  let* duration_val := safe_time duration in
  let* start_srt := format_srt_timestamp (VFloat start_val) in
  let* end_srt := format_srt_timestamp (VFloat (fadd start_val duration_val)) in
  Ok (str_of_Z i +:+ nl +:+ start_srt +:+ " --> " +:+ end_srt +:+ nl
      +:+ str t +:+ nl +:+ nl).

(** What a format renders for one segment: a piece of text, or a block of a
    document. *)
Inductive piece : Type :=
| Chunk (s : string)
| Block (b : Docx.block).

Definition segment_piece (format : export_item) (include_ts : bool) (ts_format : string)
    (i : Z) (entry : obj) : result piece :=
  match format with
  | TXT => let* s := text_line include_ts ts_format entry in Ok (Chunk s)
  | CSV => let* s := csv_row include_ts ts_format entry in Ok (Chunk s)
  | JSON => Ok (Chunk (Json.encode 4 1 entry))
  | DOCX => let* b := document_paragraph include_ts ts_format entry in Ok (Block b)
  | SRT => let* s := subtitle_block i entry in Ok (Chunk s)
  end.

Definition chunks (l : list piece) : list string :=
  flat_map (fun p => match p with Chunk s => [s] | Block _ => [] end) l.

Definition blocks (l : list piece) : list Docx.block :=
  flat_map (fun p => match p with Block b => [b] | Chunk _ => [] end) l.

(** The file that a format makes of the pieces, in the order of the list. *)
Definition assemble (format : export_item) (pieces : list piece) : file :=
  match format with
  | TXT | SRT => TextFile (concat_all (chunks pieces))
  | CSV => TextFile ("Start Time,Text,Duration" +:+ crlf +:+ concat_all (chunks pieces))
  | JSON =>
      TextFile ("[" +:+ Json.newline_indent 4 1
                +:+ join ("," +:+ Json.newline_indent 4 1) (chunks pieces)
                +:+ nl +:+ "]")
  | DOCX => DocxFile (Docx.Heading "Transcript" 1 :: blocks pieces)
  end.

(** A world with no file and no message box, and a window with no stored
    preferences, for the examples. *)
Definition empty_world : world := {| files := ∅; unwritable := ∅; dialogs := [] |}.

Definition window (data : option (list obj)) (format : export_item)
    (include_ts : bool) (style : timestamp_item) : MainWindow :=
  {| transcript_data := data;
     export_format_combo := format;
     timestamp_checkbox := include_ts;
     timestamp_format_combo := style;
     settings := ∅ |}.

(** The message boxes of the export. *)
Definition export_successful (file_path : string) : dialog :=
  Information "Export Successful" ("Transcript exported successfully to " +:+ file_path).

Definition export_error (e : exn) : dialog :=
  Critical "Export Error" ("Error exporting transcript:" +:+ nl +:+ exn_str e).

Definition no_transcript : dialog :=
  Warning "No Transcript" "No transcript to export. Please fetch a transcript first.".

(** The transcript of the end-to-end scenario:
    [[{"start": 5, "duration": 2.5, "text": "Hello"},
      {"start": 10, "duration": 1, "text": "World"}]]. *)
Definition example_transcript : list obj :=
  [VDict [("start", VInt 5); ("duration", VFloat (float_of_decimal false 25 (-1)));
          ("text", VStr "Hello")];
   VDict [("start", VInt 10); ("duration", VInt 1); ("text", VStr "World")]].

(** A transcript whose only segment wraps its duration in a mapping:
    [[{"start": 5, "duration": {"value": 2.5}, "text": "Hello"}]]. *)
Definition nested_duration_transcript : list obj :=
  [VDict [("start", VInt 5);
          ("duration", VDict [("value", VFloat (float_of_decimal false 25 (-1)))]);
          ("text", VStr "Hello")]].

(** A transcript whose second segment has no duration:
    [[{"start": 5, "duration": 2.5, "text": "Hello"}, {"start": 10, "text": "World"}]]. *)
Definition broken_transcript : list obj :=
  [VDict [("start", VInt 5); ("duration", VFloat (float_of_decimal false 25 (-1)));
          ("text", VStr "Hello")];
   VDict [("start", VInt 10); ("text", VStr "World")]].

(** A world in which an earlier export is stored under the given path. *)
Definition world_with (path : string) (f : file) : world :=
  {| files := {[path := f]}; unwritable := ∅; dialogs := [] |}.

(** A loop body renders what [render] says: it writes the rendering of the
    entry and goes on, or it raises where [render] raises. *)
Definition renders (body : Z -> obj -> writer unit) (render : Z -> obj -> result piece) : Prop :=
  forall i e,
    match render i e with
    | Ok (Chunk s) => body i e = (s, Ok tt)
    | Ok (Block _) => False
    | Raise _ => exists s err, body i e = (s, Raise err)
    end.

(** A rest of input that cannot continue a number. *)
Definition number_stops (rest : list ascii) : bool :=
  match rest with
  | [] => true
  | c :: _ => negb (is_digit c || Ascii.eqb c "." || is_exp_mark c || JsonDecoder.is_sign c)
  end.

(** The float is written by the encoder as a number that the decoder reads
    back as the same float. *)
Definition float_reads_back (x : float) : bool :=
  match x with
  | S754_nan | S754_infinity _ => true
  | _ =>
      match JsonDecoder.scan_number (chars (Json.encode_float x)) with
      | Some (VFloat y, []) => float_eqb x y
      | _ => false
      end
  end.

Fixpoint distinct (l : list string) : bool :=
  match l with
  | [] => true
  | k :: t => negb (existsb (String.eqb k) t) && distinct t
  end.

(** The objects that a decoded JSON text can be equal to: every float reads
    back, and no dict has the same key twice. *)
Fixpoint jsonable (v : obj) : bool :=
  match v with
  | VFloat x => float_reads_back x
  | VList l => forallb jsonable l
  | VDict d => distinct (map fst d) && forallb (fun kv => jsonable (snd kv)) d
  | _ => true
  end.

(** The number of nested calls that decoding the encoding of [v] takes. *)
Fixpoint weight (v : obj) : nat :=
  match v with
  | VList l => S (list_sum (map (fun x => S (weight x)) l))
  | VDict d => S (list_sum (map (fun kv => S (weight (snd kv))) d))
  | _ => 1
  end.

(** The round trip of one value: the decoder, given fuel for the nested
    calls, reads the encoding of [v] at any nesting depth back as [v] and
    stops at what follows, when that cannot continue a number. *)
Definition reads_back_as_encoded (v : obj) : Prop :=
  jsonable v = true ->
  forall level fuel rest,
    (weight v <= fuel)%nat ->
    number_stops rest = true ->
    JsonDecoder.decode_value fuel (chars (Json.encode 4 level v) ++ rest) = Some (v, rest).

(** ** Searching and splitting strings *)

Module PyStr.
Import Py.

(** [s.startswith(prefix)], on the characters. *)
Fixpoint starts_with (prefix s : list ascii) : bool :=
  match prefix, s with
  | [], _ => true
  | _ :: _, [] => false
  | a :: p, c :: t => Ascii.eqb a c && starts_with p t
  end.

Fixpoint occurs (sub s : list ascii) : bool :=
  match s with
  | [] => starts_with sub []
  | _ :: t => starts_with sub s || occurs sub t
  end.

(** [sub in s]. *)
Definition contains (sub s : string) : bool := occurs (chars sub) (chars s).

(** The pieces of [s] between the occurrences of a non-empty [sep], which
    are found from the left and do not overlap. [skip] counts the characters
    of the occurrence at hand that are still to pass, and [cur] is the piece
    read so far. *)
Fixpoint split_from (sep : list ascii) (skip : nat) (cur s : list ascii)
  : list (list ascii) :=
  match s with
  | [] => [cur]
  | c :: t =>
      match skip with
      | S k => split_from sep k cur t
      | O =>
          if starts_with sep s then cur :: split_from sep (length sep - 1) [] t
          else split_from sep 0 (cur ++ [c]) t
      end
  end.

(** [s.split(sep)] for a non-empty [sep]. *)
Definition split (s sep : string) : list string :=
  map text (split_from (chars sep) 0 [] (chars s)).

(** The outcome of indexing a list. *)
Inductive indexed (A : Type) : Type :=
| Item (a : A)
| IndexError.
Arguments Item {A} a.
Arguments IndexError {A}.

(** [l[i]]: a negative index counts from the end. *)
Definition getindex {A} (l : list A) (i : Z) : indexed A :=
  let j := if i <? 0 then i + Z.of_nat (length l) else i in
  if j <? 0 then IndexError
  else match l !! Z.to_nat j with
       | Some a => Item a
       | None => IndexError
       end.

(** The code points below 256 for which [str.isspace] holds. *)
Definition isspace (c : ascii) : bool :=
  (((9 <=? code c) && (code c <=? 13)) || ((28 <=? code c) && (code c <=? 32))
   || (code c =? 133) || (code c =? 160))%N.

Fixpoint lstrip (l : list ascii) : list ascii :=
  match l with
  | c :: t => if isspace c then lstrip t else l
  | [] => []
  end.

(** [s.strip()]. *)
Definition strip (s : string) : string :=
  text (rev (lstrip (rev (lstrip (chars s))))).

End PyStr.

(** ** The rest of the program *)

(** [extract_video_id(url)]: [Item None] is the return of [None]. *)
Definition extract_video_id (url : string) : PyStr.indexed (option string) :=
  if PyStr.contains "youtube.com" url then
    let parts := PyStr.split url "v=" in
    if 1 <? Z.of_nat (length parts) then
      match PyStr.getindex parts 1 with
      | PyStr.Item part =>
          match PyStr.getindex (PyStr.split part "&") 0 with
          | PyStr.Item id => PyStr.Item (Some id)
          | PyStr.IndexError => PyStr.IndexError
          end
      | PyStr.IndexError => PyStr.IndexError
      end
    else PyStr.Item None
  else if PyStr.contains "youtu.be" url then
    let parts := PyStr.split url "/" in
    if negb (Nat.eqb (length parts) 0) then
      match PyStr.getindex parts (-1) with
      | PyStr.Item id => PyStr.Item (Some id)
      | PyStr.IndexError => PyStr.IndexError
      end
    else PyStr.Item None
  else PyStr.Item None.

(** The text widgets of the window, which the export does not use. *)
Record widgets : Type := {
  url_input : string;
  transcript_display : string }.

Definition set_display (text : string) (ui : widgets) : widgets :=
  {| url_input := url_input ui; transcript_display := text |}.

(** The body of the loop of [update_transcript_display]. *)
Definition display_entry (include_ts : bool) (ts_format : string)
    (display_text : string) (entry : obj) : result string :=
  if include_ts then
    let* start := getitem entry "start" in
    let* ts := format_timestamp start ts_format in
    let* t := getitem entry "text" in
    Ok (display_text +:+ ("[" +:+ ts +:+ "] " +:+ str t +:+ nl))
  else
    let* t := getitem entry "text" in
    Ok (display_text +:+ (str t +:+ nl)).

(** [MainWindow.update_transcript_display]. *)
Definition update_transcript_display (self : MainWindow) (ui : widgets) : result widgets :=
  match transcript_data self with
  | None | Some [] => Ok ui
  | Some data =>
      let include_ts := timestamp_checkbox self in
      let ts_format := timestamp_item_text (timestamp_format_combo self) in
      let* display_text :=
        fold_left (fun acc entry =>
                     let* display_text := acc in
                     display_entry include_ts ts_format display_text entry)
                  data (Ok EmptyString) in
      Ok (set_display display_text ui)
  end.

(** [QSettings.value(key, default)] for the stored strings. *)
Definition settings_value (stored : gmap string string) (key default_value : string) : string :=
  default default_value (stored !! key).

(** [combo.findText(text)]: the index of the first item with this text, or -1. *)
Fixpoint findText {A} (item_text : A -> string) (items : list A) (t : string) : Z :=
  match items with
  | [] => -1
  | a :: rest =>
      if String.eqb (item_text a) t then 0
      else let i := findText item_text rest t in if i <? 0 then -1 else i + 1
  end.

(** The item that is current after [addItems(items)] on an empty combo box
    followed by [index = findText(text)] and, if [index >= 0],
    [setCurrentIndex(index)]: the first item stays current otherwise. *)
Definition select_item {A} (item_text : A -> string) (first : A) (others : list A)
    (t : string) : A :=
  let index := findText item_text (first :: others) t in
  if index >=? 0 then nth (Z.to_nat index) (first :: others) first else first.

(** [MainWindow.__init__] with [init_ui], as far as the state of the window
    goes: the controls are set from the stored preferences. *)
Definition init_window (stored : gmap string string) : MainWindow :=
  let default_export_format := settings_value stored "default_export_format" "TXT" in
  let include_timestamps :=
    String.eqb (settings_value stored "include_timestamps" "true") "true" in
  let timestamp_format := settings_value stored "timestamp_format" "HH:MM:SS" in
  {| transcript_data := None;
     export_format_combo :=
       select_item export_item_text TXT [CSV; JSON; DOCX; SRT] default_export_format;
     timestamp_checkbox := include_timestamps;
     timestamp_format_combo := select_item timestamp_item_text HH_MM_SS [mm_ss] timestamp_format;
     settings := stored |}.

(** [MainWindow.closeEvent]: the preferences are saved and the event is
    accepted. *)
Definition closeEvent (self : MainWindow) : MainWindow := save_preferences self.

(** The transcript service. What a call gives is a value or an exception:
    one of the two that [fetch_transcript] reports as an unavailable
    transcript, or another one, of which the message counts. *)
Inductive api_exn : Type :=
| TranscriptsDisabled
| NoTranscriptFound
| OtherException (message : string).

Inductive api_result (A : Type) : Type :=
| Returned (a : A)
| Raised (e : api_exn).
Arguments Returned {A} a.
Arguments Raised {A} e.

(** The calls of [fetch_transcript] to the service:
    [YouTubeTranscriptApi.list_transcripts(video_id)],
    [transcript_list.find_transcript(codes)],
    [transcript_list._generated_transcripts[0].language_code] and
    [transcript_obj.fetch()]. *)
Record Api : Type := {
  transcript_list : Type;
  transcript : Type;
  list_transcripts : string -> api_result transcript_list;
  find_transcript : transcript_list -> list string -> api_result transcript;
  first_generated_language_code : transcript_list -> api_result string;
  fetch : transcript -> api_result (list obj) }.

Definition set_transcript_data (data : list obj) (self : MainWindow) : MainWindow :=
  {| transcript_data := Some data;
     export_format_combo := export_format_combo self;
     timestamp_checkbox := timestamp_checkbox self;
     timestamp_format_combo := timestamp_format_combo self;
     settings := settings self |}.

(** The first statements of the [try] block of [fetch_transcript]: the
    transcript object, English if there is one and the first generated one
    otherwise, and its entries. *)
Definition fetch_entries (api : Api) (video_id : string) : api_result (list obj) :=
  match list_transcripts api video_id with
  | Raised e => Raised e
  | Returned tl =>
      let transcript_obj :=
        match find_transcript api tl ["en"] with
        | Returned t => Returned t
        | Raised _ =>
            match first_generated_language_code api tl with
            | Returned language_code => find_transcript api tl [language_code]
            | Raised e => Raised e
            end
        end in
      match transcript_obj with
      | Returned t => fetch api t
      | Raised e => Raised e
      end
  end.

(** [MainWindow.fetch_transcript]. *)
Definition fetch_transcript (api : Api) (self : MainWindow) (ui : widgets) (w : world)
  : PyStr.indexed (MainWindow * widgets * world) :=
  let ui := set_display EmptyString ui in
  let url := PyStr.strip (url_input ui) in
  if String.eqb url EmptyString then
    PyStr.Item (self, ui, show (Warning "Input Error" "Please enter a valid YouTube URL.") w)
  else
    match extract_video_id url with
    | PyStr.IndexError => PyStr.IndexError
    | PyStr.Item video_id =>
        match video_id with
        | None | Some EmptyString =>
            PyStr.Item (self, ui,
                        show (Warning "URL Error" "Could not extract video ID from URL.") w)
        | Some video_id =>
            match fetch_entries api video_id with
            | Returned data =>
                let self := set_transcript_data data self in
                match update_transcript_display self ui with
                | Ok ui => PyStr.Item (self, ui, w)
                | Raise e =>
                    PyStr.Item (self, ui,
                                show (Critical "Error"
                                        ("Error fetching transcript:" +:+ nl +:+ exn_str e)) w)
                end
            | Raised (OtherException message) =>
                PyStr.Item (self, ui,
                            show (Critical "Error"
                                    ("Error fetching transcript:" +:+ nl +:+ message)) w)
            | Raised _ =>
                PyStr.Item (self, ui,
                            show (Information "Transcript Unavailable"
                                    "Transcript not available for this video.") w)
            end
        end
    end.

(** The character [c] does not occur in [s]. *)
Definition free_of (c : ascii) (s : string) : bool :=
  negb (existsb (Ascii.eqb c) (chars s)).

(** The controls of two windows show the same. *)
Definition same_controls (a b : MainWindow) : Prop :=
  export_format_combo a = export_format_combo b
  /\ timestamp_checkbox a = timestamp_checkbox b
  /\ timestamp_format_combo a = timestamp_format_combo b.

(** A transcript service that has an English transcript with the given
    entries for every video, for the examples. *)
Definition service_with (data : list obj) : Api :=
  {| transcript_list := unit;
     transcript := unit;
     list_transcripts := fun _ => Returned tt;
     find_transcript := fun _ _ => Returned tt;
     first_generated_language_code := fun _ => Returned "en";
     fetch := fun _ => Returned data |}.

(** The message boxes of [fetch_transcript]. *)
Definition input_error : dialog :=
  Warning "Input Error" "Please enter a valid YouTube URL.".

Definition url_error : dialog :=
  Warning "URL Error" "Could not extract video ID from URL.".

Definition fetch_error (message : string) : dialog :=
  Critical "Error" ("Error fetching transcript:" +:+ nl +:+ message).

(** ** The limits of the interpreter *)

(** [safe_time(value)] with the recursion limit: [frames] is the number of
    nested calls that the limit still allows when the call is made, which is
    the limit less the calls under way. *)
Fixpoint safe_time_in (frames : nat) (value : obj) : result float :=
  match frames with
  | O => Raise (RecursionError "maximum recursion depth exceeded while calling a Python object")
  | S frames =>
      match value with
      | VDict d =>
          let from_key : option (result float) :=
            if dict_contains d "value" then
              match (let* v := getitem value "value" in float_of v) with
              | Ok x => Some (Ok x)
              | Raise e => if is_value_or_type_error e then None else Some (Raise e)
              end
            else None in
          match from_key with
          | Some r => r
          | None =>
              (fix loop (items : list (string * obj)) : result float :=
                 match items with
                 | [] => Ok fzero
                 | (_, v) :: rest =>
                     let* num := safe_time_in frames v in
                     if isinstance_int_or_float (VFloat num) then Ok num else loop rest
                 end) d
          end
      | _ =>
          match float_of value with
          | Ok x => Ok x
          | Raise e => if is_value_or_type_error e then Ok fzero else Raise e
          end
      end
  end.

(** The depth to which the mappings of a value nest. *)
Fixpoint nesting (v : obj) : nat :=
  match v with
  | VDict d => S (list_max (map (fun kv => nesting (snd kv)) d))
  | _ => 0
  end.

(** [leaf] under [n] mappings of one key each. *)
Definition nested (n : nat) (leaf : obj) : obj :=
  Nat.iter n (fun v => VDict [("a", v)]) leaf.

(** The depth to which the lists and mappings of a value nest. *)
Fixpoint depth (v : obj) : nat :=
  match v with
  | VList l => S (list_max (map depth l))
  | VDict d => S (list_max (map (fun kv => depth (snd kv)) d))
  | _ => 0
  end.

(** Every int of the value has at most 4300 digits. *)
Fixpoint ints_within (v : obj) : bool :=
  match v with
  | VInt z => Z.abs z <? 10 ^ 4300
  | VList l => forallb ints_within l
  | VDict d => forallb (fun kv => ints_within (snd kv)) d
  | _ => true
  end.

(** The values that stay clear of the limits of the interpreter: their ints
    can be written, and they nest to a depth of at most 500, half of the
    default recursion limit. *)
Definition within_limits (v : obj) : bool :=
  ints_within v && (depth v <=? 500)%nat.

(** The permission error of a destination that cannot be opened. *)
Definition permission_denied (path : string) : exn :=
  OSError ("[Errno 13] Permission denied: " +:+ str_repr path).

(** What the loop of a format does for one segment: the text that it
    writes, and whether it goes on or raises. The document format writes no
    text in its loop, and the JSON format has no loop. *)
Definition segment_step (format : export_item) (include_ts : bool) (ts_format : string)
    (i : Z) (entry : obj) : writer unit :=
  match format with
  | TXT => txt_entry include_ts ts_format entry
  | CSV => csv_entry include_ts ts_format entry
  | SRT => srt_entry i entry
  | DOCX => eval (let* _ := docx_entry include_ts ts_format Docx.new_document entry in Ok tt)
  | JSON => wret tt
  end.

(** What a failed export leaves under its destination: the renderings of
    the segments before the failing one and what the loop wrote for the
    failing one, after the header if the format has one; nothing for the
    document format, which saves at the end. *)
Definition unfinished (format : export_item) (pieces : list piece) (written : string)
  : option file :=
  match format with
  | TXT | SRT => Some (TextFile (concat_all (chunks pieces) +:+ written))
  | CSV =>
      Some (TextFile ("Start Time,Text,Duration" +:+ crlf
                      +:+ concat_all (chunks pieces) +:+ written))
  | JSON | DOCX => None
  end.

(** The world after a failed export. *)
Definition failed_export (e : exn) (file_path : string) (left_behind : option file)
    (w : world) : world :=
  show (export_error e)
    (match left_behind with
     | Some f => set_files (<[file_path := f]> (files w)) w
     | None => w
     end).

(** * Properties *)

(** One step through the body of an export loop. *)
Ltac step_entry :=
  cbn [bind eval wbind write default];
  try solve [reflexivity | eauto].

(** ** Rounding never yields a NaN *)

Lemma shr_1_nonneg mrs : 0 <= shr_m mrs -> 0 <= shr_m (shr_1 mrs).
Proof.
  destruct mrs as [m r s]; simpl; intros H.
  destruct m as [|p|p]; simpl; try lia; destruct p; simpl; lia.
Qed.

Lemma iter_shr_1_nonneg p :
  forall mrs, 0 <= shr_m mrs -> 0 <= shr_m (SpecFloat.iter_pos shr_1 p mrs).
Proof.
  induction p; intros mrs H; simpl; auto using shr_1_nonneg.
Qed.

Lemma shr_nonneg mrs e n : 0 <= shr_m mrs -> 0 <= shr_m (fst (shr mrs e n)).
Proof.
  intros H; destruct n; simpl; auto using iter_shr_1_nonneg.
Qed.

Lemma shr_fexp_nonneg m e l : 0 <= m -> 0 <= shr_m (fst (shr_fexp prec emax m e l)).
Proof.
  intros H; unfold shr_fexp; apply shr_nonneg.
  destruct l as [|[]]; simpl; lia.
Qed.

Lemma round_nearest_even_nonneg m l : 0 <= m -> 0 <= round_nearest_even m l.
Proof.
  intros H; destruct l as [|[]]; simpl; try lia.
  destruct (Z.even m); lia.
Qed.

Lemma binary_round_aux_not_nan s m e l :
  0 <= m -> is_nan (binary_round_aux prec emax s m e l) = false.
Proof.
  intros H; unfold binary_round_aux.
  pose proof (shr_fexp_nonneg m e l H) as H1.
  destruct (shr_fexp prec emax m e l) as [mrs' e']; simpl in H1.
  pose proof (round_nearest_even_nonneg (shr_m mrs') (loc_of_shr_record mrs') H1) as H2.
  pose proof (shr_fexp_nonneg _ e' loc_Exact H2) as H3.
  destruct (shr_fexp prec emax _ e' loc_Exact) as [mrs'' e'']; simpl in H3.
  destruct (shr_m mrs'') as [|p|p]; try reflexivity; try lia.
  destruct (e'' <=? emax - prec); reflexivity.
Qed.

Lemma binary_normalize_not_nan z : is_nan (binary_normalize prec emax z 0 false) = false.
Proof.
  destruct z as [|p|p]; simpl; try reflexivity;
    unfold binary_round;
    destruct (shl_align p 0 _) as [mz ez];
    apply binary_round_aux_not_nan; lia.
Qed.

Lemma finite_iff x : is_finite x = negb (is_nan x || is_inf x).
Proof. destruct x; reflexivity. Qed.

Lemma float_of_int_finite z x : float_of_int z = Ok x -> is_finite x = true.
Proof.
  unfold float_of_int; intros H.
  pose proof (binary_normalize_not_nan z) as Hn.
  destruct (is_inf (binary_normalize prec emax z 0 false)) eqn:Hi; [discriminate|].
  injection H as <-. rewrite finite_iff, Hn, Hi. reflexivity.
Qed.

(** ** [safe_time] *)

(** What [float] does on a value with finite leaves: a finite float, or one
    of the two exceptions that [safe_time] catches. *)
Lemma float_of_finite_leaves v :
  finite_leaves v = true ->
  (exists x, float_of v = Ok x /\ is_finite x = true)
  \/ (exists e, float_of v = Raise e /\ is_value_or_type_error e = true).
Proof.
  destruct v; simpl; intros H; eauto.
  - left. destruct (float_of_int (if b then 1 else 0)) eqn:E.
    + eauto using float_of_int_finite.
    + destruct b; vm_compute in E; discriminate.
  - destruct (float_of_int z) eqn:E; [|discriminate]. eauto using float_of_int_finite.
  - destruct (float_of_str s); eauto.
Qed.

Lemma dict_get_In d key v : dict_get d key = Some v -> In (key, v) d.
Proof.
  induction d as [|[k w] t IH]; simpl; [discriminate|].
  destruct (String.eqb_spec k key) as [->|]; intros H.
  - injection H as ->. now left.
  - right; auto.
Qed.

(** One unfolding of [safe_time] on a dict: when the key "value" gives no
    number, the result is that of the first value of the dict, whatever the
    other values are. *)
Lemma safe_time_dict d :
  safe_time (VDict d) =
  match (if dict_contains d "value" then
           match (let* v := getitem (VDict d) "value" in float_of v) with
           | Ok x => Some (Ok x)
           | Raise e => if is_value_or_type_error e then None else Some (Raise e)
           end
         else None) with
  | Some r => r
  | None =>
      match d with
      | [] => Ok fzero
      | (_, v) :: _ => safe_time v
      end
  end.
Proof.
  destruct d as [|[k v] t]; [reflexivity|].
  cbn [safe_time].
  destruct (if dict_contains _ _ then _ else _); [reflexivity|].
  destruct (safe_time v); reflexivity.
Qed.

(** C1: on a mapping without a usable "value" key the loop of [safe_time]
    returns at its first value even when that value holds no number: for
    [{"a": "x", "b": 5}] the result is [0.0], although the second value
    extracts to [5.0]. *)
Theorem safe_time_stops_at_first_value :
  safe_time (VDict [("a", VStr "x"); ("b", VInt 5)]) = Ok fzero
  /\ safe_time (VInt 5) = Ok (S754_finite false 5629499534213120 (-50))
  /\ float_of_str "5.0" = Some (S754_finite false 5629499534213120 (-50)).
Proof. repeat split; vm_compute; reflexivity. Qed.

(** C2 (as stated, refuted): an int too large for a float makes [safe_time]
    raise [OverflowError], a numeric string beyond the float range is
    extracted as an infinity, and mappings nested as deep as the calls that
    the recursion limit allows make it raise [RecursionError]. *)
Lemma safe_time_overflow_and_infinity :
  safe_time (VInt (10 ^ 400)) = Raise (OverflowError "int too large to convert to float")
  /\ safe_time (VStr "1e999") = Ok (S754_infinity false)
  /\ is_finite (S754_infinity false) = false
  /\ safe_time_in 999 (nested 999 (VInt 5))
     = Raise (RecursionError "maximum recursion depth exceeded while calling a Python object").
Proof. repeat split; vm_compute; reflexivity. Qed.

(** Without the recursion limit, [safe_time] returns a finite float on
    every value with finite leaves. *)
Lemma safe_time_returns_finite v :
  finite_leaves v = true -> exists x, safe_time v = Ok x /\ is_finite x = true.
Proof.
  induction v as [| | | | | l _ | d IH] using obj_ind; intros H.
  1-6: destruct (float_of_finite_leaves _ H) as [(y & E & F)|(e & E & F)];
         cbn [safe_time]; rewrite E; [|rewrite F]; eauto.
  rewrite safe_time_dict. cbn [finite_leaves] in H.
  rewrite forallb_forall in H. rewrite List.Forall_forall in IH.
  destruct (dict_contains d "value") eqn:C.
  - unfold dict_contains in C. cbn [getitem].
    destruct (dict_get d "value") as [v|] eqn:G; [|discriminate].
    apply dict_get_In in G. cbn [bind].
    destruct (float_of_finite_leaves v (H _ G)) as [(x & E & F)|(e & E & F)];
      rewrite E; [eauto|rewrite F].
    destruct d as [|[k w] t]; [destruct G|].
    destruct (IH (k, w) (or_introl eq_refl) (H (k, w) (or_introl eq_refl))) as (x & E' & F').
    cbn [snd] in E'. rewrite E'. eauto.
  - destruct d as [|[k w] t]; [eauto|].
    destruct (IH (k, w) (or_introl eq_refl) (H (k, w) (or_introl eq_refl))) as (x & E' & F').
    cbn [snd] in E'. rewrite E'. eauto.
Qed.

(** With calls to spare for its mappings, [safe_time] under the recursion
    limit is [safe_time]. *)
Lemma safe_time_in_enough v :
  forall frames, (nesting v < frames)%nat -> safe_time_in frames v = safe_time v.
Proof.
  induction v as [| | | | | l _ | d IH] using obj_ind; intros [|frames] H; try lia;
    try reflexivity.
  cbn [safe_time_in safe_time].
  destruct (if dict_contains d "value" then _ else None); [reflexivity|].
  destruct d as [|[k v] t]; [reflexivity|].
  inversion IH as [|? ? Hv _]; subst. cbn [snd] in Hv.
  rewrite Hv.
  - destruct (safe_time v); reflexivity.
  - cbn [nesting map list_max fold_right snd] in H. lia.
Qed.

(** C2 (amended): on every value with finite leaves, of any shape, whose
    mappings nest less deep than the calls that the recursion limit still
    allows, [safe_time] returns a finite float and raises nothing; the
    [ValueError] and [TypeError] of a failed conversion are caught on the
    way. *)
Theorem safe_time_finite_leaves v frames :
  finite_leaves v = true ->
  (nesting v < frames)%nat ->
  exists x, safe_time_in frames v = Ok x /\ safe_time v = Ok x /\ is_finite x = true.
Proof.
  intros H Hn. rewrite (safe_time_in_enough v frames Hn).
  destruct (safe_time_returns_finite v H) as (x & E & F). eauto.
Qed.

Lemma safe_time_finite_leaves_witness :
  exists x,
    safe_time_in 999 (nested 996 (VDict [("meta", VList [VInt 1]);
                                         ("time", VDict [("value", VStr "12.5")]);
                                         ("note", VStr "not a number")])) = Ok x
    /\ safe_time (nested 996 (VDict [("meta", VList [VInt 1]);
                                     ("time", VDict [("value", VStr "12.5")]);
                                     ("note", VStr "not a number")])) = Ok x
    /\ is_finite x = true.
Proof.
  apply (safe_time_finite_leaves
           (nested 996 (VDict [("meta", VList [VInt 1]);
                               ("time", VDict [("value", VStr "12.5")]);
                               ("note", VStr "not a number")])) 999).
  - vm_compute. reflexivity.
  - vm_compute. lia.
Defined.

(** ** Zero-padded numbers *)

Lemma format_two_digits k : 0 <= k < 100 -> format_zero_padded 2 k = two_digits k.
Proof.
  intros H. rewrite <- (Z2Nat.id k) by lia.
  assert (Hn : (Z.to_nat k < 100)%nat) by lia.
  generalize dependent (Z.to_nat k). intros n Hn.
  do 100 (destruct n as [|n]; [vm_compute; reflexivity|]). lia.
Qed.

Lemma length_text l : String.length (text l) = length l.
Proof. induction l; simpl; auto. Qed.

Lemma pad_left_long w s : (w <= String.length s)%nat -> pad_left w s = s.
Proof.
  intros H. unfold pad_left. replace (w - String.length s)%nat with 0%nat by lia.
  reflexivity.
Qed.

(** A number from ten on is written with two digits or more. *)
Lemma str_of_Z_length z : 10 <= z -> (2 <= String.length (str_of_Z z))%nat.
Proof.
  intros H. unfold str_of_Z.
  pose proof (DecimalZ.of_to z) as E.
  destruct (Z.to_int z) as [d|d] eqn:T.
  - destruct d as [|d|d|d|d|d|d|d|d|d|d];
      try (destruct d; [vm_compute in E; lia|simpl; lia..]).
    vm_compute in E; lia.
  - destruct z; simpl in T; try discriminate. lia.
Qed.

Lemma format_zero_padded_nonneg m :
  0 <= m ->
  format_zero_padded 2 m = (if m <? 10 then "0" else EmptyString) +:+ str_of_Z m.
Proof.
  intros H. unfold format_zero_padded.
  destruct (Z.ltb_spec m 0); [lia|].
  destruct (Z.ltb_spec m 10).
  - rewrite <- (Z2Nat.id m) by lia.
    assert (Hn : (Z.to_nat m < 10)%nat) by lia.
    generalize dependent (Z.to_nat m). intros n Hn.
    do 10 (destruct n as [|n]; [vm_compute; reflexivity|]). lia.
  - apply pad_left_long, str_of_Z_length. lia.
Qed.

(** ** [format_timestamp] *)

(** C3 (as stated, refuted): in clock style a number of seconds past the
    year 9999 raises instead of wrapping, and in compact style a negative
    minute count is written with its sign and a single digit. *)
Lemma format_timestamp_counterexample :
  format_timestamp (VInt (10 ^ 12)) "HH:MM:SS"
    = Raise (ValueError "year 33658 is out of range")
  /\ format_timestamp (VInt (-60)) "mm:ss" = Ok "-1:00".
Proof. split; vm_compute; reflexivity. Qed.

(** C3 (amended): when the extracted float truncates to the integer [n],
    the clock style returns the two-digit hours, minutes and seconds of [n]
    modulo 24 hours provided [n] lies in the years 1 to 9999, and raises
    outside of them; the compact style returns [n // 60] padded to two
    characters, a colon and the two digits of [n % 60]; for [n >= 0] the
    minutes are the decimal numeral of [n // 60], with a leading zero below
    ten and uncapped above. *)
Theorem format_timestamp_spec v x n :
  safe_time v = Ok x ->
  int_of_float x = Ok n ->
  (Datetime.min_timestamp <= n <= Datetime.max_timestamp ->
   let sod := n mod 86400 in
   format_timestamp v "HH:MM:SS" =
     Ok (two_digits (sod / 3600) +:+ ":" +:+ two_digits (sod mod 3600 / 60)
         +:+ ":" +:+ two_digits (sod mod 60)))
  /\ (n < Datetime.min_timestamp \/ Datetime.max_timestamp < n ->
      exists e, format_timestamp v "HH:MM:SS" = Raise e)
  /\ format_timestamp v "mm:ss" =
       Ok (format_zero_padded 2 (n / 60) +:+ ":" +:+ two_digits (n mod 60))
  /\ (0 <= n ->
      format_zero_padded 2 (n / 60) =
        (if n / 60 <? 10 then "0" else EmptyString) +:+ str_of_Z (n / 60)).
Proof.
  intros Hx Hn. unfold format_timestamp. rewrite Hx. cbn [bind]. rewrite Hn. cbn [bind].
  split; [|split; [|split]].
  - intros Hr. set (sod := n mod 86400).
    change (String.eqb "HH:MM:SS" "HH:MM:SS") with true. cbv iota.
    unfold Datetime.utcfromtimestamp.
    destruct (Z.leb_spec Datetime.min_timestamp n); [|lia].
    destruct (Z.leb_spec n Datetime.max_timestamp); [|lia].
    cbn [andb bind]. unfold Datetime.strftime_HMS.
    cbn [Datetime.hour Datetime.minute Datetime.second]. fold sod.
    rewrite !format_two_digits; [reflexivity|subst sod; Z.div_mod_to_equations; lia..].
  - intros Hr.
    change (String.eqb "HH:MM:SS" "HH:MM:SS") with true. cbv iota.
    unfold Datetime.utcfromtimestamp.
    replace ((Datetime.min_timestamp <=? n) && (n <=? Datetime.max_timestamp)) with false
      by (symmetry; apply andb_false_iff; rewrite !Z.leb_gt; lia).
    destruct (negb _); [eauto|]. destruct (Datetime.fits_int _); eauto.
  - change (String.eqb "mm:ss" "HH:MM:SS") with false.
    change (String.eqb "mm:ss" "mm:ss") with true. cbv iota.
    rewrite (format_two_digits (n mod 60)); [reflexivity|Z.div_mod_to_equations; lia].
  - intros H0. apply format_zero_padded_nonneg. Z.div_mod_to_equations; lia.
Qed.

Lemma format_timestamp_spec_witness :
  format_timestamp (VInt 3661) "HH:MM:SS" = Ok "01:01:01"
  /\ format_timestamp (VInt 90) "mm:ss" = Ok "01:30".
Proof.
  split.
  - apply (proj1 (format_timestamp_spec (VInt 3661) (binary_normalize prec emax 3661 0 false)
                    3661 eq_refl eq_refl)).
    vm_compute. split; discriminate.
  - apply (proj1 (proj2 (proj2 (format_timestamp_spec (VInt 90)
                                  (binary_normalize prec emax 90 0 false) 90 eq_refl eq_refl)))).
Defined.

(** ** [format_srt_timestamp] *)

(** The two examples of the subtitle style: 1.5 and 3661.25 seconds. *)
Lemma format_srt_timestamp_examples :
  format_srt_timestamp (VFloat (float_of_decimal false 15 (-1))) = Ok "00:00:01,500"
  /\ format_srt_timestamp (VFloat (float_of_decimal false 366125 (-2))) = Ok "01:01:01,250".
Proof. split; vm_compute; reflexivity. Qed.

(** C4: the milliseconds are rounded without a carry into the seconds, so a
    fraction of 0.9995 or more is written as the four digits 1000: the float
    1.9996 is formatted as 00:00:01,1000, which is not of the shape
    HH:MM:SS,mmm. *)
Theorem format_srt_timestamp_thousand_milliseconds :
  float_of_str "1.9996" = Some (float_of_decimal false 19996 (-4))
  /\ format_srt_timestamp (VFloat (float_of_decimal false 19996 (-4))) = Ok "00:00:01,1000".
Proof. split; vm_compute; reflexivity. Qed.

(** ** Writing loops *)

Lemma append_nil_l (b : string) : EmptyString +:+ b = b.
Proof. reflexivity. Qed.

Lemma append_cons (x : ascii) (a b : string) : String x a +:+ b = String x (a +:+ b).
Proof. reflexivity. Qed.

Lemma append_assoc (a b c : string) : (a +:+ b) +:+ c = a +:+ b +:+ c.
Proof. induction a as [|x a IH]; [reflexivity|]. rewrite !append_cons. now rewrite IH. Qed.

Lemma append_empty_r (a : string) : a +:+ EmptyString = a.
Proof. induction a as [|x a IH]; [reflexivity|]. rewrite append_cons. now rewrite IH. Qed.

Lemma for_enumerate_renders body render :
  renders body render ->
  forall l i,
    match render_all render i l with
    | Ok ps => for_enumerate i l body = (concat_all (chunks ps), Ok tt)
    | Raise _ => exists s err, for_enumerate i l body = (s, Raise err)
    end.
Proof.
  intros Hb. induction l as [|e t IH]; intros i; [reflexivity|].
  cbn [render_all for_enumerate]. specialize (Hb i e). specialize (IH (i + 1)).
  destruct (render i e) as [[s|b]|err]; cbn [bind]; [|destruct Hb|].
  - rewrite Hb. cbn [wbind].
    destruct (render_all render (i + 1) t) as [ps|err]; cbn [bind].
    + rewrite IH. reflexivity.
    + destruct IH as (s' & err' & ->). eauto.
  - destruct Hb as (s & err' & ->). cbn [wbind]. eauto.
Qed.

(** Only the subtitle format looks at the index of a segment. *)
Lemma render_all_start format include_ts ts_format l :
  format <> SRT ->
  forall i j,
    render_all (segment_piece format include_ts ts_format) i l
    = render_all (segment_piece format include_ts ts_format) j l.
Proof.
  intros H. induction l as [|e t IH]; intros i j; [reflexivity|].
  cbn [render_all]. rewrite (IH (i + 1) (j + 1)).
  destruct format; try reflexivity. contradiction.
Qed.

(** The renderings are as many as the segments, and the one at position [n]
    is that of the segment at position [n]. *)
Lemma render_all_lookup {A} (render : Z -> obj -> result A) l :
  forall i ps, render_all render i l = Ok ps ->
    length ps = length l
    /\ forall n e, l !! n = Some e ->
         exists p, ps !! n = Some p /\ render (i + Z.of_nat n) e = Ok p.
Proof.
  induction l as [|e t IH]; intros i ps H; cbn [render_all] in H.
  - injection H as <-. split; [reflexivity|]. intros n e H; destruct n; discriminate.
  - destruct (render i e) as [p|] eqn:E; [|discriminate]. cbn [bind] in H.
    destruct (render_all render (i + 1) t) as [qs|] eqn:R; [|discriminate].
    injection H as <-. destruct (IH _ _ R) as [L N]. split; [simpl; lia|].
    intros [|n] e' H'.
    + injection H' as <-. exists p. rewrite Z.add_0_r. auto.
    + destruct (N n e' H') as (q & Q1 & Q2). exists q. split; [exact Q1|].
      rewrite <- Q2. f_equal. lia.
Qed.

(** ** The bodies of the export loops *)

Lemma txt_entry_renders include_ts ts_format :
  renders (fun _ e => txt_entry include_ts ts_format e) (segment_piece TXT include_ts ts_format).
Proof.
  intros i e. unfold segment_piece, text_line, displayed_start, txt_entry.
  destruct include_ts.
  - destruct (getitem e "start") as [s|]; step_entry.
    destruct (format_timestamp s ts_format) as [ts|]; step_entry.
    destruct (getitem e "text") as [t|]; step_entry.
  - step_entry. destruct (getitem e "text") as [t|]; step_entry.
Qed.

(** A row of three fields. *)
Lemma writerow_three a b c :
  Csv.writerow [a; b; c] =
  Csv.quote_field (Csv.field_text a) +:+ "," +:+ Csv.quote_field (Csv.field_text b)
  +:+ "," +:+ Csv.quote_field (Csv.field_text c) +:+ crlf.
Proof.
  unfold Csv.writerow. cbn [map join length Nat.eqb negb andb].
  set (qa := Csv.quote_field (Csv.field_text a)).
  set (rest := "," +:+ _ +:+ "," +:+ _).
  assert (E : String.eqb (qa +:+ rest) EmptyString = false) by (destruct qa; reflexivity).
  rewrite E. subst rest. now rewrite !append_assoc.
Qed.

Lemma csv_entry_renders include_ts ts_format :
  renders (fun _ e => csv_entry include_ts ts_format e) (segment_piece CSV include_ts ts_format).
Proof.
  intros i e. unfold segment_piece, csv_row, displayed_start, csv_entry.
  destruct include_ts.
  - destruct (getitem e "start") as [s|]; step_entry.
    destruct (format_timestamp s ts_format) as [ts|]; step_entry.
    destruct (getitem e "text") as [t|]; step_entry.
    destruct (getitem e "duration") as [d|]; step_entry.
    now rewrite writerow_three.
  - step_entry. destruct (getitem e "text") as [t|]; step_entry.
    destruct (getitem e "duration") as [d|]; step_entry.
    now rewrite writerow_three.
Qed.

Lemma srt_entry_renders include_ts ts_format :
  renders srt_entry (segment_piece SRT include_ts ts_format).
Proof.
  intros i e. unfold segment_piece, subtitle_block, srt_entry.
  destruct (getitem e "start") as [s|]; cbn [bind eval wbind]; [|eauto].
  destruct (getitem e "duration") as [d|]; cbn [bind eval wbind].
  - destruct (getitem e "text") as [t|]; cbn [bind eval wbind].
    + destruct (safe_time s) as [sv|]; cbn [bind eval wbind]; [|eauto].
      destruct (safe_time d) as [dv|]; cbn [bind eval wbind]; [|eauto].
      destruct (format_srt_timestamp (VFloat sv)) as [a|]; cbn [bind eval wbind]; [|eauto].
      destruct (format_srt_timestamp (VFloat (fadd sv dv))) as [b|]; cbn [bind eval wbind write];
        [|eauto].
      rewrite !append_nil_l, !append_assoc. reflexivity.
    + destruct (safe_time s) as [sv|]; cbn [bind eval wbind]; [|eauto].
      destruct (safe_time d) as [dv|]; cbn [bind eval wbind]; [|eauto].
      destruct (format_srt_timestamp (VFloat sv)) as [a|]; cbn [bind eval wbind]; [|eauto].
      destruct (format_srt_timestamp (VFloat (fadd sv dv))) as [b|]; cbn [bind eval wbind write];
        eauto.
  - destruct (safe_time s) as [sv|]; cbn [bind eval wbind]; eauto.
Qed.

Lemma docx_entry_renders include_ts ts_format document e :
  docx_entry include_ts ts_format document e =
  let* p := segment_piece DOCX include_ts ts_format 0 e in
  match p with
  | Block b => Ok (document ++ [b])
  | Chunk _ => Raise (ValueError "not a paragraph")
  end.
Proof.
  unfold segment_piece, document_paragraph, displayed_start, docx_entry, Docx.add_paragraph.
  destruct include_ts.
  - destruct (getitem e "start") as [s|]; cbn [bind]; [|reflexivity].
    destruct (format_timestamp s ts_format) as [ts|]; cbn [bind]; [|reflexivity].
    destruct (getitem e "text") as [t|]; cbn [bind]; [|reflexivity].
    destruct (Docx.new_paragraph _); reflexivity.
  - cbn [bind]. destruct (getitem e "text") as [t|]; cbn [bind]; [|reflexivity].
    destruct (Docx.new_paragraph _); reflexivity.
Qed.

Lemma docx_fold_raise include_ts ts_format l err :
  fold_left (fun acc entry =>
               let* document := acc in docx_entry include_ts ts_format document entry)
            l (Raise err) = Raise err.
Proof. induction l; simpl; auto. Qed.

Lemma docx_loop_cons include_ts ts_format e t document :
  docx_loop include_ts ts_format (e :: t) document =
  let* document := docx_entry include_ts ts_format document e in
  docx_loop include_ts ts_format t document.
Proof.
  unfold docx_loop. cbn [fold_left bind].
  destruct (docx_entry include_ts ts_format document e); cbn [bind]; [reflexivity|].
  apply docx_fold_raise.
Qed.

Lemma docx_loop_renders include_ts ts_format l :
  forall document i,
    match render_all (segment_piece DOCX include_ts ts_format) i l with
    | Ok ps => docx_loop include_ts ts_format l document = Ok (document ++ blocks ps)
    | Raise _ => exists err, docx_loop include_ts ts_format l document = Raise err
    end.
Proof.
  induction l as [|e t IH]; intros document i.
  - cbn. now rewrite app_nil_r.
  - cbn [render_all]. rewrite docx_loop_cons, docx_entry_renders.
    change (segment_piece DOCX include_ts ts_format 0 e)
      with (segment_piece DOCX include_ts ts_format i e).
    destruct (segment_piece DOCX include_ts ts_format i e) as [[s|b]|err] eqn:E; cbn [bind].
    + unfold segment_piece in E. destruct (document_paragraph _ _ _); discriminate.
    + specialize (IH (document ++ [b]) (i + 1)).
      destruct (render_all _ (i + 1) t) as [ps|]; cbn [bind].
      * rewrite IH. cbn [blocks flat_map]. now rewrite <- app_assoc.
      * exact IH.
    + eauto.
Qed.

Lemma json_render_all include_ts ts_format l i :
  render_all (segment_piece JSON include_ts ts_format) i l
  = Ok (map (fun e => Chunk (Json.encode 4 1 e)) l).
Proof.
  revert i; induction l as [|e t IH]; intros i; [reflexivity|].
  cbn [render_all segment_piece bind]. now rewrite IH.
Qed.

Lemma chunks_map_chunk (f : obj -> string) l : chunks (map (fun e => Chunk (f e)) l) = map f l.
Proof. induction l; simpl; congruence. Qed.

(** ** The export *)

(** What [export_body] does on a writable path, by the format: when every
    segment renders, the file is assembled from the renderings in order;
    otherwise the export raises. *)
Lemma export_body_renders format file_path include_ts ts_format data w :
  file_path ∉ unwritable w ->
  data <> [] ->
  match render_all (segment_piece format include_ts ts_format) 1 data with
  | Ok pieces =>
      export_body (lower (export_item_text format)) file_path include_ts ts_format data w
      = (set_files (<[file_path := assemble format pieces]> (files w)) w, Ok tt)
  | Raise _ =>
      exists fs err,
        export_body (lower (export_item_text format)) file_path include_ts ts_format data w
        = (set_files fs w, Raise err)
  end.
Proof.
  intros Hw Hd. unfold export_body, with_open, save_document.
  destruct (decide (file_path ∈ unwritable w)) as [|_]; [contradiction|].
  destruct format;
    match goal with
    | |- context [lower ?s] =>
        let v := eval vm_compute in (lower s) in change (lower s) with v
    end;
    cbn [String.eqb Ascii.eqb Bool.eqb].
  - unfold for_each.
    pose proof (for_enumerate_renders _ _ (txt_entry_renders include_ts ts_format) data 0) as H.
    rewrite (render_all_start TXT include_ts ts_format data ltac:(discriminate) 1 0).
    destruct (render_all _ 0 data) as [ps|].
    + rewrite H. reflexivity.
    + destruct H as (s & err & ->). eauto.
  - unfold for_each.
    pose proof (for_enumerate_renders _ _ (csv_entry_renders include_ts ts_format) data 0) as H.
    rewrite (render_all_start CSV include_ts ts_format data ltac:(discriminate) 1 0).
    destruct (render_all _ 0 data) as [ps|].
    + rewrite H. cbn [wbind write]. reflexivity.
    + destruct H as (s & err & ->). cbn [wbind write]. eauto.
  - rewrite json_render_all. unfold Json.dump, write, assemble.
    rewrite chunks_map_chunk.
    destruct data as [|e t]; [contradiction|]. reflexivity.
  - pose proof (docx_loop_renders include_ts ts_format data
                  (Docx.add_heading Docx.new_document "Transcript" 1) 1) as H.
    destruct (render_all _ 1 data) as [ps|].
    + rewrite H. reflexivity.
    + destruct H as (err & ->). exists (files w), err. destruct w; reflexivity.
  - pose proof (for_enumerate_renders _ _ (srt_entry_renders include_ts ts_format) data 1) as H.
    destruct (render_all _ 1 data) as [ps|].
    + rewrite H. reflexivity.
    + destruct H as (s & err & ->). eauto.
Qed.

(** The outcome of [export_transcript] on a fetched, non-empty transcript
    and a chosen, writable path. *)
Lemma export_transcript_outcome self file_path w data :
  transcript_data self = Some data ->
  data <> [] ->
  file_path <> EmptyString ->
  file_path ∉ unwritable w ->
  match render_all (segment_piece (export_format_combo self) (timestamp_checkbox self)
                      (timestamp_item_text (timestamp_format_combo self))) 1 data with
  | Ok pieces =>
      export_transcript self file_path w =
      (save_preferences self,
       show (export_successful file_path)
         (set_files (<[file_path := assemble (export_format_combo self) pieces]> (files w)) w))
  | Raise _ =>
      exists fs err,
        export_transcript self file_path w =
        (save_preferences self, show (export_error err) (set_files fs w))
  end.
Proof.
  intros Hd Hne Hp Hw. unfold export_transcript. rewrite Hd.
  destruct data as [|e t]; [contradiction|].
  apply String.eqb_neq in Hp. rewrite Hp.
  pose proof (export_body_renders (export_format_combo self) file_path
                (timestamp_checkbox self)
                (timestamp_item_text (timestamp_format_combo self)) (e :: t) w Hw Hne) as H.
  destruct (render_all _ 1 (e :: t)) as [ps|].
  - rewrite H. reflexivity.
  - destruct H as (fs & err & ->). exists fs, err. reflexivity.
Qed.

Lemma render_all_subtitle include_ts ts_format l :
  forall i,
    render_all (segment_piece SRT include_ts ts_format) i l =
    let* bs := render_all subtitle_block i l in Ok (map Chunk bs).
Proof.
  induction l as [|e t IH]; intros i; [reflexivity|].
  cbn [render_all segment_piece]. rewrite IH.
  destruct (subtitle_block i e); cbn [bind]; [|reflexivity].
  destruct (render_all subtitle_block (i + 1) t); reflexivity.
Qed.

Lemma render_all_csv include_ts ts_format l :
  forall i,
    render_all (segment_piece CSV include_ts ts_format) i l =
    let* rows := render_all (fun _ e => csv_row include_ts ts_format e) i l in
    Ok (map Chunk rows).
Proof.
  induction l as [|e t IH]; intros i; [reflexivity|].
  cbn [render_all segment_piece]. rewrite IH.
  destruct (csv_row include_ts ts_format e); cbn [bind]; [|reflexivity].
  destruct (render_all _ (i + 1) t); reflexivity.
Qed.

Lemma chunks_map_Chunk l : chunks (map Chunk l) = l.
Proof. induction l; simpl; congruence. Qed.

Lemma lookup_insert_files (fs : gmap string file) (p : string) (f : file) :
  <[p := f]> fs !! p = Some f.
Proof. apply lookup_insert_eq. Qed.

(** ** The subtitle export *)

(** C5: for a non-empty transcript whose segments render as subtitle
    blocks, the subtitle export writes these blocks one after the other, the
    block of the segment at position [n] carrying the index [n + 1], and
    reports success, whatever the timestamp check box and style are. A block
    is the index line, the range line from the subtitle-style start to the
    subtitle-style sum of the extracted start and duration, the text and a
    blank line. *)
Theorem export_subtitle_blocks self file_path w data blocks :
  transcript_data self = Some data ->
  data <> [] ->
  export_format_combo self = SRT ->
  file_path <> EmptyString ->
  file_path ∉ unwritable w ->
  render_all subtitle_block 1 data = Ok blocks ->
  files (snd (export_transcript self file_path w)) !! file_path
    = Some (TextFile (concat_all blocks))
  /\ dialogs (snd (export_transcript self file_path w))
     = dialogs w ++ [export_successful file_path]
  /\ length blocks = length data
  /\ forall n e, data !! n = Some e ->
       exists b, blocks !! n = Some b /\ subtitle_block (1 + Z.of_nat n) e = Ok b.
Proof.
  intros Hd Hne Hf Hp Hw Hb.
  pose proof (export_transcript_outcome self file_path w data Hd Hne Hp Hw) as H.
  rewrite Hf, render_all_subtitle, Hb in H. cbn [bind] in H. rewrite H.
  cbn [snd show set_files files dialogs assemble]. rewrite chunks_map_Chunk.
  split; [apply lookup_insert_files|]. split; [reflexivity|].
  apply (render_all_lookup subtitle_block data 1 blocks Hb).
Qed.

Lemma export_subtitle_blocks_witness :
  files (snd (export_transcript (window (Some example_transcript) SRT false mm_ss)
                "out.srt" empty_world)) !! "out.srt"
  = Some (TextFile ("1" +:+ nl +:+ "00:00:05,000 --> 00:00:07,500" +:+ nl +:+ "Hello" +:+ nl +:+ nl
                    +:+ "2" +:+ nl +:+ "00:00:10,000 --> 00:00:11,000" +:+ nl +:+ "World"
                    +:+ nl +:+ nl)).
Proof.
  apply (proj1 (export_subtitle_blocks
                  (window (Some example_transcript) SRT false mm_ss) "out.srt" empty_world
                  example_transcript
                  ["1" +:+ nl +:+ "00:00:05,000 --> 00:00:07,500" +:+ nl +:+ "Hello" +:+ nl +:+ nl;
                   "2" +:+ nl +:+ "00:00:10,000 --> 00:00:11,000" +:+ nl +:+ "World" +:+ nl +:+ nl]
                  eq_refl ltac:(discriminate) eq_refl ltac:(discriminate)
                  ltac:(apply not_elem_of_empty) ltac:(vm_compute; reflexivity))).
Defined.

(** ** The CSV export *)

(** C10: in a successful CSV export the row of the segment at position [n]
    has three columns: the displayed start (or nothing), the text, and the
    duration as the record holds it, written by [str] and quoted as CSV
    requires; the duration goes through neither [safe_time] nor a timestamp
    format, so a nested mapping is written as the mapping it is. *)
Theorem export_csv_raw_duration self file_path w data rows :
  transcript_data self = Some data ->
  data <> [] ->
  export_format_combo self = CSV ->
  file_path <> EmptyString ->
  file_path ∉ unwritable w ->
  render_all (fun _ e => csv_row (timestamp_checkbox self)
                           (timestamp_item_text (timestamp_format_combo self)) e) 1 data
    = Ok rows ->
  files (snd (export_transcript self file_path w)) !! file_path
    = Some (TextFile ("Start Time,Text,Duration" +:+ crlf +:+ concat_all rows))
  /\ forall n e, data !! n = Some e ->
       exists ts t d,
         displayed_start (timestamp_checkbox self)
           (timestamp_item_text (timestamp_format_combo self)) e = Ok ts
         /\ getitem e "text" = Ok t
         /\ getitem e "duration" = Ok d
         /\ rows !! n = Some (Csv.quote_field (default EmptyString ts) +:+ ","
                              +:+ Csv.quote_field (Csv.field_text t) +:+ ","
                              +:+ Csv.quote_field (Csv.field_text d) +:+ crlf).
Proof.
  intros Hd Hne Hf Hp Hw Hr.
  pose proof (export_transcript_outcome self file_path w data Hd Hne Hp Hw) as H.
  rewrite Hf, render_all_csv, Hr in H. cbn [bind] in H. rewrite H.
  cbn [snd show set_files files assemble]. rewrite chunks_map_Chunk.
  split; [apply lookup_insert_files|].
  intros n e He.
  destruct (proj2 (render_all_lookup _ data 1 rows Hr) n e He) as (row & Hrow & Hcsv).
  unfold csv_row in Hcsv.
  destruct (displayed_start _ _ e) as [ts|]; [|discriminate]. cbn [bind] in Hcsv.
  destruct (getitem e "text") as [t|]; [|discriminate]. cbn [bind] in Hcsv.
  destruct (getitem e "duration") as [d|]; [|discriminate]. cbn [bind] in Hcsv.
  injection Hcsv as <-. exists ts, t, d. auto.
Qed.

Lemma export_csv_raw_duration_witness :
  files (snd (export_transcript (window (Some nested_duration_transcript) CSV true mm_ss)
                "out.csv" empty_world)) !! "out.csv"
  = Some (TextFile ("Start Time,Text,Duration" +:+ crlf
                    +:+ "00:05,Hello,{'value': 2.5}" +:+ crlf)).
Proof.
  apply (proj1 (export_csv_raw_duration
                  (window (Some nested_duration_transcript) CSV true mm_ss) "out.csv"
                  empty_world nested_duration_transcript
                  ["00:05,Hello,{'value': 2.5}" +:+ crlf]
                  eq_refl ltac:(discriminate) eq_refl ltac:(discriminate)
                  ltac:(apply not_elem_of_empty) ltac:(vm_compute; reflexivity))).
Defined.

(** ** The first segment that fails *)

Lemma render_all_take_succ {A} (render : Z -> obj -> result A) e t i k p ps :
  render i e = Ok p ->
  render_all render (i + 1) (take k t) = Ok ps ->
  render_all render i (take (S k) (e :: t)) = Ok (p :: ps).
Proof. intros Hp Hps. cbn [take render_all]. now rewrite Hp, Hps. Qed.

(** A loop that stops at a segment has written the renderings of the
    segments before it and what its body wrote for it, and raises what the
    body raised. *)
Lemma for_enumerate_stops body render :
  renders body render ->
  forall l i,
    match render_all render i l with
    | Ok ps => for_enumerate i l body = (concat_all (chunks ps), Ok tt)
    | Raise _ =>
        exists k e s err ps,
          l !! k = Some e
          /\ render_all render i (take k l) = Ok ps
          /\ body (i + Z.of_nat k) e = (s, Raise err)
          /\ for_enumerate i l body = (concat_all (chunks ps) +:+ s, Raise err)
    end.
Proof.
  intros Hb. induction l as [|e t IH]; intros i; [reflexivity|].
  cbn [render_all for_enumerate]. pose proof (Hb i e) as He. specialize (IH (i + 1)).
  destruct (render i e) as [[s|b]|err] eqn:R; cbn [bind]; [|destruct He|].
  - rewrite He. cbn [wbind].
    destruct (render_all render (i + 1) t) as [ps|err]; cbn [bind].
    + rewrite IH. reflexivity.
    + destruct IH as (k & x & s' & err' & ps & Hx & Hps & Hbody & ->).
      exists (S k), x, s', err', (Chunk s :: ps).
      split; [exact Hx|]. split; [now apply render_all_take_succ|].
      split; [rewrite <- Hbody; f_equal; lia|].
      cbn [chunks flat_map app concat_all fold_right]. now rewrite append_assoc.
  - destruct He as (s & err' & He). exists 0%nat, e, s, err', [].
    split; [reflexivity|]. split; [reflexivity|].
    split; [now rewrite Z.add_0_r|]. rewrite He. reflexivity.
Qed.

(** The loop body of the document export fails as the rendering of the
    paragraph does, whatever the document holds. *)
Lemma docx_entry_raises include_ts ts_format document e i err :
  segment_piece DOCX include_ts ts_format i e = Raise err ->
  docx_entry include_ts ts_format document e = Raise err.
Proof.
  intros H. rewrite docx_entry_renders.
  change (segment_piece DOCX include_ts ts_format 0 e)
    with (segment_piece DOCX include_ts ts_format i e).
  now rewrite H.
Qed.

Lemma docx_loop_stops include_ts ts_format l :
  forall document i,
    match render_all (segment_piece DOCX include_ts ts_format) i l with
    | Ok ps => docx_loop include_ts ts_format l document = Ok (document ++ blocks ps)
    | Raise _ =>
        exists k e err ps,
          l !! k = Some e
          /\ render_all (segment_piece DOCX include_ts ts_format) i (take k l) = Ok ps
          /\ segment_piece DOCX include_ts ts_format (i + Z.of_nat k) e = Raise err
          /\ docx_loop include_ts ts_format l document = Raise err
    end.
Proof.
  induction l as [|e t IH]; intros document i.
  - cbn. now rewrite app_nil_r.
  - cbn [render_all]. rewrite docx_loop_cons.
    destruct (segment_piece DOCX include_ts ts_format i e) as [[s|b]|err] eqn:E; cbn [bind].
    + unfold segment_piece in E. destruct (document_paragraph _ _ _); discriminate.
    + rewrite docx_entry_renders.
      change (segment_piece DOCX include_ts ts_format 0 e)
        with (segment_piece DOCX include_ts ts_format i e).
      rewrite E. cbn [bind].
      specialize (IH (document ++ [b]) (i + 1)).
      destruct (render_all _ (i + 1) t) as [ps|]; cbn [bind].
      * rewrite IH. cbn [blocks flat_map]. now rewrite <- app_assoc.
      * destruct IH as (k & x & err' & ps & Hx & Hps & Hpiece & ->).
        exists (S k), x, err', (Block b :: ps).
        split; [exact Hx|]. split; [now apply render_all_take_succ|].
        split; [rewrite <- Hpiece; f_equal; lia|reflexivity].
    + exists 0%nat, e, err, []. split; [reflexivity|]. split; [reflexivity|].
      split; [now rewrite Z.add_0_r|].
      rewrite (docx_entry_raises _ _ _ _ _ _ E). reflexivity.
Qed.

Lemma render_all_take_start format include_ts ts_format l k i j :
  format <> SRT ->
  render_all (segment_piece format include_ts ts_format) i (take k l)
  = render_all (segment_piece format include_ts ts_format) j (take k l).
Proof. intros H. now apply render_all_start. Qed.

(** What [export_body] does, by the format, when the destination can be
    opened or the format is the document format. *)
Lemma export_body_outcome format file_path include_ts ts_format data w :
  data <> [] ->
  file_path ∉ unwritable w \/ format = DOCX ->
  match render_all (segment_piece format include_ts ts_format) 1 data with
  | Ok pieces =>
      export_body (lower (export_item_text format)) file_path include_ts ts_format data w
      = if decide (file_path ∈ unwritable w) then (w, Raise (permission_denied file_path))
        else (set_files (<[file_path := assemble format pieces]> (files w)) w, Ok tt)
  | Raise _ =>
      exists k entry written err pieces,
        data !! k = Some entry
        /\ render_all (segment_piece format include_ts ts_format) 1 (take k data) = Ok pieces
        /\ segment_step format include_ts ts_format (1 + Z.of_nat k) entry = (written, Raise err)
        /\ export_body (lower (export_item_text format)) file_path include_ts ts_format data w
           = (match unfinished format pieces written with
              | Some f => set_files (<[file_path := f]> (files w)) w
              | None => w
              end, Raise err)
  end.
Proof.
  intros Hd Hw. unfold export_body, with_open, save_document.
  destruct format;
    match goal with
    | |- context [lower ?s] =>
        let v := eval vm_compute in (lower s) in change (lower s) with v
    end;
    cbn [String.eqb Ascii.eqb Bool.eqb].
  - destruct Hw as [Hw|]; [|discriminate].
    destruct (decide (file_path ∈ unwritable w)) as [|_]; [contradiction|].
    unfold for_each.
    pose proof (for_enumerate_stops _ _ (txt_entry_renders include_ts ts_format) data 0) as H.
    rewrite (render_all_start TXT include_ts ts_format data ltac:(discriminate) 1 0).
    destruct (render_all _ 0 data) as [ps|].
    + rewrite H. reflexivity.
    + destruct H as (k & x & s & err & ps & He & Hps & Hbody & ->).
      exists k, x, s, err, ps. split; [exact He|].
      split; [now rewrite (render_all_take_start TXT _ _ data k 1 0)|].
      split; [exact Hbody|reflexivity].
  - destruct Hw as [Hw|]; [|discriminate].
    destruct (decide (file_path ∈ unwritable w)) as [|_]; [contradiction|].
    unfold for_each.
    pose proof (for_enumerate_stops _ _ (csv_entry_renders include_ts ts_format) data 0) as H.
    rewrite (render_all_start CSV include_ts ts_format data ltac:(discriminate) 1 0).
    destruct (render_all _ 0 data) as [ps|].
    + rewrite H. cbn [wbind write]. reflexivity.
    + destruct H as (k & x & s & err & ps & He & Hps & Hbody & ->).
      exists k, x, s, err, ps. split; [exact He|].
      split; [now rewrite (render_all_take_start CSV _ _ data k 1 0)|].
      split; [exact Hbody|]. cbn [wbind write unfinished]. reflexivity.
  - destruct Hw as [Hw|]; [|discriminate].
    destruct (decide (file_path ∈ unwritable w)) as [|_]; [contradiction|].
    rewrite json_render_all. unfold Json.dump, write, assemble.
    rewrite chunks_map_chunk.
    destruct data as [|e t]; [contradiction|]. reflexivity.
  - pose proof (docx_loop_stops include_ts ts_format data
                  (Docx.add_heading Docx.new_document "Transcript" 1) 1) as H.
    destruct (render_all _ 1 data) as [ps|].
    + rewrite H. destruct (decide (file_path ∈ unwritable w)); reflexivity.
    + destruct H as (k & x & err & ps & He & Hps & Hpiece & ->).
      exists k, x, EmptyString, err, ps. split; [exact He|]. split; [exact Hps|].
      split; [|reflexivity].
      cbn [segment_step]. unfold eval.
      now rewrite (docx_entry_raises _ _ Docx.new_document _ _ _ Hpiece).
  - destruct Hw as [Hw|]; [|discriminate].
    destruct (decide (file_path ∈ unwritable w)) as [|_]; [contradiction|].
    pose proof (for_enumerate_stops _ _ (srt_entry_renders include_ts ts_format) data 1) as H.
    destruct (render_all _ 1 data) as [ps|].
    + rewrite H. reflexivity.
    + destruct H as (k & x & s & err & ps & He & Hps & Hbody & ->).
      exists k, x, s, err, ps. split; [exact He|]. split; [exact Hps|].
      split; [exact Hbody|reflexivity].
Qed.

(** A destination that cannot be opened stops every format but the document
    format at once. *)
Lemma export_body_denied format file_path include_ts ts_format data w :
  file_path ∈ unwritable w ->
  format <> DOCX ->
  export_body (lower (export_item_text format)) file_path include_ts ts_format data w
  = (w, Raise (permission_denied file_path)).
Proof.
  intros Hw Hf. unfold export_body, with_open.
  destruct format; try contradiction;
    match goal with
    | |- context [lower ?s] =>
        let v := eval vm_compute in (lower s) in change (lower s) with v
    end;
    cbn [String.eqb Ascii.eqb Bool.eqb];
    destruct (decide (file_path ∈ unwritable w)); try contradiction; reflexivity.
Qed.

(** [export_transcript] on a fetched, non-empty transcript and a chosen
    path, in terms of [export_body]. *)
Lemma export_transcript_body self file_path w data :
  transcript_data self = Some data ->
  data <> [] ->
  file_path <> EmptyString ->
  snd (export_transcript self file_path w)
  = match export_body (lower (export_item_text (export_format_combo self))) file_path
            (timestamp_checkbox self)
            (timestamp_item_text (timestamp_format_combo self)) data w with
    | (w1, Ok _) => show (export_successful file_path) w1
    | (w1, Raise e) => show (export_error e) w1
    end.
Proof.
  intros Hd Hne Hp. unfold export_transcript. rewrite Hd.
  destruct data as [|e t]; [contradiction|].
  apply String.eqb_neq in Hp. rewrite Hp.
  destruct (export_body _ file_path _ _ (e :: t) w) as [w1 [r|err]]; reflexivity.
Qed.

(** ** Order of the segments *)

(** C8: for every transcript, format and display policy, an export in which
    every segment renders stores the file assembled from one piece per
    segment, in the order of the transcript, and reports success: the piece
    at position [n] is the rendering of the segment at position [n] (a line,
    a row, a record, a paragraph or a block, by the format). An export in
    which some segment does not render reports an error. The records stay
    clear of the limits of the interpreter. *)
Theorem export_preserves_order self file_path w data :
  transcript_data self = Some data ->
  data <> [] ->
  file_path <> EmptyString ->
  file_path ∉ unwritable w ->
  forallb within_limits data = true ->
  match render_all (segment_piece (export_format_combo self) (timestamp_checkbox self)
                      (timestamp_item_text (timestamp_format_combo self))) 1 data with
  | Ok pieces =>
      files (snd (export_transcript self file_path w)) !! file_path
        = Some (assemble (export_format_combo self) pieces)
      /\ dialogs (snd (export_transcript self file_path w))
         = dialogs w ++ [export_successful file_path]
      /\ length pieces = length data
      /\ forall n e, data !! n = Some e ->
           exists p, pieces !! n = Some p
                     /\ segment_piece (export_format_combo self) (timestamp_checkbox self)
                          (timestamp_item_text (timestamp_format_combo self))
                          (1 + Z.of_nat n) e = Ok p
  | Raise _ =>
      exists err,
        dialogs (snd (export_transcript self file_path w)) = dialogs w ++ [export_error err]
  end.
Proof.
  intros Hd Hne Hp Hw _.
  rewrite (export_transcript_body self file_path w data Hd Hne Hp).
  pose proof (export_body_outcome (export_format_combo self) file_path
                (timestamp_checkbox self)
                (timestamp_item_text (timestamp_format_combo self)) data w Hne
                (or_introl Hw)) as H.
  destruct (render_all _ 1 data) as [ps|] eqn:R.
  - rewrite H. destruct (decide (file_path ∈ unwritable w)) as [|_]; [contradiction|].
    cbn [show set_files files dialogs].
    split; [apply lookup_insert_files|]. split; [reflexivity|].
    apply (render_all_lookup _ data 1 ps R).
  - destruct H as (k & x & s & err & ps & _ & _ & _ & ->). exists err.
    destruct (unfinished _ ps s); reflexivity.
Qed.

Lemma export_preserves_order_witness :
  files (snd (export_transcript (window (Some example_transcript) TXT true HH_MM_SS)
                "out.txt" empty_world)) !! "out.txt"
  = Some (TextFile ("[00:00:05] Hello" +:+ nl +:+ "[00:00:10] World" +:+ nl))
  /\ dialogs (snd (export_transcript (window (Some example_transcript) TXT true HH_MM_SS)
                     "out.txt" empty_world))
     = [export_successful "out.txt"].
Proof.
  pose proof (export_preserves_order (window (Some example_transcript) TXT true HH_MM_SS)
                "out.txt" empty_world example_transcript
                eq_refl ltac:(discriminate) ltac:(discriminate)
                ltac:(apply not_elem_of_empty) ltac:(vm_compute; reflexivity)) as H.
  split; [exact (proj1 H)|exact (proj1 (proj2 H))].
Defined.

(** ** Failures of the export *)

(** What [export_body] leaves alone: the message boxes, the set of
    unwritable paths and every file but the destination; and on an
    unwritable destination it changes nothing and raises. *)
Lemma export_body_frame format file_path include_ts ts_format data w :
  let w1 := fst (export_body (lower (export_item_text format)) file_path include_ts
                   ts_format data w) in
  let r := snd (export_body (lower (export_item_text format)) file_path include_ts
                  ts_format data w) in
  dialogs w1 = dialogs w
  /\ unwritable w1 = unwritable w
  /\ (forall p, p <> file_path -> files w1 !! p = files w !! p)
  /\ (file_path ∈ unwritable w -> w1 = w /\ exists err, r = Raise err).
Proof.
  unfold export_body, with_open, save_document.
  destruct format;
    match goal with
    | |- context [lower ?s] =>
        let v := eval vm_compute in (lower s) in change (lower s) with v
    end;
    cbn [String.eqb Ascii.eqb Bool.eqb];
    try match goal with
      | |- context [docx_loop ?a ?b ?c ?d] => destruct (docx_loop a b c d)
      end;
    destruct (decide (file_path ∈ unwritable w)) as [Hin|Hout];
    try match goal with
      | |- context [let '(_, _) := ?body in _] => destruct body as [written r0]
      end;
    cbn [fst snd set_files files dialogs unwritable];
    (split; [reflexivity|]); (split; [reflexivity|]);
    (split; [intros p Hp; try reflexivity; now rewrite lookup_insert_ne|]);
    intros Hin'; try contradiction; split; eauto.
Qed.

(** C9 (as stated, refuted): with an earlier export stored under the
    destination, a CSV export of a transcript whose second segment has no
    duration reports the failure, and leaves under the destination the
    header and the first row only: neither the earlier export nor a complete
    new one. *)
Lemma export_failure_leaves_partial_file :
  files (snd (export_transcript (window (Some broken_transcript) CSV true mm_ss) "out.csv"
                (world_with "out.csv" (TextFile "an earlier export")))) !! "out.csv"
  = Some (TextFile ("Start Time,Text,Duration" +:+ crlf +:+ "00:05,Hello,2.5" +:+ crlf))
  /\ dialogs (snd (export_transcript (window (Some broken_transcript) CSV true mm_ss) "out.csv"
                     (world_with "out.csv" (TextFile "an earlier export"))))
     = [export_error (KeyError "duration")].
Proof. split; vm_compute; reflexivity. Qed.

(** C9 (amended): an export attempt on a non-empty transcript and a chosen
    destination touches no file but the destination and ends with exactly
    one message box. A destination that cannot be opened is left as it was,
    and the error message is that of the permission error; the document
    format notices it only when it saves, after every segment has rendered.
    Otherwise the export reports success when every segment renders, and the
    destination then holds the complete file; and when the loop body raises
    on a segment, the error message carries the text of that exception, and
    the destination holds the renderings of the segments before and what the
    body wrote for the failing one, whatever it held before, except for the
    document format, which has saved nothing. The records stay clear of the
    limits of the interpreter. *)
Theorem export_reports_one_outcome self file_path w data :
  transcript_data self = Some data ->
  data <> [] ->
  file_path <> EmptyString ->
  forallb within_limits data = true ->
  (forall p, p <> file_path ->
     files (snd (export_transcript self file_path w)) !! p = files w !! p)
  /\ (file_path ∈ unwritable w ->
      export_format_combo self <> DOCX
      \/ (exists pieces,
            render_all (segment_piece DOCX (timestamp_checkbox self)
                          (timestamp_item_text (timestamp_format_combo self))) 1 data
            = Ok pieces) ->
      snd (export_transcript self file_path w)
      = failed_export (permission_denied file_path) file_path None w)
  /\ (file_path ∉ unwritable w \/ export_format_combo self = DOCX ->
      match render_all (segment_piece (export_format_combo self) (timestamp_checkbox self)
                          (timestamp_item_text (timestamp_format_combo self))) 1 data with
      | Ok pieces =>
          file_path ∉ unwritable w ->
          snd (export_transcript self file_path w)
          = show (export_successful file_path)
              (set_files (<[file_path := assemble (export_format_combo self) pieces]> (files w))
                 w)
      | Raise _ =>
          exists k entry written err pieces,
            data !! k = Some entry
            /\ render_all (segment_piece (export_format_combo self) (timestamp_checkbox self)
                             (timestamp_item_text (timestamp_format_combo self))) 1
                 (take k data) = Ok pieces
            /\ segment_step (export_format_combo self) (timestamp_checkbox self)
                 (timestamp_item_text (timestamp_format_combo self)) (1 + Z.of_nat k) entry
               = (written, Raise err)
            /\ snd (export_transcript self file_path w)
               = failed_export err file_path
                   (unfinished (export_format_combo self) pieces written) w
      end).
Proof.
  intros Hd Hne Hp _.
  rewrite (export_transcript_body self file_path w data Hd Hne Hp).
  split; [|split].
  - pose proof (export_body_frame (export_format_combo self) file_path
                  (timestamp_checkbox self)
                  (timestamp_item_text (timestamp_format_combo self)) data w) as H.
    cbv zeta in H. destruct (export_body _ file_path _ _ data w) as [w1 r].
    cbn [fst snd] in H. destruct H as (_ & _ & Hframe & _).
    intros p Hp'. destruct r; cbn [show files]; auto.
  - intros Hw [Hf|[pieces Hr]].
    + now rewrite (export_body_denied _ _ _ _ data w Hw Hf).
    + destruct (export_format_combo self) eqn:E;
        try (rewrite (export_body_denied _ _ _ _ data w Hw) by discriminate; reflexivity).
      pose proof (export_body_outcome DOCX file_path (timestamp_checkbox self)
                    (timestamp_item_text (timestamp_format_combo self)) data w Hne
                    (or_intror eq_refl)) as H.
      rewrite Hr in H. rewrite H.
      destruct (decide (file_path ∈ unwritable w)); [reflexivity|contradiction].
  - intros Hw.
    pose proof (export_body_outcome (export_format_combo self) file_path
                  (timestamp_checkbox self)
                  (timestamp_item_text (timestamp_format_combo self)) data w Hne Hw) as H.
    destruct (render_all _ 1 data) as [ps|].
    + intros Hopen. rewrite H.
      destruct (decide (file_path ∈ unwritable w)); [contradiction|reflexivity].
    + destruct H as (k & x & s & err & ps & Hx & Hps & Hstep & ->).
      exists k, x, s, err, ps. auto.
Qed.

Lemma export_reports_one_outcome_witness :
  snd (export_transcript (window (Some example_transcript) CSV true mm_ss) "out.csv"
         (world_with "out.csv" (TextFile "an earlier export")))
  = show (export_successful "out.csv")
      (set_files
         (<["out.csv" := TextFile ("Start Time,Text,Duration" +:+ crlf
                                   +:+ "00:05,Hello,2.5" +:+ crlf
                                   +:+ "00:10,World,1" +:+ crlf)]>
            (files (world_with "out.csv" (TextFile "an earlier export"))))
         (world_with "out.csv" (TextFile "an earlier export")))
  /\ snd (export_transcript (window (Some broken_transcript) CSV true mm_ss) "out.csv"
            (world_with "out.csv" (TextFile "an earlier export")))
     = failed_export (KeyError "duration") "out.csv"
         (Some (TextFile ("Start Time,Text,Duration" +:+ crlf +:+ "00:05,Hello,2.5" +:+ crlf)))
         (world_with "out.csv" (TextFile "an earlier export")).
Proof.
  assert (Hopen : "out.csv" ∉ unwritable (world_with "out.csv" (TextFile "an earlier export")))
    by apply not_elem_of_empty.
  split.
  - exact (proj2 (proj2 (export_reports_one_outcome
                           (window (Some example_transcript) CSV true mm_ss) "out.csv"
                           (world_with "out.csv" (TextFile "an earlier export"))
                           example_transcript eq_refl ltac:(discriminate) ltac:(discriminate)
                           eq_refl))
             (or_introl Hopen) Hopen).
  - pose proof (proj2 (proj2 (export_reports_one_outcome
                                (window (Some broken_transcript) CSV true mm_ss) "out.csv"
                                (world_with "out.csv" (TextFile "an earlier export"))
                                broken_transcript eq_refl ltac:(discriminate)
                                ltac:(discriminate) eq_refl))
                  (or_introl Hopen)) as H.
    destruct H as (k & entry & written & err & pieces & Hk & Hps & Hstep & ->).
    destruct k as [|[|k]]; [| |discriminate].
    + injection Hk as <-. vm_compute in Hstep. discriminate.
    + injection Hk as <-. vm_compute in Hps. injection Hps as <-.
      vm_compute in Hstep. injection Hstep as <- <-. reflexivity.
Defined.

(** ** The empty transcript *)

(** C7 (as stated, refuted): exporting the empty transcript as CSV, JSON or
    subtitles creates no file at all, neither a header row nor [[]] nor an
    empty file, and shows the warning that there is no transcript. *)
Lemma export_empty_creates_no_file :
  files (snd (export_transcript (window (Some []) CSV true HH_MM_SS) "out.csv" empty_world))
    !! "out.csv" = None
  /\ files (snd (export_transcript (window (Some []) JSON true HH_MM_SS) "out.json" empty_world))
       !! "out.json" = None
  /\ files (snd (export_transcript (window (Some []) SRT true HH_MM_SS) "out.srt" empty_world))
       !! "out.srt" = None
  /\ dialogs (snd (export_transcript (window (Some []) CSV true HH_MM_SS) "out.csv" empty_world))
     = [no_transcript].
Proof. repeat split. Qed.

(** C7 (amended): for the empty transcript and every format, policy and
    destination, [export_transcript] shows the warning that there is no
    transcript to export and does nothing else: no file is created or
    changed and the window is as before. *)
Theorem export_empty_transcript self file_path w :
  transcript_data self = Some [] ->
  export_transcript self file_path w = (self, show no_transcript w)
  /\ files (snd (export_transcript self file_path w)) = files w.
Proof.
  intros H. unfold export_transcript. rewrite H. split; reflexivity.
Qed.

Lemma export_empty_transcript_witness :
  export_transcript (window (Some []) JSON false mm_ss) "out.json" empty_world
  = (window (Some []) JSON false mm_ss, show no_transcript empty_world).
Proof.
  apply (proj1 (export_empty_transcript (window (Some []) JSON false mm_ss) "out.json"
                  empty_world eq_refl)).
Defined.

(** ** Characters of strings *)

Lemma chars_text l : chars (text l) = l.
Proof. apply list_ascii_of_string_of_list_ascii. Qed.

Lemma text_chars s : text (chars s) = s.
Proof. apply string_of_list_ascii_of_string. Qed.

Lemma chars_app a b : chars (a +:+ b) = chars a ++ chars b.
Proof.
  unfold chars. induction a as [|x a IH]; [reflexivity|].
  rewrite append_cons. cbn [list_ascii_of_string]. now rewrite IH.
Qed.

Lemma chars_cons c s : chars (String c s) = c :: chars s.
Proof. reflexivity. Qed.

Lemma length_chars s : length (chars s) = String.length s.
Proof. induction s; simpl; auto. Qed.

(** ** Reading strings back *)

Lemma scan_escape_char c l :
  JsonDecoder.scan_string (Json.escape_char c ++ l) =
  JsonDecoder.prepend c (JsonDecoder.scan_string l).
Proof.
  destruct c as [[] [] [] [] [] [] [] []]; reflexivity.
Qed.

Lemma scan_string_encoded l rest :
  JsonDecoder.scan_string (flat_map Json.escape_char l ++ dquote :: rest) = Some (l, rest).
Proof.
  induction l as [|c l IH]; [reflexivity|].
  cbn [flat_map]. rewrite <- app_assoc, scan_escape_char, IH. reflexivity.
Qed.

Lemma chars_encode_str s :
  chars (Json.encode_str s) = dquote :: flat_map Json.escape_char (chars s) ++ [dquote].
Proof. unfold Json.encode_str. now rewrite chars_text. Qed.

(** ** Reading numbers back *)

Lemma span_app p a rest :
  match rest with [] => True | c :: _ => p c = false end ->
  span p (a ++ rest) = (fst (span p a), snd (span p a) ++ rest).
Proof.
  intros Hr. induction a as [|c a IH]; cbn [span app].
  - destruct rest as [|c r]; [reflexivity|]. cbn [span]. now rewrite Hr.
  - destruct (p c); [|reflexivity]. rewrite IH. now destruct (span p a).
Qed.

Lemma number_stops_digit rest :
  number_stops rest = true -> match rest with [] => True | c :: _ => is_digit c = false end.
Proof.
  destruct rest as [|c r]; [trivial|]. cbn [number_stops].
  destruct (is_digit c); [discriminate|trivial].
Qed.

(** A number that the scanner finds at the head of [l] is found again when
    [l] is followed by input that cannot continue a number. *)
Lemma scan_number_app l rest v l' :
  JsonDecoder.scan_number l = Some (v, l') ->
  number_stops rest = true ->
  JsonDecoder.scan_number (l ++ rest) = Some (v, l' ++ rest).
Proof.
  intros H Hs. pose proof (number_stops_digit rest Hs) as Hd.
  unfold JsonDecoder.scan_number in *.
  assert (Hhead : forall c t, rest = c :: t ->
            is_digit c = false /\ Ascii.eqb c "." = false /\ is_exp_mark c = false
            /\ JsonDecoder.is_sign c = false).
  { intros c t ->. cbn [number_stops] in Hs.
    destruct (is_digit c), (Ascii.eqb c "."), (is_exp_mark c), (JsonDecoder.is_sign c);
      try discriminate; auto. }
  (* the sign *)
  destruct l as [|c0 l0]; [discriminate|]. cbn [app].
  set (sl := if Ascii.eqb c0 "-" then ([c0], l0) else ([], c0 :: l0)) in *.
  assert (Hsl : (if Ascii.eqb c0 "-" then ([c0], l0 ++ rest) else ([], c0 :: l0 ++ rest))
                = (fst sl, snd sl ++ rest)).
  { subst sl. destruct (Ascii.eqb c0 "-"); reflexivity. }
  rewrite Hsl. destruct sl as [sign l1]. cbn [fst snd].
  (* the integer part *)
  destruct l1 as [|c t]; [discriminate|]. cbn [app].
  destruct (is_digit c); [|discriminate].
  set (il := if Ascii.eqb c "0" then ([c], t)
             else let '(ds, r) := span is_digit t in (c :: ds, r)) in *.
  assert (Hil : (if Ascii.eqb c "0" then ([c], t ++ rest)
                 else let '(ds, r) := span is_digit (t ++ rest) in (c :: ds, r))
                = (fst il, snd il ++ rest)).
  { subst il. destruct (Ascii.eqb c "0"); [reflexivity|].
    rewrite (span_app _ t rest Hd). now destruct (span is_digit t). }
  rewrite Hil. destruct il as [ip l2]. cbn [fst snd].
  (* the fraction *)
  set (fl := match l2 with
             | d :: t2 =>
                 if Ascii.eqb d "." then
                   match span is_digit t2 with
                   | ([], _) => ([], l2)
                   | (ds, r) => (d :: ds, r)
                   end
                 else ([], l2)
             | [] => ([], [])
             end) in *.
  assert (Hfl : match l2 ++ rest with
                | d :: t2 =>
                    if Ascii.eqb d "." then
                      match span is_digit t2 with
                      | ([], _) => ([], l2 ++ rest)
                      | (ds, r) => (d :: ds, r)
                      end
                    else ([], l2 ++ rest)
                | [] => ([], [])
                end = (fst fl, snd fl ++ rest)).
  { subst fl. destruct l2 as [|d t2]; cbn [app].
    - destruct rest as [|c1 r1]; [reflexivity|].
      destruct (Hhead c1 r1 eq_refl) as (_ & -> & _). reflexivity.
    - destruct (Ascii.eqb d "."); [|reflexivity].
      rewrite (span_app _ t2 rest Hd). destruct (span is_digit t2) as [[|x ds] r]; reflexivity. }
  rewrite Hfl. destruct fl as [fp l3]. cbn [fst snd].
  (* the exponent *)
  set (el := match l3 with
             | e :: t3 =>
                 if is_exp_mark e then
                   let '(sg, t4) :=
                     match t3 with
                     | s :: t' => if JsonDecoder.is_sign s then ([s], t') else ([], t3)
                     | [] => ([], [])
                     end in
                   match span is_digit t4 with
                   | ([], _) => ([], l3)
                   | (ds, r) => (e :: sg ++ ds, r)
                   end
                 else ([], l3)
             | [] => ([], [])
             end) in *.
  assert (Hel : match l3 ++ rest with
                | e :: t3 =>
                    if is_exp_mark e then
                      let '(sg, t4) :=
                        match t3 with
                        | s :: t' => if JsonDecoder.is_sign s then ([s], t') else ([], t3)
                        | [] => ([], [])
                        end in
                      match span is_digit t4 with
                      | ([], _) => ([], l3 ++ rest)
                      | (ds, r) => (e :: sg ++ ds, r)
                      end
                    else ([], l3 ++ rest)
                | [] => ([], [])
                end = (fst el, snd el ++ rest)).
  { subst el. destruct l3 as [|e t3]; cbn [app].
    - destruct rest as [|c1 r1]; [reflexivity|].
      destruct (Hhead c1 r1 eq_refl) as (_ & _ & -> & _). reflexivity.
    - destruct (is_exp_mark e); [|reflexivity].
      destruct t3 as [|s t']; cbn [app].
      + destruct rest as [|c1 r1]; [reflexivity|].
        destruct (Hhead c1 r1 eq_refl) as (D & _ & _ & ->). cbn [span]. now rewrite D.
      + destruct (JsonDecoder.is_sign s).
        * rewrite (span_app _ t' rest Hd).
          destruct (span is_digit t') as [[|x ds] r]; reflexivity.
        * change (s :: t' ++ rest) with ((s :: t') ++ rest).
          rewrite (span_app _ (s :: t') rest Hd).
          destruct (span is_digit (s :: t')) as [[|x ds] r]; reflexivity. }
  rewrite Hel. destruct el as [ep l4]. cbn [fst snd].
  destruct fp, ep;
    try (destruct (float_of_str _); [|discriminate]);
    injection H as <- <-; reflexivity.
Qed.

(** The digits of a decimal numeral, as characters. *)
Lemma chars_of_uint_digits d :
  Forall (fun c => is_digit c = true) (chars (NilEmpty.string_of_uint d)).
Proof.
  induction d; cbn; constructor; auto.
Qed.

Lemma span_all_digits l :
  Forall (fun c => is_digit c = true) l -> span is_digit l = (l, []).
Proof.
  induction 1 as [|c l Hc _ IH]; [reflexivity|]. cbn [span]. now rewrite Hc, IH.
Qed.

Lemma digits_fold d :
  forall acc,
    fold_left (fun a c => 10 * a + digit_value c) (chars (NilEmpty.string_of_uint d)) (Zpos acc)
    = Zpos (Pos.of_uint_acc d acc).
Proof.
  induction d; intros acc; cbn [NilEmpty.string_of_uint chars list_ascii_of_string fold_left
                                  Pos.of_uint_acc];
    [reflexivity|..];
    match goal with
    | |- fold_left _ _ ?a = _ =>
        match goal with
        | |- _ = Zpos (Pos.of_uint_acc _ ?b) => replace a with (Zpos b) by (vm_compute digit_value; lia)
        end
    end; apply IHd.
Qed.

(** The numeral of a positive number starts with a digit that is not zero. *)
Lemma nzhead_not_zero d d' : Decimal.nzhead d <> Decimal.D0 d'.
Proof. induction d; cbn; auto; discriminate. Qed.

Lemma to_uint_head p :
  match Pos.to_uint p with
  | Decimal.Nil | Decimal.D0 _ => False
  | _ => True
  end.
Proof.
  pose proof (DecimalPos.Unsigned.to_of (Pos.to_uint p)) as H.
  rewrite DecimalPos.Unsigned.of_to in H. cbn [N.to_uint] in H.
  pose proof (DecimalPos.Unsigned.to_uint_nonzero p) as Hz.
  pose proof (DecimalPos.Unsigned.to_uint_nonnil p) as Hn.
  destruct (Pos.to_uint p) as [|d|d|d|d|d|d|d|d|d|d]; auto.
  unfold Decimal.unorm in H. cbn [Decimal.nzhead] in H.
  destruct (Decimal.nzhead d) eqn:N; try discriminate.
  - injection H as ->. now apply Hz.
  - now apply nzhead_not_zero in N.
Qed.

(** The decoder reads the numeral of an int back as that int. *)
Lemma scan_number_int z :
  JsonDecoder.scan_number (chars (str_of_Z z)) = Some (VInt z, []).
Proof.
  unfold str_of_Z. destruct z as [|p|p]; [reflexivity|..];
    cbn [Z.to_int NilZero.string_of_int];
    pose proof (to_uint_head p) as Hh;
    pose proof (DecimalPos.Unsigned.of_to p) as Hv;
    pose proof (chars_of_uint_digits (Pos.to_uint p)) as Hd;
    unfold Pos.to_int, NilZero.string_of_uint;
    destruct (Pos.to_uint p) as [|d|d|d|d|d|d|d|d|d|d]; try contradiction;
    cbn [NilEmpty.string_of_uint chars list_ascii_of_string] in Hd |- *;
    inversion Hd as [|? ? Hc Hd']; subst;
    unfold JsonDecoder.scan_number;
    cbn [Ascii.eqb Bool.eqb andb];
    rewrite Hc, (span_all_digits _ Hd');
    cbn [app]; unfold digits_value; cbn [fold_left];
    cbn [Pos.of_uint] in Hv; injection Hv as Hv;
    match goal with
    | |- context [fold_left _ _ ?a] =>
        match type of Hv with
        | Pos.of_uint_acc _ ?b = _ => replace a with (Zpos b) by (vm_compute digit_value; lia)
        end
    end;
    rewrite digits_fold, Hv; reflexivity.
Qed.

(** ** Reading values back *)

Lemma float_eqb_eq x y : float_eqb x y = true -> x = y.
Proof.
  destruct x as [a|a| |a m e], y as [b|b| |b n f]; cbn; try discriminate; auto.
  - intros H. apply Bool.eqb_prop in H. now subst.
  - intros H. apply Bool.eqb_prop in H. now subst.
  - intros H. apply andb_prop in H as [H He]. apply andb_prop in H as [Hs Hm].
    apply Bool.eqb_prop in Hs. apply Pos.eqb_eq in Hm. apply Z.eqb_eq in He.
    now subst.
Qed.

Lemma skip_ws_spaces n l :
  JsonDecoder.skip_ws (repeat " "%char n ++ l) = JsonDecoder.skip_ws l.
Proof. induction n; cbn; auto. Qed.

Lemma skip_ws_indent indent level l :
  JsonDecoder.skip_ws (chars (Json.newline_indent indent level) ++ l) = JsonDecoder.skip_ws l.
Proof.
  unfold Json.newline_indent. rewrite chars_app, chars_text, <- app_assoc.
  cbn [chars nl list_ascii_of_string app JsonDecoder.skip_ws].
  change (JsonDecoder.is_ws lf) with true. cbv iota. apply skip_ws_spaces.
Qed.

(** A value starts with a character that is neither white space nor a
    closing bracket. *)
Lemma decode_value_head fuel c t r :
  JsonDecoder.decode_value fuel (c :: t) = Some r ->
  JsonDecoder.is_ws c = false /\ Ascii.eqb c "]" = false /\ Ascii.eqb c "}" = false.
Proof.
  destruct fuel as [|f]; [discriminate|].
  destruct c as [[] [] [] [] [] [] [] []]; intros H;
    try (repeat split; reflexivity); exfalso; revert H; clear;
    cbn [JsonDecoder.decode_value Ascii.eqb Bool.eqb andb JsonDecoder.after chars
           list_ascii_of_string];
    unfold JsonDecoder.scan_number;
    cbn [Ascii.eqb Bool.eqb andb]; cbv beta iota;
    match goal with
    | |- context [is_digit ?c] => change (is_digit c) with false
    end; discriminate.
Qed.

Lemma decode_value_skip_ws fuel l r :
  JsonDecoder.decode_value fuel l = Some r -> JsonDecoder.skip_ws l = l.
Proof.
  destruct l as [|c t]; [reflexivity|]. intros H.
  apply decode_value_head in H as (H & _). cbn [JsonDecoder.skip_ws]. now rewrite H.
Qed.

Lemma scan_number_head c t r :
  JsonDecoder.scan_number (c :: t) = Some r -> (Ascii.eqb c "-" || is_digit c) = true.
Proof.
  unfold JsonDecoder.scan_number.
  destruct (Ascii.eqb c "-"); [reflexivity|].
  destruct (is_digit c); [reflexivity|discriminate].
Qed.

(** Where a number starts, the decoder takes the number. *)
Lemma decode_value_number f l r :
  JsonDecoder.scan_number l = Some r -> JsonDecoder.decode_value (S f) l = Some r.
Proof.
  intros H. destruct l as [|c t]; [discriminate|].
  pose proof (scan_number_head c t r H) as Hc.
  destruct c as [[] [] [] [] [] [] [] []]; try discriminate Hc;
    cbn [JsonDecoder.decode_value Ascii.eqb Bool.eqb andb JsonDecoder.after chars
           list_ascii_of_string];
    now rewrite H.
Qed.

Lemma dict_set_fresh d key v :
  existsb (String.eqb key) (map fst d) = false ->
  JsonDecoder.dict_set d key v = d ++ [(key, v)].
Proof.
  induction d as [|[k w] t IH]; cbn [map fst existsb JsonDecoder.dict_set app]; [reflexivity|].
  intros H. apply orb_false_elim in H as [Hk Ht].
  rewrite String.eqb_sym, Hk, IH by assumption. reflexivity.
Qed.

Lemma distinct_app_one l k :
  distinct (l ++ [k]) = distinct l && negb (existsb (fun x => String.eqb x k) l).
Proof.
  induction l as [|a l IH]; [reflexivity|].
  cbn [app distinct existsb]. rewrite IH, existsb_app. cbn [existsb].
  rewrite orb_false_r, !negb_orb, (String.eqb_sym a k).
  destruct (String.eqb k a), (existsb (String.eqb a) l), (distinct l),
    (existsb (fun x => String.eqb x k) l); reflexivity.
Qed.

Lemma existsb_eqb_sym k l :
  existsb (String.eqb k) l = existsb (fun x => String.eqb x k) l.
Proof. induction l as [|a l IH]; cbn; [reflexivity|]. now rewrite IH, String.eqb_sym. Qed.

(** A dict built from pairs with distinct keys has these pairs. *)
Lemma dict_of_pairs_distinct pairs :
  distinct (map fst pairs) = true -> JsonDecoder.dict_of_pairs pairs = pairs.
Proof.
  unfold JsonDecoder.dict_of_pairs.
  enough (H : forall acc,
             distinct (map fst (acc ++ pairs)) = true ->
             fold_left (fun d kv => JsonDecoder.dict_set d (fst kv) (snd kv)) pairs acc
             = acc ++ pairs) by apply (H []).
  induction pairs as [|[k v] t IH]; intros acc H; cbn [fold_left fst snd].
  - now rewrite app_nil_r.
  - replace (acc ++ (k, v) :: t) with ((acc ++ [(k, v)]) ++ t) in * by now rewrite <- app_assoc.
    rewrite dict_set_fresh.
    + now apply IH.
    + rewrite !map_app in H. cbn [map fst] in H.
      assert (Hd : distinct (map fst acc ++ [k]) = true).
      { clear IH. revert H. generalize (map fst acc ++ [k]). intros l.
        induction l as [|a l IHl]; [reflexivity|]. cbn [app distinct].
        intros H. apply andb_prop in H as [H1 H2]. rewrite (IHl H2), andb_true_r.
        rewrite existsb_app, negb_orb in H1. now apply andb_prop in H1 as [H1 _]. }
      rewrite distinct_app_one in Hd. apply andb_prop in Hd as [_ Hd].
      rewrite existsb_eqb_sym. now destruct (existsb _ (map fst acc)).
Qed.

Lemma join_cons2 sep a b t : join sep (a :: b :: t) = a +:+ sep +:+ join sep (b :: t).
Proof. reflexivity. Qed.

Lemma number_stops_indent indent level l :
  number_stops (chars (Json.newline_indent indent level) ++ l) = true.
Proof.
  unfold Json.newline_indent. rewrite chars_app. reflexivity.
Qed.

Lemma decode_items_encoded level items :
  Forall reads_back_as_encoded items ->
  forallb jsonable items = true ->
  items <> [] ->
  forall fuel rest,
    (list_sum (map (fun x => S (weight x)) items) <= fuel)%nat ->
    JsonDecoder.decode_items fuel
      (chars (join ("," +:+ Json.newline_indent 4 (S level))
                (map (Json.encode 4 (S level)) items))
       ++ chars (Json.newline_indent 4 level) ++ "]"%char :: rest)
    = Some (items, rest).
Proof.
  induction 1 as [|v items Hv _ IH]; intros Hj Hne fuel rest Hf; [contradiction|].
  cbn [forallb] in Hj. apply andb_prop in Hj as [Hjv Hjs].
  cbn [map list_sum fold_right] in Hf.
  destruct fuel as [|f]; [lia|]. cbn [JsonDecoder.decode_items].
  destruct items as [|v' items].
  - cbn [map join].
    rewrite (Hv Hjv (S level) f); [|lia|apply number_stops_indent].
    rewrite skip_ws_indent. reflexivity.
  - cbn [map]. rewrite join_cons2, !chars_app, <- !app_assoc.
    rewrite (Hv Hjv (S level) f); [|lia|reflexivity].
    cbn [chars list_ascii_of_string app JsonDecoder.skip_ws].
    change (JsonDecoder.is_ws ",") with false. cbv iota.
    change (Ascii.eqb "," "]") with false. change (Ascii.eqb "," ",") with true. cbv iota.
    rewrite skip_ws_indent.
    specialize (IH Hjs ltac:(discriminate) f rest ltac:(cbn [map list_sum fold_right] in *; lia)).
    cbn [map] in IH.
    assert (Hs : forall l r, JsonDecoder.decode_items f l = Some r -> JsonDecoder.skip_ws l = l).
    { intros l r. destruct f as [|f']; [discriminate|]. cbn [JsonDecoder.decode_items].
      destruct (JsonDecoder.decode_value f' l) as [[x y]|] eqn:E; [|discriminate].
      intros _. eapply decode_value_skip_ws, E. }
    rewrite (Hs _ _ IH), IH. reflexivity.
Qed.

Lemma decode_members_encoded level d :
  Forall (fun kv => reads_back_as_encoded (snd kv)) d ->
  forallb (fun kv => jsonable (snd kv)) d = true ->
  d <> [] ->
  forall fuel rest,
    (list_sum (map (fun kv => S (weight (snd kv))) d) <= fuel)%nat ->
    JsonDecoder.decode_members fuel
      (chars (join ("," +:+ Json.newline_indent 4 (S level))
                (map (fun kv => Json.encode_str (fst kv) +:+ ": "
                                +:+ Json.encode 4 (S level) (snd kv)) d))
       ++ chars (Json.newline_indent 4 level) ++ "}"%char :: rest)
    = Some (d, rest).
Proof.
  induction 1 as [|[k v] d Hv _ IH]; intros Hj Hne fuel rest Hf; [contradiction|].
  cbn [forallb snd] in Hj. apply andb_prop in Hj as [Hjv Hjs].
  cbn [map list_sum fold_right snd fst] in Hf. cbn [snd] in Hv.
  destruct fuel as [|f]; [lia|].
  assert (Hm : forall more,
             number_stops more = true ->
             JsonDecoder.decode_members (S f)
               (chars (Json.encode_str k +:+ ": " +:+ Json.encode 4 (S level) v) ++ more)
             = match JsonDecoder.skip_ws more with
               | c2 :: t2 =>
                   if Ascii.eqb c2 "}" then Some ([(k, v)], t2)
                   else if Ascii.eqb c2 ","
                        then JsonDecoder.prepend (k, v)
                               (JsonDecoder.decode_members f (JsonDecoder.skip_ws t2))
                        else None
               | [] => None
               end).
  { intros more Hmore. rewrite !chars_app, chars_encode_str.
    cbn [app]. rewrite <- !app_assoc. cbn [app JsonDecoder.decode_members].
    change (Ascii.eqb dquote dquote) with true. cbv iota.
    rewrite scan_string_encoded.
    change (chars ": ") with [":"%char; " "%char].
    cbn [app JsonDecoder.skip_ws].
    change (JsonDecoder.is_ws ":") with false. cbv iota.
    change (Ascii.eqb ":" ":") with true. cbv iota.
    cbn [JsonDecoder.skip_ws].
    change (JsonDecoder.is_ws " ") with true. cbv iota.
    pose proof (Hv Hjv (S level) f more ltac:(lia) Hmore) as E.
    rewrite (decode_value_skip_ws _ _ _ E), E, text_chars. reflexivity. }
  destruct d as [|[k' v'] d].
  - cbn [map join fst snd]. rewrite Hm by apply number_stops_indent.
    rewrite skip_ws_indent. reflexivity.
  - cbn [map fst snd]. rewrite join_cons2.
    rewrite (chars_app (Json.encode_str k +:+ ": " +:+ Json.encode 4 (S level) v)).
    rewrite (chars_app ("," +:+ Json.newline_indent 4 (S level))).
    rewrite (chars_app ","), <- !app_assoc.
    rewrite Hm by reflexivity.
    change (chars ",") with [","%char].
    cbn [app JsonDecoder.skip_ws].
    change (JsonDecoder.is_ws ",") with false. cbv iota.
    change (Ascii.eqb "," "}") with false. change (Ascii.eqb "," ",") with true. cbv iota.
    rewrite skip_ws_indent.
    specialize (IH Hjs ltac:(discriminate) f rest ltac:(cbn [map list_sum fold_right snd] in *; lia)).
    cbn [map fst snd] in IH.
    assert (Hs : forall l r, JsonDecoder.decode_members f l = Some r -> JsonDecoder.skip_ws l = l).
    { intros l r. destruct f as [|f']; [discriminate|]. cbn [JsonDecoder.decode_members].
      destruct l as [|c t]; [discriminate|].
      destruct (Ascii.eqb_spec c dquote) as [->|]; [reflexivity|discriminate]. }
    rewrite (Hs _ _ IH), IH. reflexivity.
Qed.

(** The decoder reads the encoding of a value back as that value, whatever
    the nesting depth it was written at, when what follows cannot continue
    a number. *)
Lemma decode_encoded v : reads_back_as_encoded v.
Proof.
  induction v as [|b|z|x|s|l IH|d IH] using obj_ind;
    intros Hj level fuel rest Hf Hs;
    (destruct fuel as [|f]; [cbn in Hf; lia|]).
  - reflexivity.
  - destruct b; reflexivity.
  - apply decode_value_number. cbn [Json.encode].
    apply (scan_number_app _ rest _ []); [apply scan_number_int|exact Hs].
  - cbn [jsonable] in Hj. cbn [Json.encode].
    destruct x as [sx|sx| |sx m e]; try (destruct sx; reflexivity); try reflexivity;
      apply decode_value_number; unfold float_reads_back in Hj;
      match type of Hj with
      | match JsonDecoder.scan_number ?l with _ => _ end = true =>
          destruct (JsonDecoder.scan_number l) as [[[| | |y| | |] [|c r]]|] eqn:E;
          try discriminate Hj
      end;
      apply float_eqb_eq in Hj; subst y;
      apply (scan_number_app _ rest _ [] E Hs).
  - cbn [Json.encode]. rewrite chars_encode_str. cbn [app]. rewrite <- app_assoc.
    cbn [app JsonDecoder.decode_value].
    change (Ascii.eqb dquote dquote) with true. cbv iota.
    now rewrite scan_string_encoded, text_chars.
  - destruct l as [|a l]; [reflexivity|].
    cbn [jsonable] in Hj. cbn [weight] in Hf.
    change (Json.encode 4 level (VList (a :: l)))
      with ("[" +:+ Json.newline_indent 4 (S level)
            +:+ join ("," +:+ Json.newline_indent 4 (S level))
                  (map (Json.encode 4 (S level)) (a :: l))
            +:+ Json.newline_indent 4 level +:+ "]").
    rewrite (chars_app "["), (chars_app (Json.newline_indent 4 (S level))),
      (chars_app (join _ _)), (chars_app (Json.newline_indent 4 level)), <- !app_assoc.
    change (chars "[") with ["["%char]. change (chars "]") with ["]"%char].
    cbn [app JsonDecoder.decode_value].
    change (Ascii.eqb "[" dquote) with false. change (Ascii.eqb "[" "{") with false.
    change (Ascii.eqb "[" "[") with true. cbv iota.
    rewrite skip_ws_indent.
    pose proof (decode_items_encoded level (a :: l) IH Hj ltac:(discriminate) f rest
                  ltac:(lia)) as E.
    assert (Hhd : exists c t,
               chars (join ("," +:+ Json.newline_indent 4 (S level))
                        (map (Json.encode 4 (S level)) (a :: l)))
               ++ chars (Json.newline_indent 4 level) ++ "]"%char :: rest = c :: t
               /\ JsonDecoder.is_ws c = false /\ Ascii.eqb c "]" = false).
    { destruct f as [|f']; [discriminate|]. cbn [JsonDecoder.decode_items] in E.
      destruct (JsonDecoder.decode_value f' _) as [[x y]|] eqn:V; [|discriminate].
      destruct (chars _ ++ _) as [|c t]; [destruct f'; discriminate|].
      apply decode_value_head in V as (W & B & _). eauto. }
    destruct Hhd as (c & t & Heq & W & B). rewrite Heq in *.
    cbn [JsonDecoder.skip_ws]. rewrite W, B, E. reflexivity.
  - destruct d as [|[k a] d]; [reflexivity|].
    cbn [jsonable] in Hj. apply andb_prop in Hj as [Hk Hj]. cbn [weight] in Hf.
    change (Json.encode 4 level (VDict ((k, a) :: d)))
      with ("{" +:+ Json.newline_indent 4 (S level)
            +:+ join ("," +:+ Json.newline_indent 4 (S level))
                  (map (fun kv => Json.encode_str (fst kv) +:+ ": "
                                  +:+ Json.encode 4 (S level) (snd kv)) ((k, a) :: d))
            +:+ Json.newline_indent 4 level +:+ "}").
    rewrite (chars_app "{"), (chars_app (Json.newline_indent 4 (S level))),
      (chars_app (join _ _)), (chars_app (Json.newline_indent 4 level)), <- !app_assoc.
    change (chars "{") with ["{"%char]. change (chars "}") with ["}"%char].
    cbn [app JsonDecoder.decode_value].
    change (Ascii.eqb "{" dquote) with false. change (Ascii.eqb "{" "{") with true. cbv iota.
    rewrite skip_ws_indent.
    pose proof (decode_members_encoded level ((k, a) :: d) IH Hj ltac:(discriminate) f rest
                  ltac:(lia)) as E.
    assert (Hhd : exists t,
               chars (join ("," +:+ Json.newline_indent 4 (S level))
                        (map (fun kv => Json.encode_str (fst kv) +:+ ": "
                                        +:+ Json.encode 4 (S level) (snd kv)) ((k, a) :: d)))
               ++ chars (Json.newline_indent 4 level) ++ "}"%char :: rest = dquote :: t).
    { destruct f as [|f']; [discriminate|]. cbn [JsonDecoder.decode_members] in E.
      destruct (chars _ ++ _) as [|c t]; [discriminate|].
      destruct (Ascii.eqb_spec c dquote) as [->|]; [eauto|discriminate]. }
    destruct Hhd as (t & Heq). rewrite Heq in *.
    cbn [JsonDecoder.skip_ws].
    change (JsonDecoder.is_ws dquote) with false. change (Ascii.eqb dquote "}") with false.
    cbv iota. rewrite E, (dict_of_pairs_distinct _ Hk). reflexivity.
Qed.

(** ** The fuel of [loads] suffices *)

Lemma length_append a b : String.length (a +:+ b) = (String.length a + String.length b)%nat.
Proof. now rewrite <- !length_chars, chars_app, length_app. Qed.

Lemma scan_number_nonempty s r :
  JsonDecoder.scan_number (chars s) = Some r -> (1 <= String.length s)%nat.
Proof.
  rewrite <- length_chars. destruct (chars s); [discriminate|]. cbn [length]. lia.
Qed.

Lemma length_newline_indent indent level :
  (1 <= String.length (Json.newline_indent indent level))%nat.
Proof. unfold Json.newline_indent. rewrite length_append. cbn. lia. Qed.

Lemma weight_of_joined (sep : string) (enc : obj -> string) items :
  (1 <= String.length sep)%nat ->
  Forall (fun x => (weight x <= String.length (enc x))%nat) items ->
  items <> [] ->
  (list_sum (map (fun x => S (weight x)) items)
   <= S (String.length (join sep (map enc items))))%nat.
Proof.
  intros Hsep. induction 1 as [|a items Ha _ IH]; intros Hne; [contradiction|].
  destruct items as [|b items]; cbn [map list_sum fold_right] in *.
  - cbn [join]. lia.
  - rewrite join_cons2, !length_append. specialize (IH ltac:(discriminate)). lia.
Qed.

Lemma weight_le_length v :
  jsonable v = true -> forall level, (weight v <= String.length (Json.encode 4 level v))%nat.
Proof.
  induction v as [|b|z|x|s|l IH|d IH] using obj_ind; intros Hj level.
  - cbn. lia.
  - destruct b; cbn; lia.
  - cbn [weight Json.encode]. eapply scan_number_nonempty, scan_number_int.
  - cbn [weight Json.encode]. cbn [jsonable] in Hj.
    destruct x as [sx|sx| |sx m e]; try (destruct sx; cbn; lia); try (cbn; lia).
    unfold float_reads_back in Hj.
    destruct (JsonDecoder.scan_number _) eqn:E; [|discriminate].
    eapply scan_number_nonempty, E.
  - cbn [weight Json.encode]. unfold Json.encode_str.
    rewrite <- length_chars, chars_text. cbn [length]. lia.
  - destruct l as [|a l]; [cbn; lia|].
    cbn [jsonable] in Hj. cbn [weight].
    change (Json.encode 4 level (VList (a :: l)))
      with ("[" +:+ Json.newline_indent 4 (S level)
            +:+ join ("," +:+ Json.newline_indent 4 (S level))
                  (map (Json.encode 4 (S level)) (a :: l))
            +:+ Json.newline_indent 4 level +:+ "]").
    rewrite !length_append.
    pose proof (length_newline_indent 4 level).
    pose proof (length_newline_indent 4 (S level)).
    pose proof (weight_of_joined ("," +:+ Json.newline_indent 4 (S level))
                  (Json.encode 4 (S level)) (a :: l)) as W.
    rewrite length_append in W. specialize (W ltac:(lia)).
    assert (HF : Forall (fun x => (weight x <= String.length (Json.encode 4 (S level) x))%nat)
                   (a :: l)).
    { apply List.Forall_forall. intros x Hx. rewrite forallb_forall in Hj.
      rewrite List.Forall_forall in IH. apply IH; auto. }
    specialize (W HF ltac:(discriminate)). cbn [String.length] in *. lia.
  - destruct d as [|[k a] d]; [cbn; lia|].
    cbn [jsonable] in Hj. apply andb_prop in Hj as [_ Hj]. cbn [weight].
    change (Json.encode 4 level (VDict ((k, a) :: d)))
      with ("{" +:+ Json.newline_indent 4 (S level)
            +:+ join ("," +:+ Json.newline_indent 4 (S level))
                  (map (fun kv => Json.encode_str (fst kv) +:+ ": "
                                  +:+ Json.encode 4 (S level) (snd kv)) ((k, a) :: d))
            +:+ Json.newline_indent 4 level +:+ "}").
    rewrite !length_append.
    pose proof (length_newline_indent 4 level).
    pose proof (length_newline_indent 4 (S level)).
    assert (W : (list_sum (map (fun kv => S (weight (snd kv))) ((k, a) :: d))
                 <= S (String.length
                         (join ("," +:+ Json.newline_indent 4 (S level))
                            (map (fun kv => Json.encode_str (fst kv) +:+ ": "
                                            +:+ Json.encode 4 (S level) (snd kv))
                               ((k, a) :: d)))))%nat).
    { assert (Hne : (k, a) :: d <> []) by discriminate.
      revert Hne IH Hj. generalize ((k, a) :: d). clear k a d.
      intros items Hne IH Hj. induction items as [|[k a] items IHi]; [contradiction|].
      inversion IH as [|? ? Ha IH']; subst. cbn [forallb snd] in Hj.
      apply andb_prop in Hj as [Hja Hj]. cbn [snd] in Ha.
      specialize (Ha Hja (S level)).
      destruct items as [|[k' b] items]; cbn [map list_sum fold_right fst snd] in *.
      - cbn [join]. rewrite !length_append. lia.
      - rewrite join_cons2, !length_append.
        specialize (IHi ltac:(discriminate) IH' Hj). lia. }
    cbn [String.length] in *. lia.
Qed.

(** [json.loads(json.dumps(v, indent=4))] is [v]. *)
Lemma loads_encoded v :
  jsonable v = true -> JsonDecoder.loads (Json.encode 4 0 v) = Some v.
Proof.
  intros Hj. unfold JsonDecoder.loads.
  pose proof (decode_encoded v Hj 0%nat (S (String.length (Json.encode 4 0 v))) []
                ltac:(pose proof (weight_le_length v Hj 0%nat); lia) eq_refl) as E.
  rewrite app_nil_r in E.
  rewrite (decode_value_skip_ws _ _ _ E), E. reflexivity.
Qed.

(** ** The JSON export *)

(** C6: two windows that hold the same transcript and have JSON selected
    leave the same files and message boxes behind, whatever their timestamp
    check boxes and styles are; the file of a non-empty transcript is the
    array of its records as they are, encoded with an indentation of four;
    and decoding this file gives the records back, when their floats read
    back from their shortest representation and no record has a key twice. *)
Theorem export_json_raw_records self self' file_path w :
  transcript_data self' = transcript_data self ->
  export_format_combo self = JSON ->
  export_format_combo self' = JSON ->
  snd (export_transcript self' file_path w) = snd (export_transcript self file_path w)
  /\ forall data,
       transcript_data self = Some data ->
       data <> [] ->
       file_path <> EmptyString ->
       file_path ∉ unwritable w ->
       files (snd (export_transcript self file_path w)) !! file_path
         = Some (TextFile (Json.encode 4 0 (VList data)))
       /\ (forallb jsonable data = true ->
           JsonDecoder.loads (Json.encode 4 0 (VList data)) = Some (VList data)).
Proof.
  intros Hd Hf Hf'. split.
  - unfold export_transcript. rewrite Hd, Hf, Hf'.
    destruct (transcript_data self) as [[|e t]|]; try reflexivity.
    destruct (String.eqb file_path EmptyString); [reflexivity|].
    change (lower (export_item_text JSON)) with "json". unfold export_body.
    cbn [String.eqb Ascii.eqb Bool.eqb].
    destruct (with_open w file_path _) as [w1 r]. reflexivity.
  - intros data Hdata Hne Hp Hw.
    pose proof (export_transcript_outcome self file_path w data Hdata Hne Hp Hw) as H.
    rewrite Hf, json_render_all in H. rewrite H.
    cbn [snd show set_files files assemble]. rewrite chunks_map_chunk.
    split.
    + rewrite lookup_insert_files. destruct data as [|e t]; [contradiction|]. reflexivity.
    + intros Hj. apply loads_encoded. exact Hj.
Qed.

Lemma export_json_raw_records_witness :
  snd (export_transcript (window (Some example_transcript) JSON true HH_MM_SS)
         "out.json" empty_world)
  = snd (export_transcript (window (Some example_transcript) JSON false mm_ss)
           "out.json" empty_world)
  /\ JsonDecoder.loads (Json.encode 4 0 (VList example_transcript))
     = Some (VList example_transcript).
Proof.
  pose proof (export_json_raw_records
                (window (Some example_transcript) JSON false mm_ss)
                (window (Some example_transcript) JSON true HH_MM_SS)
                "out.json" empty_world eq_refl eq_refl eq_refl) as [H1 H2].
  split; [exact H1|].
  apply (H2 example_transcript eq_refl ltac:(discriminate) ltac:(discriminate)
           ltac:(apply not_elem_of_empty)).
  vm_compute. reflexivity.
Defined.

(** ** Splitting strings *)

Lemma split_from_head sep s :
  forall skip cur, exists q rest, PyStr.split_from sep skip cur s = (cur ++ q) :: rest.
Proof.
  induction s as [|c t IH]; intros skip cur; cbn [PyStr.split_from].
  - exists [], []. now rewrite app_nil_r.
  - destruct skip as [|k]; [|apply IH].
    destruct (PyStr.starts_with sep (c :: t)).
    + exists [], (PyStr.split_from sep (length sep - 1) [] t). now rewrite app_nil_r.
    + destruct (IH 0%nat (cur ++ [c])) as (q & rest & ->).
      exists (c :: q), rest. now rewrite <- app_assoc.
Qed.

(** There is more than one piece exactly when the separator occurs. *)
Lemma split_from_pieces sep s :
  sep <> [] ->
  forall cur, (1 <? Z.of_nat (length (PyStr.split_from sep 0 cur s))) = PyStr.occurs sep s.
Proof.
  intros Hsep. induction s as [|c t IH]; intros cur; cbn [PyStr.split_from PyStr.occurs].
  - destruct sep; [contradiction|reflexivity].
  - destruct (PyStr.starts_with sep (c :: t)); cbn [orb].
    + destruct (split_from_head sep t (length sep - 1) []) as (q & rest & ->).
      cbn [length]. apply Z.ltb_lt. lia.
    + apply IH.
Qed.

(** Without an occurrence of the separator the string is the only piece. *)
Lemma split_from_free sep s :
  PyStr.occurs sep s = false -> forall cur, PyStr.split_from sep 0 cur s = [cur ++ s].
Proof.
  induction s as [|c t IH]; intros H cur; cbn [PyStr.split_from PyStr.occurs] in *.
  - now rewrite app_nil_r.
  - apply orb_false_iff in H as [-> H]. rewrite (IH H). now rewrite <- app_assoc.
Qed.

Lemma occurs_one_free c s :
  existsb (Ascii.eqb c) s = false -> PyStr.occurs [c] s = false.
Proof.
  induction s as [|d t IH]; [reflexivity|].
  cbn [existsb PyStr.occurs PyStr.starts_with]. intros H.
  apply orb_false_iff in H as [-> H]. now rewrite IH.
Qed.

(** A separator of two characters cannot occur where its second character
    does not. *)
Lemma occurs_two_free a b s :
  existsb (Ascii.eqb b) s = false -> PyStr.occurs [a; b] s = false.
Proof.
  induction s as [|d t IH]; [reflexivity|].
  cbn [existsb PyStr.occurs PyStr.starts_with]. intros H.
  apply orb_false_iff in H as [Hd H]. rewrite (IH H), orb_false_r.
  destruct t as [|e t]; [now rewrite andb_false_r|].
  cbn [existsb] in H. apply orb_false_iff in H as [-> _].
  now rewrite andb_false_r.
Qed.

(** The first occurrence of a separator of one character. *)
Lemma split_from_one c p r :
  existsb (Ascii.eqb c) p = false ->
  forall cur,
    PyStr.split_from [c] 0 cur (p ++ c :: r) = (cur ++ p) :: PyStr.split_from [c] 0 [] r.
Proof.
  induction p as [|d p IH]; intros H cur; cbn [app PyStr.split_from PyStr.starts_with].
  - rewrite Ascii.eqb_refl. cbn [andb length Nat.sub]. now rewrite app_nil_r.
  - cbn [existsb] in H. apply orb_false_iff in H as [-> H]. cbn [andb].
    rewrite (IH H). now rewrite <- app_assoc.
Qed.

(** The first occurrence of a separator of two different characters. *)
Lemma split_from_two a b p r :
  a <> b ->
  PyStr.occurs [a; b] p = false ->
  forall cur,
    PyStr.split_from [a; b] 0 cur (p ++ a :: b :: r)
    = (cur ++ p) :: PyStr.split_from [a; b] 0 [] r.
Proof.
  intros Hab. induction p as [|d p IH]; intros H cur; cbn [app PyStr.split_from].
  - cbn [PyStr.starts_with]. rewrite !Ascii.eqb_refl. cbn [andb length Nat.sub].
    now rewrite app_nil_r.
  - cbn [PyStr.occurs] in H. apply orb_false_iff in H as [Hd H].
    assert (E : PyStr.starts_with [a; b] (d :: p ++ a :: b :: r) = false).
    { destruct p as [|e p]; cbn [app PyStr.starts_with] in *.
      - destruct (Ascii.eqb_spec b a) as [->|]; [contradiction|]. now rewrite andb_false_r.
      - exact Hd. }
    rewrite E, (IH H). now rewrite <- app_assoc.
Qed.

(** The last piece for a separator of one character. *)
Lemma split_from_one_last c p id :
  existsb (Ascii.eqb c) id = false ->
  forall cur, last (PyStr.split_from [c] 0 cur (p ++ c :: id)) = Some id.
Proof.
  intros Hid. induction p as [|d p IH]; intros cur; cbn [app PyStr.split_from PyStr.starts_with].
  - rewrite Ascii.eqb_refl. cbn [andb length Nat.sub].
    rewrite (split_from_free [c] id (occurs_one_free c id Hid)). reflexivity.
  - destruct (Ascii.eqb c d); cbn [andb length Nat.sub]; [|apply IH].
    specialize (IH []).
    destruct (PyStr.split_from [c] 0 [] (p ++ c :: id)); [discriminate|exact IH].
Qed.

(** No piece holds a separator of one character. *)
Lemma split_from_one_pieces c s :
  forall cur,
    existsb (Ascii.eqb c) cur = false ->
    Forall (fun piece => existsb (Ascii.eqb c) piece = false) (PyStr.split_from [c] 0 cur s).
Proof.
  induction s as [|d t IH]; intros cur H; cbn [PyStr.split_from PyStr.starts_with].
  - now constructor.
  - destruct (Ascii.eqb c d) eqn:E; cbn [andb length Nat.sub].
    + constructor; [exact H|]. now apply IH.
    + apply IH. rewrite existsb_app, H. cbn [existsb]. now rewrite E.
Qed.

Lemma getindex_first {A} (a : A) l : PyStr.getindex (a :: l) 0 = PyStr.Item a.
Proof. reflexivity. Qed.

Lemma getindex_last {A} (l : list A) a : last l = Some a -> PyStr.getindex l (-1) = PyStr.Item a.
Proof.
  intros H. unfold PyStr.getindex. change (-1 <? 0) with true. cbv iota.
  destruct l as [|x l]; [discriminate|].
  rewrite last_lookup in H. cbn [length Nat.pred] in H.
  destruct (Z.ltb_spec (-1 + Z.of_nat (length (x :: l))) 0) as [Hl|_].
  - cbn [length] in Hl. lia.
  - replace (Z.to_nat (-1 + Z.of_nat (length (x :: l)))) with (length l)
      by (cbn [length]; lia).
    now rewrite H.
Qed.

Lemma getindex_elem_of {A} (l : list A) i a : PyStr.getindex l i = PyStr.Item a -> a ∈ l.
Proof.
  unfold PyStr.getindex. destruct (_ <? 0); [discriminate|].
  destruct (l !! _) eqn:E; [|discriminate].
  intros [= <-]. eapply list_elem_of_lookup_2, E.
Qed.

(** ** [extract_video_id] *)

Lemma split_pieces s sep :
  chars sep <> [] ->
  (1 <? Z.of_nat (length (PyStr.split s sep))) = PyStr.contains sep s.
Proof.
  intros H. unfold PyStr.split, PyStr.contains. rewrite length_map.
  now apply split_from_pieces.
Qed.

Lemma split_head s sep : exists piece rest, PyStr.split s sep = piece :: rest.
Proof.
  unfold PyStr.split.
  destruct (split_from_head (chars sep) (chars s) 0%nat []) as (q & rest & ->).
  cbn [map]. eauto.
Qed.

(** X1: [extract_video_id] raises nothing, and it returns [None] exactly
    for a URL that names youtube.com without any "v=", and for a URL that
    names neither youtube.com nor youtu.be. *)
Theorem extract_video_id_none url :
  (exists r, extract_video_id url = PyStr.Item r)
  /\ (extract_video_id url = PyStr.Item None <->
      (if PyStr.contains "youtube.com" url then negb (PyStr.contains "v=" url)
       else negb (PyStr.contains "youtu.be" url)) = true).
Proof.
  unfold extract_video_id.
  destruct (PyStr.contains "youtube.com" url).
  - rewrite (split_pieces url "v=") by discriminate.
    destruct (PyStr.contains "v=" url) eqn:C; cbn [negb].
    + pose proof (split_pieces url "v=" ltac:(discriminate)) as L. rewrite C in L.
      apply Z.ltb_lt in L.
      destruct (PyStr.split url "v=") as [|p0 [|p1 ps]]; cbn [length] in L; try lia.
      change (PyStr.getindex (p0 :: p1 :: ps) 1) with (PyStr.Item p1).
      destruct (split_head p1 "&") as (id & rest & ->). rewrite getindex_first.
      split; [eauto|]. split; discriminate.
    + split; [eauto|]. split; reflexivity.
  - destruct (PyStr.contains "youtu.be" url); cbn [negb].
    + destruct (split_head url "/") as (p & rest & E). rewrite E. cbn [length Nat.eqb negb].
      destruct (last (p :: rest)) as [a|] eqn:La.
      * rewrite (getindex_last _ _ La). split; [eauto|]. split; discriminate.
      * rewrite last_None in La. discriminate.
    + split; [eauto|]. split; reflexivity.
Qed.

(** X2: a watch URL gives the video id that follows its first "v=", up to
    the next "&": when no "v=" comes earlier in the URL, and the id holds
    neither "&" nor "=", and the id ends the URL or an "&" follows it. *)
Theorem extract_video_id_watch p id rest :
  PyStr.contains "youtube.com" (p +:+ "v=" +:+ id +:+ rest) = true ->
  PyStr.contains "v=" p = false ->
  free_of "&" id = true ->
  free_of "=" id = true ->
  rest = EmptyString \/ (exists rest', rest = "&" +:+ rest') ->
  extract_video_id (p +:+ "v=" +:+ id +:+ rest) = PyStr.Item (Some id).
Proof.
  intros Hy Hp Hamp Heq Hrest. unfold extract_video_id. rewrite Hy.
  unfold free_of in Hamp, Heq. apply negb_true_iff in Hamp, Heq.
  assert (E : exists q ps,
             PyStr.split (p +:+ "v=" +:+ id +:+ rest) "v="
             = p :: text (chars id ++ q) :: ps
             /\ (q = [] \/ exists q', q = "&"%char :: q')).
  { unfold PyStr.split. rewrite !chars_app.
    change (chars "v=") with ["v"%char; "="%char]. cbn [app].
    rewrite (split_from_two "v" "=" (chars p) _ ltac:(discriminate) Hp []).
    cbn [app map]. rewrite text_chars.
    destruct Hrest as [->|[rest' ->]].
    - change (chars EmptyString) with (@nil ascii). rewrite app_nil_r.
      rewrite (split_from_free _ _ (occurs_two_free "v" "=" _ Heq)).
      exists [], []. cbn [app map]. rewrite app_nil_r. auto.
    - rewrite chars_app. change (chars "&") with ["&"%char]. cbn [app].
      assert (F : PyStr.occurs ["v"%char; "="%char] (chars id ++ ["&"%char]) = false).
      { apply occurs_two_free. rewrite existsb_app, Heq. reflexivity. }
      pose proof (split_from_head ["v"%char; "="%char] (chars rest') 0%nat
                    (chars id ++ ["&"%char])) as (q & ps & Hq).
      assert (G : forall s cur,
                 PyStr.occurs ["v"%char; "="%char] (s ++ ["&"%char]) = false ->
                 PyStr.split_from ["v"%char; "="%char] 0 cur (s ++ "&"%char :: chars rest')
                 = PyStr.split_from ["v"%char; "="%char] 0 (cur ++ s ++ ["&"%char]) (chars rest')).
      { induction s as [|c s IH]; intros cur Hs.
        - cbn [app PyStr.split_from PyStr.starts_with]. reflexivity.
        - cbn [app PyStr.occurs] in Hs. apply orb_false_iff in Hs as [Hc Hs].
          cbn [app PyStr.split_from].
          assert (Hc' : PyStr.starts_with ["v"%char; "="%char]
                          (c :: s ++ "&"%char :: chars rest') = false).
          { destruct s as [|d s]; cbn [app PyStr.starts_with] in *.
            - now rewrite andb_false_r.
            - exact Hc. }
          rewrite Hc', (IH _ Hs). now rewrite <- !app_assoc. }
      rewrite (G (chars id) [] F). cbn [app]. rewrite Hq.
      exists ("&"%char :: q), (map text ps). cbn [map]. rewrite <- app_assoc. cbn [app].
      split; [reflexivity|]. right. eauto. }
  destruct E as (q & ps & -> & Hq).
  cbn [length]. replace (1 <? Z.of_nat (S (S (length ps)))) with true
    by (symmetry; apply Z.ltb_lt; lia).
  change (PyStr.getindex (p :: text (chars id ++ q) :: ps) 1)
    with (PyStr.Item (text (chars id ++ q))).
  unfold PyStr.split. rewrite chars_text. change (chars "&") with ["&"%char].
  destruct Hq as [->|[q' ->]].
  - rewrite app_nil_r, (split_from_free _ _ (occurs_one_free "&" _ Hamp)).
    cbn [app map]. rewrite getindex_first, text_chars. reflexivity.
  - rewrite (split_from_one "&" (chars id) q' Hamp []).
    cbn [app map]. rewrite getindex_first, text_chars. reflexivity.
Qed.

Lemma extract_video_id_watch_witness :
  extract_video_id "https://www.youtube.com/watch?v=dQw4w9WgXcQ&t=42s"
  = PyStr.Item (Some "dQw4w9WgXcQ").
Proof.
  apply (extract_video_id_watch "https://www.youtube.com/watch?" "dQw4w9WgXcQ" "&t=42s");
    try reflexivity.
  right. exists "t=42s". reflexivity.
Defined.

(** X3: a URL that names youtu.be and not youtube.com gives what follows
    its last "/", whatever that is. *)
Theorem extract_video_id_short p id :
  PyStr.contains "youtube.com" (p +:+ "/" +:+ id) = false ->
  PyStr.contains "youtu.be" (p +:+ "/" +:+ id) = true ->
  free_of "/" id = true ->
  extract_video_id (p +:+ "/" +:+ id) = PyStr.Item (Some id).
Proof.
  intros Hy Hb Hid. unfold extract_video_id. rewrite Hy, Hb.
  unfold free_of in Hid. apply negb_true_iff in Hid.
  destruct (split_head (p +:+ "/" +:+ id) "/") as (x & rest & E).
  assert (L : last (PyStr.split (p +:+ "/" +:+ id) "/") = Some id).
  { unfold PyStr.split. rewrite !chars_app. change (chars "/") with ["/"%char]. cbn [app].
    rewrite fmap_last, (split_from_one_last "/" (chars p) (chars id) Hid []).
    cbn. now rewrite text_chars. }
  rewrite E in *. cbn [length Nat.eqb negb]. now rewrite (getindex_last _ _ L).
Qed.

Lemma extract_video_id_short_witness :
  extract_video_id "https://youtu.be/dQw4w9WgXcQ?t=42" = PyStr.Item (Some "dQw4w9WgXcQ?t=42").
Proof.
  apply (extract_video_id_short "https://youtu.be" "dQw4w9WgXcQ?t=42"); reflexivity.
Defined.

Lemma split_one_pieces s c piece :
  piece ∈ PyStr.split s (String c EmptyString) -> free_of c piece = true.
Proof.
  unfold PyStr.split, free_of. intros H. apply list_elem_of_fmap in H as (l & -> & H).
  rewrite chars_text. apply negb_true_iff.
  pose proof (split_from_one_pieces c (chars s) [] eq_refl) as F.
  rewrite List.Forall_forall in F. apply F. now apply list_elem_of_In.
Qed.

(** X4: the id that [extract_video_id] returns holds no "&" when the URL
    names youtube.com, and no "/" otherwise. *)
Theorem extract_video_id_free url id :
  extract_video_id url = PyStr.Item (Some id) ->
  free_of (if PyStr.contains "youtube.com" url then "&" else "/")%char id = true.
Proof.
  unfold extract_video_id.
  destruct (PyStr.contains "youtube.com" url).
  - destruct (1 <? _); [|discriminate].
    destruct (PyStr.getindex (PyStr.split url "v=") 1) as [part|]; [|discriminate].
    destruct (PyStr.getindex (PyStr.split part "&") 0) as [x|] eqn:G; [|discriminate].
    intros [= <-]. eapply split_one_pieces, getindex_elem_of, G.
  - destruct (PyStr.contains "youtu.be" url); [|discriminate].
    destruct (negb _); [|discriminate].
    destruct (PyStr.getindex (PyStr.split url "/") (-1)) as [x|] eqn:G; [|discriminate].
    intros [= <-]. eapply split_one_pieces, getindex_elem_of, G.
Qed.

Lemma extract_video_id_free_witness :
  extract_video_id "https://www.youtube.com/watch?v=abc&v=def" = PyStr.Item (Some "abc")
  /\ free_of "&" "abc" = true.
Proof.
  split; [reflexivity|].
  apply (extract_video_id_free "https://www.youtube.com/watch?v=abc&v=def" "abc").
  reflexivity.
Defined.

(** ** The display *)

(** The loop body of the display appends what the loop body of the text
    export writes, and raises what it raises. *)
Lemma display_entry_writes include_ts ts_format entry display_text :
  display_entry include_ts ts_format display_text entry =
  match txt_entry include_ts ts_format entry with
  | (s, Ok _) => Ok (display_text +:+ s)
  | (_, Raise err) => Raise err
  end.
Proof.
  unfold display_entry, txt_entry. destruct include_ts.
  - destruct (getitem entry "start") as [start|]; cbn [bind eval wbind]; [|reflexivity].
    destruct (format_timestamp start ts_format) as [ts|]; cbn [bind eval wbind]; [|reflexivity].
    destruct (getitem entry "text") as [t|]; cbn [bind eval wbind write]; reflexivity.
  - destruct (getitem entry "text") as [t|]; cbn [bind eval wbind write]; reflexivity.
Qed.

Lemma display_fold_raise include_ts ts_format data err :
  fold_left (fun acc entry =>
               let* display_text := acc in
               display_entry include_ts ts_format display_text entry)
            data (Raise err) = Raise err.
Proof. induction data as [|e t IH]; [reflexivity|]. exact IH. Qed.

Lemma display_fold_writes include_ts ts_format data :
  forall i display_text,
    fold_left (fun acc entry =>
                 let* display_text := acc in
                 display_entry include_ts ts_format display_text entry)
              data (Ok display_text) =
    match for_enumerate i data (fun _ entry => txt_entry include_ts ts_format entry) with
    | (s, Ok _) => Ok (display_text +:+ s)
    | (_, Raise err) => Raise err
    end.
Proof.
  induction data as [|e t IH]; intros i display_text.
  - cbn. now rewrite append_empty_r.
  - cbn [fold_left bind for_enumerate]. rewrite display_entry_writes.
    destruct (txt_entry include_ts ts_format e) as [s [[]|err]]; cbn [wbind].
    + rewrite (IH (i + 1) (display_text +:+ s)).
      destruct (for_enumerate (i + 1) t _) as [s' [[]|err]]; [|reflexivity].
      now rewrite append_assoc.
    + apply display_fold_raise.
Qed.

(** The text export writes what the display shows. *)
Lemma text_export_writes_display self ui file_path w data :
  transcript_data self = Some data ->
  data <> [] ->
  file_path ∉ unwritable w ->
  match update_transcript_display self ui with
  | Ok ui' =>
      url_input ui' = url_input ui
      /\ export_body "txt" file_path (timestamp_checkbox self)
           (timestamp_item_text (timestamp_format_combo self)) data w
         = (set_files (<[file_path := TextFile (transcript_display ui')]> (files w)) w, Ok tt)
  | Raise err =>
      exists fs,
        export_body "txt" file_path (timestamp_checkbox self)
          (timestamp_item_text (timestamp_format_combo self)) data w
        = (set_files fs w, Raise err)
  end.
Proof.
  intros Hd Hne Hw. unfold update_transcript_display. rewrite Hd.
  destruct data as [|e t]; [contradiction|].
  unfold export_body. cbn [String.eqb Ascii.eqb Bool.eqb]. unfold with_open, for_each.
  destruct (decide (file_path ∈ unwritable w)) as [|_]; [contradiction|].
  rewrite (display_fold_writes _ _ (e :: t) 0 EmptyString).
  destruct (for_enumerate 0 (e :: t) _) as [s [[]|err]]; cbn [bind].
  - split; reflexivity.
  - eauto.
Qed.

(** X5: what the window displays for a transcript is what the text export
    writes for it under the same controls, and the display fails to render
    exactly when the text export reports an error, with the same exception. *)
Theorem display_agrees_with_text_export self ui file_path w data :
  transcript_data self = Some data ->
  data <> [] ->
  export_format_combo self = TXT ->
  file_path <> EmptyString ->
  file_path ∉ unwritable w ->
  match update_transcript_display self ui with
  | Ok ui' =>
      url_input ui' = url_input ui
      /\ snd (export_transcript self file_path w)
         = show (export_successful file_path)
             (set_files (<[file_path := TextFile (transcript_display ui')]> (files w)) w)
  | Raise err =>
      dialogs (snd (export_transcript self file_path w)) = dialogs w ++ [export_error err]
  end.
Proof.
  intros Hd Hne Hf Hp Hw.
  pose proof (text_export_writes_display self ui file_path w data Hd Hne Hw) as H.
  unfold export_transcript. rewrite Hd, Hf.
  destruct data as [|e t]; [contradiction|].
  apply String.eqb_neq in Hp. rewrite Hp.
  change (lower (export_item_text TXT)) with "txt".
  destruct (update_transcript_display self ui) as [ui'|err].
  - destruct H as [Hu ->]. split; [exact Hu|reflexivity].
  - destruct H as [fs ->]. reflexivity.
Qed.

Lemma display_agrees_with_text_export_witness :
  snd (export_transcript (window (Some example_transcript) TXT true mm_ss) "out.txt" empty_world)
  = show (export_successful "out.txt")
      (set_files (<["out.txt" := TextFile ("[00:05] Hello" +:+ nl +:+ "[00:10] World" +:+ nl)]> ∅)
         empty_world).
Proof.
  apply (proj2 (display_agrees_with_text_export
                  (window (Some example_transcript) TXT true mm_ss)
                  {| url_input := EmptyString; transcript_display := EmptyString |}
                  "out.txt" empty_world example_transcript
                  eq_refl ltac:(discriminate) eq_refl ltac:(discriminate)
                  ltac:(apply not_elem_of_empty))).
Defined.

(** ** The stored preferences *)

(** The window made from saved preferences shows the controls that were
    saved. *)
Lemma init_window_saved self :
  same_controls (init_window (settings (save_preferences self))) self.
Proof.
  unfold same_controls, init_window, save_preferences, settings_value.
  cbn [settings export_format_combo timestamp_checkbox timestamp_format_combo].
  rewrite lookup_insert_eq.
  rewrite (lookup_insert_ne _ "timestamp_format" "include_timestamps") by discriminate.
  rewrite lookup_insert_eq.
  rewrite (lookup_insert_ne _ "timestamp_format" "default_export_format") by discriminate.
  rewrite (lookup_insert_ne _ "include_timestamps" "default_export_format") by discriminate.
  rewrite lookup_insert_eq. cbn [default].
  destruct (export_format_combo self), (timestamp_checkbox self), (timestamp_format_combo self);
    repeat split; reflexivity.
Qed.

(** X6: closing the window and starting it again gives the controls back
    as they were: the window made from the preferences that [closeEvent]
    stores shows the same export format, check box and timestamp format, has
    no transcript, and closing it at once stores the same preferences again. *)
Theorem preferences_round_trip self :
  same_controls (init_window (settings (closeEvent self))) self
  /\ transcript_data (init_window (settings (closeEvent self))) = None
  /\ settings (closeEvent (init_window (settings (closeEvent self))))
     = settings (closeEvent self).
Proof.
  split; [apply init_window_saved|]. split; [reflexivity|].
  destruct (init_window_saved self) as (Hf & Hc & Ht).
  unfold closeEvent in *. unfold save_preferences at 1. cbn [settings].
  rewrite Hf, Hc, Ht.
  change (settings (init_window (settings (save_preferences self))))
    with (settings (save_preferences self)).
  unfold save_preferences. cbn [settings].
  apply map_eq. intros k.
  repeat match goal with
         | |- context [<[?a := _]> _ !! k] =>
             destruct (decide (a = k)) as [<-|];
             [rewrite ?lookup_insert_eq; try reflexivity
             |rewrite (lookup_insert_ne _ a k) by assumption]
         end;
    repeat (first [rewrite lookup_insert_eq | rewrite lookup_insert_ne by discriminate]);
    reflexivity.
Qed.

(** X7: an export never changes the transcript or the controls of the
    window. It stores the preferences exactly when there is a transcript and
    a destination was chosen, so that the next start shows the controls of
    the last export; without a destination nothing happens at all. *)
Theorem export_stores_preferences self file_path w :
  transcript_data (fst (export_transcript self file_path w)) = transcript_data self
  /\ same_controls (fst (export_transcript self file_path w)) self
  /\ match transcript_data self with
     | Some (_ :: _) =>
         if String.eqb file_path EmptyString
         then export_transcript self file_path w = (self, w)
         else fst (export_transcript self file_path w) = save_preferences self
              /\ same_controls
                   (init_window (settings (fst (export_transcript self file_path w)))) self
     | _ => fst (export_transcript self file_path w) = self
     end.
Proof.
  unfold export_transcript.
  destruct (transcript_data self) as [[|e t]|] eqn:Hd; cbn [fst];
    try (rewrite Hd; repeat split; reflexivity).
  destruct (String.eqb file_path EmptyString); cbn [fst].
  - rewrite Hd. repeat split; reflexivity.
  - destruct (export_body _ _ _ _ _ _) as [w1 r]. cbn [fst].
    split; [exact Hd|]. split; [repeat split; reflexivity|].
    split; [reflexivity|]. apply init_window_saved.
Qed.

(** ** Styles and policies *)

(** X8: every timestamp format other than "mm:ss" is formatted as
    "HH:MM:SS" is, whatever its name. *)
Theorem format_timestamp_other_style v fmt :
  fmt <> "mm:ss" -> format_timestamp v fmt = format_timestamp v "HH:MM:SS".
Proof.
  intros H. unfold format_timestamp.
  destruct (safe_time v) as [x|]; cbn [bind]; [|reflexivity].
  destruct (int_of_float x) as [n|]; cbn [bind]; [|reflexivity].
  apply String.eqb_neq in H. rewrite H.
  change (String.eqb "HH:MM:SS" "HH:MM:SS") with true.
  destruct (String.eqb fmt "HH:MM:SS"); reflexivity.
Qed.

Lemma format_timestamp_other_style_witness :
  format_timestamp (VInt 3661) "H:M:S" = format_timestamp (VInt 3661) "HH:MM:SS".
Proof.
  apply (format_timestamp_other_style (VInt 3661) "H:M:S"). discriminate.
Defined.

(** X9: the export does not depend on controls that its format does not
    use: two windows with the same transcript and the same format leave the
    same files and message boxes behind when the format is subtitles or
    JSON, whatever their check boxes and timestamp formats are, and for
    every format when both check boxes are off, whatever their timestamp
    formats are. *)
Theorem export_ignores_unused_controls self self' file_path w :
  transcript_data self' = transcript_data self ->
  export_format_combo self' = export_format_combo self ->
  export_format_combo self = SRT \/ export_format_combo self = JSON
  \/ (timestamp_checkbox self = false /\ timestamp_checkbox self' = false) ->
  snd (export_transcript self' file_path w) = snd (export_transcript self file_path w).
Proof.
  intros Hd Hf Hc. unfold export_transcript. rewrite Hd, Hf.
  destruct (transcript_data self) as [[|e t]|]; try reflexivity.
  destruct (String.eqb file_path EmptyString); [reflexivity|].
  assert (E : export_body (lower (export_item_text (export_format_combo self))) file_path
                (timestamp_checkbox self')
                (timestamp_item_text (timestamp_format_combo self')) (e :: t) w
              = export_body (lower (export_item_text (export_format_combo self))) file_path
                  (timestamp_checkbox self)
                  (timestamp_item_text (timestamp_format_combo self)) (e :: t) w).
  { destruct Hc as [->|[->|[-> ->]]].
    - reflexivity.
    - reflexivity.
    - destruct (export_format_combo self); reflexivity. }
  rewrite E. clear E. destruct (export_body _ _ _ _ _ _) as [w1 r]. reflexivity.
Qed.

Lemma export_ignores_unused_controls_witness :
  snd (export_transcript (window (Some example_transcript) CSV false mm_ss) "out.csv" empty_world)
  = snd (export_transcript (window (Some example_transcript) CSV false HH_MM_SS) "out.csv"
           empty_world).
Proof.
  apply (export_ignores_unused_controls
           (window (Some example_transcript) CSV false HH_MM_SS)
           (window (Some example_transcript) CSV false mm_ss) "out.csv" empty_world
           eq_refl eq_refl).
  right. right. split; reflexivity.
Defined.

(** ** The document export *)

(** X10: the document export is all or nothing. It saves the document only
    after every segment has been rendered: either it reports an error and
    leaves every file as it was, or it reports success and the destination
    holds the heading followed by one paragraph per segment. *)
Theorem export_document_all_or_nothing self file_path w data :
  transcript_data self = Some data ->
  data <> [] ->
  export_format_combo self = DOCX ->
  file_path <> EmptyString ->
  (files (snd (export_transcript self file_path w)) = files w
   /\ exists err,
        dialogs (snd (export_transcript self file_path w)) = dialogs w ++ [export_error err])
  \/ (exists pieces,
        render_all (segment_piece DOCX (timestamp_checkbox self)
                      (timestamp_item_text (timestamp_format_combo self))) 1 data = Ok pieces
        /\ files (snd (export_transcript self file_path w))
           = <[file_path := DocxFile (Docx.Heading "Transcript" 1 :: blocks pieces)]> (files w)
        /\ length pieces = length data
        /\ dialogs (snd (export_transcript self file_path w))
           = dialogs w ++ [export_successful file_path]).
Proof.
  intros Hd Hne Hf Hp. unfold export_transcript. rewrite Hd, Hf.
  destruct data as [|e t]; [contradiction|].
  apply String.eqb_neq in Hp. rewrite Hp.
  change (lower (export_item_text DOCX)) with "docx". unfold export_body.
  cbn [String.eqb Ascii.eqb Bool.eqb].
  pose proof (docx_loop_renders (timestamp_checkbox self)
                (timestamp_item_text (timestamp_format_combo self)) (e :: t)
                (Docx.add_heading Docx.new_document "Transcript" 1) 1) as H.
  destruct (render_all _ 1 (e :: t)) as [ps|] eqn:R.
  - rewrite H. unfold save_document.
    destruct (decide (file_path ∈ unwritable w)).
    + left. cbn [snd show files dialogs]. eauto.
    + right. exists ps. cbn [snd show set_files files dialogs].
      split; [reflexivity|]. split; [reflexivity|].
      split; [apply (render_all_lookup _ _ _ _ R)|reflexivity].
  - destruct H as (err & ->). left. cbn [snd show files dialogs]. eauto.
Qed.

Lemma export_document_all_or_nothing_witness :
  (files (snd (export_transcript (window (Some broken_transcript) DOCX true mm_ss) "out.docx"
                 (world_with "out.docx" (TextFile "an earlier export"))))
   = files (world_with "out.docx" (TextFile "an earlier export"))
   /\ exists err,
        dialogs (snd (export_transcript (window (Some broken_transcript) DOCX true mm_ss)
                        "out.docx" (world_with "out.docx" (TextFile "an earlier export"))))
        = [export_error err])
  \/ (exists pieces,
        render_all (segment_piece DOCX true "mm:ss") 1 broken_transcript = Ok pieces
        /\ files (snd (export_transcript (window (Some broken_transcript) DOCX true mm_ss)
                         "out.docx" (world_with "out.docx" (TextFile "an earlier export"))))
           = <["out.docx" := DocxFile (Docx.Heading "Transcript" 1 :: blocks pieces)]>
               (files (world_with "out.docx" (TextFile "an earlier export")))
        /\ length pieces = 2%nat
        /\ dialogs (snd (export_transcript (window (Some broken_transcript) DOCX true mm_ss)
                           "out.docx" (world_with "out.docx" (TextFile "an earlier export"))))
           = [export_successful "out.docx"]).
Proof.
  apply (export_document_all_or_nothing
           (window (Some broken_transcript) DOCX true mm_ss) "out.docx"
           (world_with "out.docx" (TextFile "an earlier export")) broken_transcript
           eq_refl ltac:(discriminate) eq_refl ltac:(discriminate)).
Defined.

(** ** Fetching a transcript *)

(** X11: a URL that is blank, or from which no video id or an empty one is
    extracted, is rejected without a call to the transcript service: the
    display is cleared, one warning is shown, and the transcript and
    everything else stay as they were. *)
Theorem fetch_transcript_rejects_url api self ui w :
  PyStr.strip (url_input ui) = EmptyString
  \/ extract_video_id (PyStr.strip (url_input ui)) = PyStr.Item None
  \/ extract_video_id (PyStr.strip (url_input ui)) = PyStr.Item (Some EmptyString) ->
  fetch_transcript api self ui w
  = PyStr.Item (self, set_display EmptyString ui,
                show (if String.eqb (PyStr.strip (url_input ui)) EmptyString
                      then input_error else url_error) w).
Proof.
  intros H. unfold fetch_transcript. cbn [set_display url_input].
  destruct (String.eqb_spec (PyStr.strip (url_input ui)) EmptyString) as [E|E]; [reflexivity|].
  destruct H as [H|[->| ->]]; [contradiction|reflexivity..].
Qed.

Lemma fetch_transcript_rejects_url_witness :
  fetch_transcript (service_with example_transcript)
    (window (Some example_transcript) TXT true mm_ss)
    {| url_input := " https://www.youtube.com/watch?v= "; transcript_display := "[00:05] Hello" |}
    empty_world
  = PyStr.Item (window (Some example_transcript) TXT true mm_ss,
                {| url_input := " https://www.youtube.com/watch?v= ";
                   transcript_display := EmptyString |},
                show url_error empty_world).
Proof.
  apply (fetch_transcript_rejects_url (service_with example_transcript)
           (window (Some example_transcript) TXT true mm_ss)
           {| url_input := " https://www.youtube.com/watch?v= ";
              transcript_display := "[00:05] Hello" |} empty_world).
  right. right. reflexivity.
Defined.

(** X12: whatever the transcript service does, [fetch_transcript] touches
    no file, no control and no stored preference. Either it keeps the
    transcript that the window had, leaves the display empty and shows one
    message box; or the service returned the entries of the video, these
    are the transcript now, and the display shows them without any message
    box, or stays empty with one error message when they do not render. *)
Theorem fetch_transcript_outcome api self ui w self' ui' w' :
  fetch_transcript api self ui w = PyStr.Item (self', ui', w') ->
  files w' = files w
  /\ url_input ui' = url_input ui
  /\ same_controls self' self
  /\ settings self' = settings self
  /\ ((self' = self /\ transcript_display ui' = EmptyString /\ exists d, w' = show d w)
      \/ (exists video_id data,
            extract_video_id (PyStr.strip (url_input ui)) = PyStr.Item (Some video_id)
            /\ fetch_entries api video_id = Returned data
            /\ self' = set_transcript_data data self
            /\ ((update_transcript_display self' (set_display EmptyString ui) = Ok ui'
                 /\ w' = w)
                \/ (exists err,
                      update_transcript_display self' (set_display EmptyString ui) = Raise err
                      /\ transcript_display ui' = EmptyString
                      /\ w' = show (fetch_error (exn_str err)) w)))).
Proof.
  unfold fetch_transcript. cbn [set_display url_input].
  destruct (String.eqb (PyStr.strip (url_input ui)) EmptyString).
  { intros [= <- <- <-]. repeat split. left. eauto. }
  destruct (extract_video_id (PyStr.strip (url_input ui))) as [[id|]|]; [| |discriminate].
  2: { intros [= <- <- <-]. repeat split. left. eauto. }
  destruct id as [|c id].
  { intros [= <- <- <-]. repeat split. left. eauto. }
  destruct (fetch_entries api (String c id)) as [data|e] eqn:F.
  - destruct (update_transcript_display (set_transcript_data data self)
                (set_display EmptyString ui)) as [ui1|err] eqn:U.
    + intros [= <- <- <-].
      assert (Hu : url_input ui1 = url_input ui).
      { unfold update_transcript_display in U.
        destruct (transcript_data _) as [[|x l]|]; try (injection U as <-; reflexivity).
        destruct (fold_left _ _ _); [|discriminate]. injection U as <-. reflexivity. }
      repeat split; try assumption. right. exists (String c id), data. eauto 10.
    + intros [= <- <- <-]. repeat split. right. exists (String c id), data.
      split; [reflexivity|]. split; [exact F|]. split; [reflexivity|].
      right. exists err. eauto.
  - destruct e; intros [= <- <- <-]; repeat split; left; eauto.
Qed.

Lemma fetch_transcript_outcome_witness :
  fetch_transcript (service_with example_transcript) (window None TXT true mm_ss)
    {| url_input := "https://youtu.be/dQw4w9WgXcQ"; transcript_display := EmptyString |}
    empty_world
  = PyStr.Item (window (Some example_transcript) TXT true mm_ss,
                {| url_input := "https://youtu.be/dQw4w9WgXcQ";
                   transcript_display := "[00:05] Hello" +:+ nl +:+ "[00:10] World" +:+ nl |},
                empty_world)
  /\ same_controls (window (Some example_transcript) TXT true mm_ss) (window None TXT true mm_ss).
Proof.
  split; [reflexivity|].
  apply (proj1 (proj2 (proj2 (fetch_transcript_outcome (service_with example_transcript)
                  (window None TXT true mm_ss)
                  {| url_input := "https://youtu.be/dQw4w9WgXcQ";
                     transcript_display := EmptyString |}
                  empty_world
                  (window (Some example_transcript) TXT true mm_ss)
                  {| url_input := "https://youtu.be/dQw4w9WgXcQ";
                     transcript_display := "[00:05] Hello" +:+ nl +:+ "[00:10] World" +:+ nl |}
                  empty_world eq_refl)))).
Defined.

(** X13: whenever a fetch leaves something on display, a text export made
    right after it writes exactly the text on display and reports success. *)
Theorem fetched_display_is_exported api self ui w self' ui' w' file_path :
  fetch_transcript api self ui w = PyStr.Item (self', ui', w') ->
  transcript_display ui' <> EmptyString ->
  export_format_combo self = TXT ->
  file_path <> EmptyString ->
  file_path ∉ unwritable w ->
  snd (export_transcript self' file_path w')
  = show (export_successful file_path)
      (set_files (<[file_path := TextFile (transcript_display ui')]> (files w)) w).
Proof.
  intros H Hdisplay Hf Hp Hw. revert H. unfold fetch_transcript. cbn [set_display url_input].
  destruct (String.eqb (PyStr.strip (url_input ui)) EmptyString).
  { intros [= <- <- <-]. contradiction. }
  destruct (extract_video_id (PyStr.strip (url_input ui))) as [[id|]|]; [| |discriminate].
  2: { intros [= <- <- <-]. contradiction. }
  destruct id as [|c id].
  { intros [= <- <- <-]. contradiction. }
  destruct (fetch_entries api (String c id)) as [data|e].
  2: { destruct e; intros [= <- <- <-]; contradiction. }
  destruct (update_transcript_display (set_transcript_data data self)
              (set_display EmptyString ui)) as [ui1|err] eqn:U.
  2: { intros [= <- <- <-]. contradiction. }
  intros [= <- <- <-].
  destruct data as [|e t].
  { injection U as <-. contradiction. }
  pose proof (text_export_writes_display (set_transcript_data (e :: t) self)
                (set_display EmptyString ui) file_path w (e :: t) eq_refl
                ltac:(discriminate) Hw) as T.
  rewrite U in T. destruct T as [_ T].
  unfold export_transcript.
  cbn [transcript_data set_transcript_data export_format_combo timestamp_checkbox
       timestamp_format_combo] in *.
  rewrite Hf. apply String.eqb_neq in Hp. rewrite Hp.
  change (lower (export_item_text TXT)) with "txt". rewrite T. reflexivity.
Qed.

Lemma fetched_display_is_exported_witness :
  snd (export_transcript (window (Some example_transcript) TXT true mm_ss) "out.txt" empty_world)
  = show (export_successful "out.txt")
      (set_files (<["out.txt" := TextFile ("[00:05] Hello" +:+ nl +:+ "[00:10] World" +:+ nl)]> ∅)
         empty_world).
Proof.
  apply (fetched_display_is_exported (service_with example_transcript)
           (window None TXT true mm_ss)
           {| url_input := "https://youtu.be/dQw4w9WgXcQ"; transcript_display := EmptyString |}
           empty_world
           (window (Some example_transcript) TXT true mm_ss)
           {| url_input := "https://youtu.be/dQw4w9WgXcQ";
              transcript_display := "[00:05] Hello" +:+ nl +:+ "[00:10] World" +:+ nl |}
           empty_world "out.txt" eq_refl ltac:(discriminate) eq_refl ltac:(discriminate)
           ltac:(apply not_elem_of_empty)).
Defined.

(** ** Success of the export *)

Lemma render_all_all {A} (render : Z -> obj -> result A) l :
  forall i,
    (forall n e, l !! n = Some e -> exists p, render (i + Z.of_nat n) e = Ok p) ->
    exists ps, render_all render i l = Ok ps.
Proof.
  induction l as [|e t IH]; intros i H; [now exists []|].
  cbn [render_all].
  destruct (H 0%nat e eq_refl) as [p Hp]. rewrite Z.add_0_r in Hp. rewrite Hp. cbn [bind].
  destruct (IH (i + 1)) as [ps ->].
  - intros n x Hx. destruct (H (S n) x Hx) as [q Hq]. exists q. rewrite <- Hq. f_equal. lia.
  - now exists (p :: ps).
Qed.

(** X14: an export to a destination that can be opened, of records that
    stay clear of the limits of the interpreter, reports success exactly
    when every segment renders in the chosen format under the chosen policy;
    otherwise it reports an error. *)
Theorem export_succeeds_iff self file_path w data :
  transcript_data self = Some data ->
  data <> [] ->
  file_path <> EmptyString ->
  file_path ∉ unwritable w ->
  forallb within_limits data = true ->
  (dialogs (snd (export_transcript self file_path w)) = dialogs w ++ [export_successful file_path]
   <-> forall n e, data !! n = Some e ->
         exists p, segment_piece (export_format_combo self) (timestamp_checkbox self)
                     (timestamp_item_text (timestamp_format_combo self))
                     (1 + Z.of_nat n) e = Ok p)
  /\ (dialogs (snd (export_transcript self file_path w)) = dialogs w ++ [export_successful file_path]
      \/ exists err,
           dialogs (snd (export_transcript self file_path w)) = dialogs w ++ [export_error err]).
Proof.
  intros Hd Hne Hp Hw _.
  pose proof (export_transcript_outcome self file_path w data Hd Hne Hp Hw) as H.
  destruct (render_all _ 1 data) as [ps|err0] eqn:R.
  - rewrite H. cbn [snd show dialogs set_files]. split; [|now left].
    split; [|reflexivity]. intros _ n e He.
    destruct (proj2 (render_all_lookup _ data 1 ps R) n e He) as (p & _ & Hpiece). eauto.
  - destruct H as (fs & err & ->). cbn [snd show dialogs set_files]. split; [|eauto].
    split.
    + intros E. apply app_inv_head in E. discriminate.
    + intros Hall. destruct (render_all_all _ data 1 Hall) as [ps Hps].
      rewrite Hps in R. discriminate.
Qed.

Lemma export_succeeds_iff_witness :
  dialogs (snd (export_transcript (window (Some broken_transcript) JSON true mm_ss) "out.json"
                  empty_world))
  = [export_successful "out.json"].
Proof.
  refine (proj2 (proj1 (export_succeeds_iff (window (Some broken_transcript) JSON true mm_ss)
                          "out.json" empty_world broken_transcript eq_refl _ _ _ eq_refl)) _).
  - discriminate.
  - discriminate.
  - apply not_elem_of_empty.
  - intros n e _. eexists. reflexivity.
Defined.
